(** * Offline-sync core of the Masjeed PWA

    A shallow embedding of the client-side offline layer:

    - [IndexedDB]      class IndexedDBManager, src/utils/indexedDB.ts
    - [OfflineQueue]   class OfflineQueueManager, utils/offlineQueue
                       (src/unnamed/part_009)
    - [ServiceWorker]  the fetch listener and handleApiRequest of the
                       service worker /sw.js (src/unnamed/part_005)
    - [AuthStore]      setOnlineStatus, syncOfflineData and
                       updateQueuedRequests of store/authStore, with the
                       [offline] listeners of App (src/App.tsx)
    - [Interleaved]    the [online] listeners of the queue manager and of
                       App, with the asynchronous functions they start
    - [OfflineStorage] the queue methods of IndexedDBManager and the
                       helpers [offlineStorage], src/utils/indexedDB.ts
    - [QueueHelpers]   the exported helpers [offlineQueue]
                       (src/unnamed/part_009)
    - [ServiceWorkerRoutes]  handleStaticAssets, handleNavigation and
                       handleOtherRequests of the service worker
    - [AuthStoreActions]  clearOfflineQueue of store/authStore

    Conventions.  Numbers are integers ([Z]; time stamps in milliseconds),
    JS objects used as dictionaries are [gmap string _], typed objects are
    records, and [undefined] or [null] in an optional position is [None].
    An asynchronous function is a state transformer that returns a
    completion, a value or a thrown exception (a rejected promise).  An
    entry point called alone runs to its end.  The [online] event starts
    several asynchronous functions that run at the same time: there
    ([Interleaved]) a function runs up to its next [await], and an event
    loop ([EventLoop]) completes the awaited operations in the order in
    which they were started.  An object store is listed in the ascending
    order of its keys.  [Date.now()] is read once per entry point and
    passed as [now]; the random suffix of a generated id and the answers of
    the network are arguments too.  Arithmetic on numbers is exact: the
    embedding is of the code on numbers of a magnitude up to 2^53, where a
    double holds every integer.  The values of [Date.now()] are at most
    8.64 * 10^15 in magnitude and stay below that bound when a TTL of the
    code is added; a theorem on a TTL that the caller chooses states the
    bound on the expiry that is computed from it. *)

From Stdlib Require Import ZArith Lia.
From stdpp Require Import base option list strings gmap pretty sorting.

#[local] Set Warnings "-register-all".
Local Open Scope string_scope.
Local Open Scope list_scope.
Local Open Scope Z_scope.

(** ** Values, exceptions and completions *)

(** JSON documents ([any] in the source, bodies of responses). *)
Inductive json :=
| JNull
| JBool (b : bool)
| JNum (n : Z)
| JStr (s : string)
| JArr (items : list json)
| JObj (props : list (string * json)).

(** JS truthiness of a JSON value that stands for [any]. *)
Definition truthy (v : json) : bool :=
  match v with
  | JNull => false
  | JBool b => b
  | JNum n => negb (n =? 0)
  | JStr s => negb (String.eqb s "")
  | JArr _ | JObj _ => true
  end.

(** Truthiness of an optional number ([undefined] and [0] are falsy). *)
Definition truthyNum (n : option Z) : bool :=
  match n with
  | Some k => negb (k =? 0)
  | None => false
  end.

(** Truthiness of an optional string ([undefined], [null], [""] are falsy). *)
Definition truthyStr (s : option string) : bool :=
  match s with
  | Some t => negb (String.eqb t "")
  | None => false
  end.

(** What a [throw] or a rejected promise carries. *)
Inductive Exception :=
| NotFoundError            (* IDBDatabase.transaction: no such object store *)
| ConstraintError          (* IDBObjectStore.add: the key already exists *)
| NetworkError (why : string)   (* fetch rejected *)
| SyntaxError              (* Response.json() on a body that is not JSON *)
| TypeError (message : string)  (* a body used twice, Cache.put of a non-GET request *)
| Error (message : string).     (* new Error(message) *)

Inductive completion (A : Type) :=
| Return (a : A)
| Throw (e : Exception).
Arguments Return {A} a.
Arguments Throw {A} e.

(** Asynchronous code over a state [S]: state passing with exceptions. *)
Definition Task (S A : Type) : Type := S → completion A * S.

Definition ret {S A} (a : A) : Task S A := λ s, (Return a, s).
Definition throw {S A} (e : Exception) : Task S A := λ s, (Throw e, s).
Definition bind {S A B} (m : Task S A) (k : A → Task S B) : Task S B :=
  λ s, match m s with
       | (Return a, s') => k a s'
       | (Throw e, s') => (Throw e, s')
       end.
(** [try { m } catch (error) { h error }] *)
Definition try_catch {S A} (m : Task S A) (h : Exception → Task S A) : Task S A :=
  λ s, match m s with
       | (Return a, s') => (Return a, s')
       | (Throw e, s') => h e s'
       end.
(** [try { m } finally { f }] *)
Definition try_finally {S A} (m : Task S A) (f : Task S unit) : Task S A :=
  λ s, match m s with
       | (r, s') => match f s' with
                    | (Return _, s'') => (r, s'')
                    | (Throw e, s'') => (Throw e, s'')
                    end
       end.
Definition modify {S} (f : S → S) : Task S unit := λ s, (Return tt, f s).
Definition gets {S A} (f : S → A) : Task S A := λ s, (Return (f s), s).

(** A call that is not awaited: it runs, its outcome is not observed. *)
Definition detached {S A} (m : Task S A) : Task S unit :=
  λ s, (Return tt, (m s).2).

Notation "'let*' x ':=' m 'in' k" := (bind m (λ x, k))
  (at level 10, x pattern, m at level 100, k at level 200, only parsing).
Notation "m ';;;' k" := (bind m (λ _, k))
  (at level 100, k at level 200, right associativity, only parsing).

(** [for (const x of xs) { await body x }] *)
Fixpoint for_of {S A} (xs : list A) (body : A → Task S unit) : Task S unit :=
  match xs with
  | [] => ret tt
  | x :: rest => body x ;;; for_of rest body
  end.

(** ** Asynchronous functions that run at the same time *)

Module EventLoop.
Section Jobs.
Context {S : Type}.

(** What is left of an asynchronous function that waits at an [await] for
    an operation started earlier (a request to the database, a fetch).
    When the operation completes, [resume] runs on the state of that
    moment: the operation takes effect, then the code after the [await]
    runs up to the next [await].  It yields what is pending because of
    it: nothing when the function has returned. *)
Inductive Job := Awaiting (resume : S → list Job * S).

(** Code that runs now: it changes the state and leaves jobs pending. *)
Definition Async : Type := S → list Job * S.

(** The function returns. *)
Definition finished : Async := λ s, ([], s).

(** Synchronous code [m] that does not throw, then [k]. *)
Definition exec {A} (m : Task S A) (k : Async) : Async :=
  λ s, k (m s).2.

(** [k] on a value read from the state. *)
Definition read {A} (f : S → A) (k : A → Async) : Async :=
  λ s, k (f s) s.

(** [await op], then [k] on its outcome: [op] is started now and the
    function waits for its completion.  Only operations of the browser
    make a function wait: after an [await] on a function that has
    returned without waiting, the caller goes on at once. *)
Definition await {A} (op : Task S A) (k : completion A → Async) : Async :=
  λ s, ([Awaiting (λ s1, let '(r, s2) := op s1 in k r s2)], s).

(** A call that is not awaited: [call] runs up to its first [await], then
    the caller goes on with [k]. *)
Definition unawaited (call : Async) (k : Async) : Async :=
  λ s, let '(js, s1) := call s in
       let '(js', s2) := k s1 in
       (js ++ js', s2).

(** [for (const x of xs) { await body x }]: a rejection of [body] leaves
    the loop. *)
Fixpoint forOf {A} (xs : list A) (body : A → (completion unit → Async) → Async)
    (k : completion unit → Async) : Async :=
  match xs with
  | [] => k (Return tt)
  | x :: rest =>
      body x (λ r, match r with
                   | Return _ => forOf rest body k
                   | Throw e => k (Throw e)
                   end)
  end.

(** The event loop: the operations complete in the order in which they
    were started, one per step, until nothing is pending. *)
Fixpoint eventLoop (fuel : nat) (pending : list Job) (s : S) {struct fuel} : option S :=
  match pending with
  | [] => Some s
  | Awaiting resume :: rest =>
      match fuel with
      | O => None
      | Datatypes.S n => let '(js, s1) := resume s in eventLoop n (rest ++ js) s1
      end
  end.

(** An event is dispatched: its listeners run, then the event loop. *)
Definition dispatch (fuel : nat) (listeners : Async) (s : S) : option S :=
  let '(js, s1) := listeners s in eventLoop fuel js s1.

(** [listeners], called alone on [s], arrive at [s']. *)
Definition runs (listeners : Async) (s s' : S) : Prop :=
  ∃ fuel, dispatch fuel listeners s = Some s'.

End Jobs.
Arguments Job : clear implicits.
Arguments Async : clear implicits.
End EventLoop.

(** ** src/utils/indexedDB.ts *)

Module StoredData.
(** interface StoredData *)
Record t := mk {
  id : string;
  data : json;
  timestamp : Z;
  expiresAt : option Z
}.
End StoredData.

Module QueuedRequest.
(** The [type] of a queued request:
    'donations' | 'registrations' | 'announcements' | 'general' *)
Inductive RequestType := donations | registrations | announcements | general.

(** interface QueuedRequest (utils/offlineQueue), as the object lies in the
    store: [IndexedDBManager.store] adds an [expiresAt] property to every
    object it writes. *)
Record t := mk {
  id : string;
  url : string;
  method : string;
  body : option string;
  headers : gmap string string;
  timestamp : Z;
  retryCount : Z;
  maxRetries : option Z;
  type : RequestType;
  expiresAt : option Z
}.
End QueuedRequest.

Module IndexedDB.

(** [keyof DBSchema], indexed by [DBSchema[T]]. *)
Inductive StoreName : Type → Type :=
| prayerTimes : StoreName StoredData.t
| events : StoreName StoredData.t
| announcements : StoreName StoredData.t
| donations : StoreName StoredData.t
| community : StoreName StoredData.t
| userData : StoreName StoredData.t
| offlineQueue : StoreName QueuedRequest.t.

(** The database 'masjeed-offline-db': per name the object store, or
    [None] when the database has no object store of that name.  Every
    object store has keyPath 'id'. *)
Record Database := mkDatabase {
  os_prayerTimes : option (gmap string StoredData.t);
  os_events : option (gmap string StoredData.t);
  os_announcements : option (gmap string StoredData.t);
  os_donations : option (gmap string StoredData.t);
  os_community : option (gmap string StoredData.t);
  os_userData : option (gmap string StoredData.t);
  os_offlineQueue : option (gmap string QueuedRequest.t)
}.

(** The browser's state: [None] while the database does not exist. *)
Definition IDB : Type := option Database.

Definition noStores : Database := mkDatabase None None None None None None None.

Definition objectStore {A} (T : StoreName A) : Database → option (gmap string A) :=
  match T in StoreName A return Database → option (gmap string A) with
  | prayerTimes => os_prayerTimes
  | events => os_events
  | announcements => os_announcements
  | donations => os_donations
  | community => os_community
  | userData => os_userData
  | offlineQueue => os_offlineQueue
  end.

Definition setObjectStore {A} (T : StoreName A) : gmap string A → Database → Database :=
  match T in StoreName A return gmap string A → Database → Database with
  | prayerTimes => λ s db,
      mkDatabase (Some s) (os_events db) (os_announcements db) (os_donations db)
                 (os_community db) (os_userData db) (os_offlineQueue db)
  | events => λ s db,
      mkDatabase (os_prayerTimes db) (Some s) (os_announcements db) (os_donations db)
                 (os_community db) (os_userData db) (os_offlineQueue db)
  | announcements => λ s db,
      mkDatabase (os_prayerTimes db) (os_events db) (Some s) (os_donations db)
                 (os_community db) (os_userData db) (os_offlineQueue db)
  | donations => λ s db,
      mkDatabase (os_prayerTimes db) (os_events db) (os_announcements db) (Some s)
                 (os_community db) (os_userData db) (os_offlineQueue db)
  | community => λ s db,
      mkDatabase (os_prayerTimes db) (os_events db) (os_announcements db) (os_donations db)
                 (Some s) (os_userData db) (os_offlineQueue db)
  | userData => λ s db,
      mkDatabase (os_prayerTimes db) (os_events db) (os_announcements db) (os_donations db)
                 (os_community db) (Some s) (os_offlineQueue db)
  | offlineQueue => λ s db,
      mkDatabase (os_prayerTimes db) (os_events db) (os_announcements db) (os_donations db)
                 (os_community db) (os_userData db) (Some s)
  end.

(** [db.objectStoreNames.contains(name)] *)
Definition contains {A} (T : StoreName A) (db : Database) : bool :=
  bool_decide (is_Some (objectStore T db)).

(** [if (!db.objectStoreNames.contains(name)) db.createObjectStore(name, {keyPath:'id'})] *)
Definition createIfMissing {A} (T : StoreName A) (db : Database) : Database :=
  if contains T db then db else setObjectStore T ∅ db.

(** [indexedDB.open(name, 1)]: [onupgradeneeded] runs only when the
    database is created; re-opening at the same version changes nothing. *)
Definition open (onupgradeneeded : Database → Database) (idb : IDB) : Database :=
  match idb with
  | None => onupgradeneeded noStores
  | Some db => db
  end.

(** The properties the generic code touches: the key path [id], the
    [expiresAt] property, and the spread
    [{...data, timestamp: ts, expiresAt: e}]. *)
Definition keyOf {A} (T : StoreName A) : A → string :=
  match T in StoreName A return A → string with
  | offlineQueue => QueuedRequest.id
  | _ => StoredData.id
  end.

Definition expiresAtOf {A} (T : StoreName A) : A → option Z :=
  match T in StoreName A return A → option Z with
  | offlineQueue => QueuedRequest.expiresAt
  | _ => StoredData.expiresAt
  end.

Definition stampData (ts : Z) (e : option Z) (d : StoredData.t) : StoredData.t :=
  StoredData.mk (StoredData.id d) (StoredData.data d) ts e.

Definition stampQueued (ts : Z) (e : option Z) (q : QueuedRequest.t) : QueuedRequest.t :=
  QueuedRequest.mk (QueuedRequest.id q) (QueuedRequest.url q) (QueuedRequest.method q)
    (QueuedRequest.body q) (QueuedRequest.headers q) ts (QueuedRequest.retryCount q)
    (QueuedRequest.maxRetries q) (QueuedRequest.type q) e.

Definition withExpiry {A} (T : StoreName A) : Z → option Z → A → A :=
  match T in StoreName A return Z → option Z → A → A with
  | offlineQueue => stampQueued
  | _ => stampData
  end.

(** IndexedDBManager.init: the [onupgradeneeded] handler. *)
Definition onupgradeneeded (db : Database) : Database :=
  createIfMissing offlineQueue
    (createIfMissing community
      (createIfMissing donations
        (createIfMissing announcements
          (createIfMissing events
            (createIfMissing prayerTimes db))))).

(** IndexedDBManager.init; [if (!this.db) await this.init()] opens the
    database on first use and keeps the handle afterwards. *)
Definition init (idb : IDB) : Database := open onupgradeneeded idb.

(** The object stores that the upgrade handler of init creates. *)
Definition createdByInit {A} (T : StoreName A) : bool :=
  match T with userData => false | _ => true end.

(** [this.db!.transaction([storeName], mode).objectStore(storeName)]:
    throws NotFoundError when the database has no such object store; the
    throw happens in the promise executor, so the promise rejects. *)
Definition transaction {A} (T : StoreName A) : Task IDB (gmap string A) :=
  λ idb, let db := init idb in
         match objectStore T db with
         | Some os => (Return os, Some db)
         | None => (Throw NotFoundError, Some db)
         end.

(** Writes the object store back (requests of a readwrite transaction). *)
Definition commit {A} (T : StoreName A) (os : gmap string A) : Task IDB unit :=
  modify (λ idb, Some (setObjectStore T os (init idb))).

(** A record has expired: [x.expiresAt && Date.now() > x.expiresAt]. *)
Definition expired (now : Z) (e : option Z) : bool :=
  truthyNum e && match e with Some t => t <? now | None => false end.

(** IndexedDBManager.delete *)
Definition delete {A} (T : StoreName A) (id : string) : Task IDB unit :=
  let* os := transaction T in
  commit T (base.delete id os).

(** IndexedDBManager.store *)
Definition store {A} (T : StoreName A) (data : A) (ttlMinutes : option Z) (now : Z)
  : Task IDB unit :=
  let* os := transaction T in
  let dataWithExpiry :=
    withExpiry T now
      (if truthyNum ttlMinutes
       then Some (now + default 0 ttlMinutes * 60 * 1000)
       else None)
      data in
  commit T (<[keyOf T dataWithExpiry := dataWithExpiry]> os).

(** IndexedDBManager.get; [this.delete] of an expired record is issued
    from the success callback before the promise resolves with null. *)
Definition get {A} (T : StoreName A) (id : string) (now : Z) : Task IDB (option A) :=
  let* os := transaction T in
  match os !! id with
  | None => ret None
  | Some result =>
      if expired now (expiresAtOf T result)
      then detached (delete T id) ;;; ret None
      else ret (Some result)
  end.

(** [IDBObjectStore.getAll()]: the records of the object store in
    ascending order of their keys.  The keys are strings, compared
    character by character. *)
Definition entriesInKeyOrder {A} (os : gmap string A) : list (string * A) :=
  merge_sort (λ a b : string * A, String.leb a.1 b.1 = true)
             (H := λ a b, decide (String.leb a.1 b.1 = true)) (map_to_list os).

Definition inKeyOrder {A} (os : gmap string A) : list A :=
  (entriesInKeyOrder os).*2.

(** IndexedDBManager.getAll: [results.filter(...)], which deletes every
    item it rejects. *)
Definition getAll {A} (T : StoreName A) (now : Z) : Task IDB (list A) :=
  let* os := transaction T in
  let results := inKeyOrder os in
  for_of (filter (λ item, expired now (expiresAtOf T item) = true) results)
         (λ item, detached (delete T (keyOf T item))) ;;;
  ret (filter (λ item, expired now (expiresAtOf T item) = false) results).

(** Two records of a store are equal up to the properties that
    IndexedDBManager.store injects, [timestamp] and [expiresAt]. *)
Definition sameRecord {A} (T : StoreName A) (a b : A) : Prop :=
  withExpiry T 0 None a = withExpiry T 0 None b.

(** The [timestamp] property, and equality of two records of a store in
    every property but [timestamp] and [expiresAt], property by property. *)
Definition timestampOf {A} (T : StoreName A) : A → Z :=
  match T in StoreName A return A → Z with
  | offlineQueue => QueuedRequest.timestamp
  | _ => StoredData.timestamp
  end.

Definition sameData (a b : StoredData.t) : Prop :=
  StoredData.id a = StoredData.id b ∧ StoredData.data a = StoredData.data b.

Definition sameRequest (a b : QueuedRequest.t) : Prop :=
  QueuedRequest.id a = QueuedRequest.id b
  ∧ QueuedRequest.url a = QueuedRequest.url b
  ∧ QueuedRequest.method a = QueuedRequest.method b
  ∧ QueuedRequest.body a = QueuedRequest.body b
  ∧ QueuedRequest.headers a = QueuedRequest.headers b
  ∧ QueuedRequest.retryCount a = QueuedRequest.retryCount b
  ∧ QueuedRequest.maxRetries a = QueuedRequest.maxRetries b
  ∧ QueuedRequest.type a = QueuedRequest.type b.

Definition sameOwnFields {A} (T : StoreName A) : A → A → Prop :=
  match T in StoreName A return A → A → Prop with
  | offlineQueue => sameRequest
  | _ => sameData
  end.

(** IndexedDBManager.clear *)
Definition clear {A} (T : StoreName A) : Task IDB unit :=
  let* _ := transaction T in
  commit T ∅.

End IndexedDB.

(** ** The network *)

(** What [fetch(url, init)] sends. *)
Record HttpRequest := mkHttpRequest {
  req_url : string;
  req_method : string;
  req_headers : gmap string string;
  req_body : option string
}.

Inductive Body :=
| BodyJson (j : json)       (* JSON.stringify(j) *)
| BodyText (s : string).

Record Response := mkResponse {
  status : Z;
  statusText : string;
  resp_headers : gmap string string;
  resp_body : Body
}.

(** [response.ok] *)
Definition ok (r : Response) : bool := (200 <=? status r) && (status r <=? 299).

(** The outcome of a [fetch]: a response, or a rejection. *)
Definition Network : Type := HttpRequest → completion Response.

(** ** utils/offlineQueue (src/unnamed/part_009) *)

Module OfflineQueue.
Import IndexedDB.

(** interface RetryConfig *)
Record RetryConfig := mkRetryConfig {
  maxRetries : Z;
  baseDelay : Z;
  maxDelay : Z;
  backoffMultiplier : Z
}.

(** Partial<RetryConfig> *)
Record PartialRetryConfig := mkPartial {
  p_maxRetries : option Z;
  p_baseDelay : option Z;
  p_maxDelay : option Z;
  p_backoffMultiplier : option Z
}.

Definition defaultRetryConfig : RetryConfig := mkRetryConfig 3 1000 30000 2.

(** [{ ...this.defaultRetryConfig, ...retryConfig }] *)
Definition mergeConfig (d : RetryConfig) (retryConfig : option PartialRetryConfig)
  : RetryConfig :=
  match retryConfig with
  | None => d
  | Some p =>
      mkRetryConfig (default (maxRetries d) (p_maxRetries p))
                    (default (baseDelay d) (p_baseDelay p))
                    (default (maxDelay d) (p_maxDelay p))
                    (default (backoffMultiplier d) (p_backoffMultiplier p))
  end.

(** The [detail] of the events the manager dispatches on [window]. *)
Inductive CustomEvent :=
| offlineQueueSuccess (id : string) (type : QueuedRequest.RequestType)
    (url method : string)
| offlineQueueFailure (id : string) (type : QueuedRequest.RequestType)
    (url method : string) (retryCount : Z).

(** The console messages of the manager. *)
Inductive Log :=
| NetworkBackOnline
| NetworkOffline
| AddedRequest (id : string)
| CannotProcessWhileOffline
| Processing (n : nat)
| ErrorProcessingQueue (e : Exception)
| SuccessfullyProcessed (id : string)
| FailedToProcess (id : string) (e : Exception)
| MaxRetriesReached (id : string)
| ScheduledRetry (id : string) (delay : Z)
| ErrorInScheduledRetry (e : Exception)
| QueueCleared.

(** What a pending [setTimeout] will run. *)
Inductive Callback :=
| RetryCallback (itemId : string)     (* the closure of scheduleRetry *)
| DrainCallback.                      (* () => this.processQueue() *)

(** The manager, the browser state it works on, and what it emits. *)
Record World := mkWorld {
  idb : IDB;
  isOnline : bool;                         (* this.isOnline *)
  retryTimeouts : gmap string positive;    (* this.retryTimeouts *)
  timers : gmap positive (Callback * Z);   (* pending setTimeout: callback, delay *)
  nextTimer : positive;
  dispatched : list CustomEvent;           (* window.dispatchEvent, oldest first *)
  fetched : list HttpRequest;              (* requests sent, oldest first *)
  console : list Log                       (* oldest first *)
}.

Definition set_idb (f : IDB → IDB) (w : World) : World :=
  mkWorld (f (idb w)) (isOnline w) (retryTimeouts w) (timers w) (nextTimer w)
          (dispatched w) (fetched w) (console w).
Definition set_isOnline (b : bool) (w : World) : World :=
  mkWorld (idb w) b (retryTimeouts w) (timers w) (nextTimer w)
          (dispatched w) (fetched w) (console w).
Definition set_retryTimeouts (f : gmap string positive → gmap string positive)
  (w : World) : World :=
  mkWorld (idb w) (isOnline w) (f (retryTimeouts w)) (timers w) (nextTimer w)
          (dispatched w) (fetched w) (console w).
Definition set_timers (f : gmap positive (Callback * Z) → gmap positive (Callback * Z))
  (w : World) : World :=
  mkWorld (idb w) (isOnline w) (retryTimeouts w) (f (timers w)) (nextTimer w)
          (dispatched w) (fetched w) (console w).

(** An [indexedDBManager] call, run on the [idb] component. *)
Definition db {A} (m : Task IDB A) : Task World A :=
  λ w, let '(r, i) := m (idb w) in (r, set_idb (λ _, i) w).

Definition log (l : Log) : Task World unit :=
  modify (λ w, mkWorld (idb w) (isOnline w) (retryTimeouts w) (timers w) (nextTimer w)
                       (dispatched w) (fetched w) (console w ++ [l])).

Definition dispatchEvent (e : CustomEvent) : Task World unit :=
  modify (λ w, mkWorld (idb w) (isOnline w) (retryTimeouts w) (timers w) (nextTimer w)
                       (dispatched w ++ [e]) (fetched w) (console w)).

(** [fetch(url, init)] answered by the network [net]. *)
Definition fetch (net : Network) (rq : HttpRequest) : Task World Response :=
  λ w, (net rq,
        mkWorld (idb w) (isOnline w) (retryTimeouts w) (timers w) (nextTimer w)
                (dispatched w) (fetched w ++ [rq]) (console w)).

(** [setTimeout(cb, delay)] returns a fresh, non-zero handle. *)
Definition setTimeout (cb : Callback) (delay : Z) : Task World positive :=
  λ w, (Return (nextTimer w),
        mkWorld (idb w) (isOnline w) (retryTimeouts w)
                (<[nextTimer w := (cb, delay)]> (timers w)) (Pos.succ (nextTimer w))
                (dispatched w) (fetched w) (console w)).

Definition clearTimeout (h : positive) : Task World unit :=
  modify (set_timers (base.delete h)).

(** The id of a new item: [`${Date.now()}-${Math.random().toString(36).substr(2, 9)}`],
    with the random suffix given. *)
Definition newId (now : Z) (random : string) : string :=
  pretty now +:+ "-" +:+ random.

(** calculateRetryDelay; [Math.pow] is exact on the integers the manager
    passes ([retryCount >= 1]). *)
Definition calculateRetryDelay (retryCount : Z) : Z :=
  let delay := baseDelay defaultRetryConfig
               * backoffMultiplier defaultRetryConfig ^ (retryCount - 1) in
  Z.min delay (maxDelay defaultRetryConfig).

(** removeFromQueue *)
Definition removeFromQueue (itemId : string) : Task World unit :=
  db (delete offlineQueue itemId) ;;;
  let* timeout := gets (λ w, retryTimeouts w !! itemId) in
  match timeout with
  | Some h => clearTimeout h ;;; modify (set_retryTimeouts (base.delete itemId))
  | None => ret tt
  end.

(** notifySuccess *)
Definition notifySuccess (item : QueuedRequest.t) : Task World unit :=
  dispatchEvent (offlineQueueSuccess (QueuedRequest.id item) (QueuedRequest.type item)
                   (QueuedRequest.url item) (QueuedRequest.method item)).

(** notifyFailure *)
Definition notifyFailure (item : QueuedRequest.t) : Task World unit :=
  dispatchEvent (offlineQueueFailure (QueuedRequest.id item) (QueuedRequest.type item)
                   (QueuedRequest.url item) (QueuedRequest.method item)
                   (QueuedRequest.retryCount item)).

(** The [RequestInit] of executeRequest, with the url it is sent to. *)
Definition requestInit (item : QueuedRequest.t) : HttpRequest :=
  mkHttpRequest
    (QueuedRequest.url item)
    (QueuedRequest.method item)
    (* { 'Content-Type': 'application/json', ...item.headers } *)
    (QueuedRequest.headers item ∪ {[ "Content-Type" := "application/json" ]})
    (if truthyStr (QueuedRequest.body item)
        && negb (String.eqb (QueuedRequest.method item) "GET")
     then QueuedRequest.body item
     else None).

(** executeRequest *)
Definition executeRequest (net : Network) (item : QueuedRequest.t) : Task World Response :=
  fetch net (requestInit item).

(** scheduleRetry (the callback is [RetryCallback itemId], see [retryCallback]) *)
Definition scheduleRetry (itemId : string) (delay : Z) : Task World unit :=
  let* existingTimeout := gets (λ w, retryTimeouts w !! itemId) in
  match existingTimeout with
  | Some h => clearTimeout h
  | None => ret tt
  end ;;;
  let* timeout := setTimeout (RetryCallback itemId) delay in
  modify (set_retryTimeouts <[itemId := timeout]>) ;;;
  log (ScheduledRetry itemId delay).

(** [item.retryCount += 1] *)
Definition incrementRetryCount (item : QueuedRequest.t) : QueuedRequest.t :=
  QueuedRequest.mk (QueuedRequest.id item) (QueuedRequest.url item)
    (QueuedRequest.method item) (QueuedRequest.body item) (QueuedRequest.headers item)
    (QueuedRequest.timestamp item) (QueuedRequest.retryCount item + 1)
    (QueuedRequest.maxRetries item) (QueuedRequest.type item)
    (QueuedRequest.expiresAt item).

(** [item.maxRetries || this.defaultRetryConfig.maxRetries] *)
Definition effectiveMaxRetries (item : QueuedRequest.t) : Z :=
  if truthyNum (QueuedRequest.maxRetries item)
  then default 0 (QueuedRequest.maxRetries item)
  else maxRetries defaultRetryConfig.

(** handleRetry *)
Definition handleRetry (now : Z) (item : QueuedRequest.t) : Task World unit :=
  let maxRetries := effectiveMaxRetries item in
  if maxRetries <=? QueuedRequest.retryCount item
  then
    log (MaxRetriesReached (QueuedRequest.id item)) ;;;
    removeFromQueue (QueuedRequest.id item) ;;;
    notifyFailure item
  else
    let item := incrementRetryCount item in
    db (store offlineQueue item None now) ;;;
    let delay := calculateRetryDelay (QueuedRequest.retryCount item) in
    scheduleRetry (QueuedRequest.id item) delay.

(** [`HTTP ${response.status}: ${response.statusText}`] *)
Definition httpError (r : Response) : Exception :=
  Error ("HTTP " +:+ pretty (status r) +:+ ": " +:+ statusText r).

(** processQueueItem *)
Definition processQueueItem (net : Network) (now : Z) (item : QueuedRequest.t)
  : Task World unit :=
  try_catch
    (let* response := executeRequest net item in
     if ok response
     then
       log (SuccessfullyProcessed (QueuedRequest.id item)) ;;;
       removeFromQueue (QueuedRequest.id item) ;;;
       notifySuccess item
     else throw (httpError response))
    (λ error,
       log (FailedToProcess (QueuedRequest.id item) error) ;;;
       handleRetry now item).

(** processQueue *)
Definition processQueue (net : Network) (now : Z) : Task World unit :=
  let* online := gets isOnline in
  if negb online
  then log CannotProcessWhileOffline
  else
    try_catch
      (let* queueItems := db (getAll offlineQueue now) in
       log (Processing (length queueItems)) ;;;
       for_of queueItems (processQueueItem net now))
      (λ error, log (ErrorProcessingQueue error)).

(** addToQueue; [body] is [None] when the argument is omitted, and
    [stringify] stands for [JSON.stringify]. *)
Definition addToQueue (stringify : json → string)
    (url method : string) (body : option json) (headers : option (gmap string string))
    (type : option QueuedRequest.RequestType) (retryConfig : option PartialRetryConfig)
    (now : Z) (random : string) : Task World string :=
  let config := mergeConfig defaultRetryConfig retryConfig in
  let queueItem :=
    QueuedRequest.mk
      (newId now random)
      url
      method
      (match body with
       | Some b => if truthy b then Some (stringify b) else None
       | None => None
       end)
      (default ∅ headers)
      now
      0
      (Some (maxRetries config))
      (default QueuedRequest.general type)
      None in
  db (store offlineQueue queueItem None now) ;;;
  log (AddedRequest (QueuedRequest.id queueItem)) ;;;
  let* online := gets isOnline in
  (if online then scheduleRetry (QueuedRequest.id queueItem) 0 else ret tt) ;;;
  ret (QueuedRequest.id queueItem).

(** The closure passed to [setTimeout] in scheduleRetry. *)
Definition retryCallback (net : Network) (now : Z) (itemId : string) : Task World unit :=
  try_finally
    (try_catch
       (let* item := db (get offlineQueue itemId now) in
        match item with
        | Some item => processQueueItem net now item
        | None => ret tt
        end)
       (λ error, log (ErrorInScheduledRetry error)))
    (modify (set_retryTimeouts (base.delete itemId))).

(** A pending timer fires: it leaves the timer table and its callback runs. *)
Definition timerFires (net : Network) (now : Z) (h : positive) : Task World unit :=
  let* pending := gets (λ w, timers w !! h) in
  match pending with
  | None => ret tt
  | Some (cb, _) =>
      clearTimeout h ;;;
      match cb with
      | RetryCallback itemId => retryCallback net now itemId
      | DrainCallback => processQueue net now
      end
  end.

(** setupNetworkListeners: the [online] and the [offline] listener. *)
Definition onOnline (net : Network) (now : Z) : Task World unit :=
  log NetworkBackOnline ;;;
  modify (set_isOnline true) ;;;
  processQueue net now.

Definition onOffline : Task World unit :=
  log NetworkOffline ;;;
  modify (set_isOnline false).

(** initializeRetryProcess *)
Definition initializeRetryProcess : Task World unit :=
  let* online := gets isOnline in
  if online then setTimeout DrainCallback 1000 ;;; ret tt else ret tt.

(** [new OfflineQueueManager()] in a browser whose [navigator.onLine] is
    [onLine] and whose database is [i]. *)
Definition newManager (onLine : bool) (i : IDB) : World :=
  (initializeRetryProcess (mkWorld i onLine ∅ ∅ 1%positive [] [] [])).2.

Definition typeName (t : QueuedRequest.RequestType) : string :=
  match t with
  | QueuedRequest.donations => "donations"
  | QueuedRequest.registrations => "registrations"
  | QueuedRequest.announcements => "announcements"
  | QueuedRequest.general => "general"
  end.

Record QueueStatus := mkQueueStatus {
  total : nat;
  byType : gmap string nat;
  items : list QueuedRequest.t
}.

(** getQueueStatus *)
Definition getQueueStatus (now : Z) : Task World QueueStatus :=
  let* items := db (getAll offlineQueue now) in
  let byType :=
    foldl (λ acc item,
             let k := typeName (QueuedRequest.type item) in
             <[k := (default 0%nat (acc !! k) + 1)%nat]> acc)
          ∅ items in
  ret (mkQueueStatus (length items) byType items).

(** clearQueue: [forEach(clearTimeout)] over the tracked handles. *)
Definition clearQueue : Task World unit :=
  let* handles := gets (λ w, (map_to_list (retryTimeouts w)).*2) in
  for_of handles clearTimeout ;;;
  modify (set_retryTimeouts (λ _, ∅)) ;;;
  db (clear offlineQueue) ;;;
  log QueueCleared.

(** removeQueueItem *)
Definition removeQueueItem (itemId : string) : Task World unit :=
  removeFromQueue itemId.

(** retryItem *)
Definition retryItem (net : Network) (now : Z) (itemId : string) : Task World unit :=
  let* item := db (get offlineQueue itemId now) in
  let* online := gets isOnline in
  match item with
  | Some item => if online then processQueueItem net now item else ret tt
  | None => ret tt
  end.

(** *** Vocabulary of the properties *)

(** The backoff formula in the words of the specification: the base delay
    multiplied [retryCount - 1] times by the multiplier, capped at the
    maximal delay. *)
Fixpoint multiplied (base multiplier : Z) (times : nat) : Z :=
  match times with
  | O => base
  | S k => multiplied base multiplier k * multiplier
  end.

Definition backoffDelay (c : RetryConfig) (retryCount : Z) : Z :=
  Z.min (multiplied (baseDelay c) (backoffMultiplier c) (Z.to_nat (retryCount - 1)))
        (maxDelay c).

(** The content of the offlineQueue collection. *)
Definition queueOf (w : World) : gmap string QueuedRequest.t :=
  default ∅ (objectStore offlineQueue (init (idb w))).

(** The database of [w] has the offlineQueue collection, with content [os]. *)
Definition hasQueue (w : World) (os : gmap string QueuedRequest.t) : Prop :=
  objectStore offlineQueue (init (idb w)) = Some os.

(** What handleRetry does to the content of the queue, and the events it
    dispatches. *)
Definition retried (now : Z) (item : QueuedRequest.t) (os : gmap string QueuedRequest.t)
  : gmap string QueuedRequest.t * list CustomEvent :=
  if effectiveMaxRetries item <=? QueuedRequest.retryCount item
  then (base.delete (QueuedRequest.id item) os,
        [offlineQueueFailure (QueuedRequest.id item) (QueuedRequest.type item)
           (QueuedRequest.url item) (QueuedRequest.method item)
           (QueuedRequest.retryCount item)])
  else (<[QueuedRequest.id item := stampQueued now None (incrementRetryCount item)]> os,
        []).

(** What one replay attempt (processQueueItem) does to the content of the
    queue, and the events it dispatches. *)
Definition attempted (net : Network) (now : Z) (item : QueuedRequest.t)
    (os : gmap string QueuedRequest.t)
  : gmap string QueuedRequest.t * list CustomEvent :=
  match net (requestInit item) with
  | Return response =>
      if ok response
      then (base.delete (QueuedRequest.id item) os,
            [offlineQueueSuccess (QueuedRequest.id item) (QueuedRequest.type item)
               (QueuedRequest.url item) (QueuedRequest.method item)])
      else retried now item os
  | Throw _ => retried now item os
  end.

(** The attempts of a drain, one item after the other. *)
Fixpoint drained (net : Network) (now : Z) (items : list QueuedRequest.t)
    (os : gmap string QueuedRequest.t)
  : gmap string QueuedRequest.t * list CustomEvent :=
  match items with
  | [] => (os, [])
  | item :: rest =>
      let '(os1, evs1) := attempted net now item os in
      let '(os2, evs2) := drained net now rest os1 in
      (os2, evs1 ++ evs2)
  end.

(** The entry points of the manager: its public methods, its two
    listeners, and the firing of a timer it has set. *)
Inductive Op :=
| AddToQueue (url method : string) (body : option json)
    (headers : option (gmap string string)) (type : option QueuedRequest.RequestType)
    (retryConfig : option PartialRetryConfig) (random : string)
| ProcessQueue
| RetryItem (itemId : string)
| RemoveQueueItem (itemId : string)
| ClearQueue
| GetQueueStatus
| TimerFires (h : positive)
| Online
| Offline.

Definition run (stringify : json → string) (net : Network) (now : Z) (op : Op)
  : World → World :=
  λ w, match op with
       | AddToQueue url method body headers type retryConfig random =>
           (addToQueue stringify url method body headers type retryConfig now random w).2
       | ProcessQueue => (processQueue net now w).2
       | RetryItem itemId => (retryItem net now itemId w).2
       | RemoveQueueItem itemId => (removeQueueItem itemId w).2
       | ClearQueue => (clearQueue w).2
       | GetQueueStatus => (getQueueStatus now w).2
       | TimerFires h => (timerFires net now h w).2
       | Online => (onOnline net now w).2
       | Offline => (onOffline w).2
       end.

(** None of the records carries an expiry, and each lies under its own id. *)
Definition clean (os : gmap string QueuedRequest.t) : Prop :=
  ∀ k q, os !! k = Some q →
         QueuedRequest.expiresAt q = None ∧ QueuedRequest.id q = k.

(** The queue exists and is clean. *)
Definition noTTL (w : World) : Prop :=
  is_Some (objectStore offlineQueue (init (idb w))) ∧ clean (queueOf w).

(** Among the events [evs], a success (a failure) notification for item [k]. *)
Definition replayed (k : string) (evs : list CustomEvent) : Prop :=
  ∃ t u m, offlineQueueSuccess k t u m ∈ evs.
Definition exhausted (k : string) (evs : list CustomEvent) : Prop :=
  ∃ t u m n, offlineQueueFailure k t u m n ∈ evs.

(** The ways in which item [k] may leave the queue during [op]. *)
Definition leftBy (op : Op) (k : string) (evs : list CustomEvent) : Prop :=
  replayed k evs ∨ exhausted k evs ∨ op = RemoveQueueItem k ∨ op = ClearQueue.

End OfflineQueue.

(** ** The service worker, /sw.js (src/unnamed/part_005) *)

Module ServiceWorker.
Import IndexedDB.

(** The [Request] of a fetch event.  [pathname] is
    [new URL(request.url).pathname]; [body] is the text of the body, [None]
    for a request without body. *)
Record Request := mkRequest {
  url : string;
  pathname : string;
  method : string;
  headers : gmap string string;
  body : option string;
  mode : string
}.

Definition hasBody (request : Request) : bool :=
  match body request with Some _ => true | None => false end.

(** [fetch(request)] as the network answers it. *)
Definition Net : Type := Request → completion Response.

(** CacheStorage: the caches in creation order, each keyed by request url. *)
Abbreviation CacheStorage := (list (string * gmap string Response)).

(** The state the worker acts on while it handles one fetch event.
    [bodyUsed] is [request.bodyUsed] of the request of the event: false
    when the event arrives, true once the body has been handed to a
    fetch. *)
Record SW := mkSW {
  idb : IDB;
  caches : CacheStorage;
  attempts : list Request;       (* requests passed to fetch, oldest first *)
  bodyUsed : bool
}.

Definition API_CACHE_NAME : string := "masjeed-api-v1".
Definition STATIC_ASSETS : list string :=
  ["/"; "/index.html"; "/manifest.json"; "/offline.html"].

(** String.prototype.startsWith / includes / endsWith *)
Definition startsWith (s pre : string) : bool := String.prefix pre s.
Fixpoint includes (s sub : string) : bool :=
  String.prefix sub s ||
  match s with
  | EmptyString => false
  | String _ rest => includes rest sub
  end.
Definition endsWith (s suf : string) : bool :=
  String.prefix (String.rev suf) (String.rev s).

(** [fetch(request)].  The body of a Request passed to fetch is handed over
    to the new request when the call is made, whatever the outcome:
    afterwards [request.bodyUsed] is true.  A request whose body has been
    used cannot be fetched again. *)
Definition fetch (net : Net) (request : Request) : Task SW Response :=
  λ s, if bodyUsed s && hasBody request
       then (Throw (TypeError "Request body is already used"), s)
       else (net request,
             mkSW (idb s) (caches s) (attempts s ++ [request])
                  (bodyUsed s || hasBody request)).

(** [caches.open(name)]: the cache is created when it is missing. *)
Definition caches_open (name : string) : Task SW unit :=
  modify (λ s, mkSW (idb s)
                    (if bool_decide (name ∈ (caches s).*1) then caches s
                     else caches s ++ [(name, ∅)])
                    (attempts s) (bodyUsed s)).

(** [cache.put(request, response)] on the cache [name]; only GET requests
    can be stored. *)
Definition cache_put (name : string) (request : Request) (response : Response)
  : Task SW unit :=
  if String.eqb (method request) "GET"
  then modify (λ s, mkSW (idb s)
                         (map (λ c : string * gmap string Response,
                                 if String.eqb c.1 name
                                 then (c.1, <[url request := response]> c.2)
                                 else c)
                              (caches s))
                         (attempts s) (bodyUsed s))
  else throw (TypeError "Request method is unsupported").

(** [caches.match(request)]: the first cache, in creation order, that has
    an entry for the request. *)
Definition caches_match (request : Request) : Task SW (option Response) :=
  gets (λ s, if String.eqb (method request) "GET"
             then head (omap (λ c : string * gmap string Response, c.2 !! url request)
                             (caches s))
             else None).

(** openIndexedDB: its own [onupgradeneeded] handler. *)
Definition onupgradeneeded (db : Database) : Database :=
  createIfMissing announcements
    (createIfMissing events
      (createIfMissing prayerTimes
        (createIfMissing offlineQueue db))).

Definition openIndexedDB : Task SW Database :=
  λ s, let db := open onupgradeneeded (idb s) in
       (Return db, mkSW (Some db) (caches s) (attempts s) (bodyUsed s)).

Definition setDatabase (db : Database) : Task SW unit :=
  modify (λ s, mkSW (Some db) (caches s) (attempts s) (bodyUsed s)).

(** getRequestType *)
Definition getRequestType (pathname : string) : QueuedRequest.RequestType :=
  if includes pathname "/donations" then QueuedRequest.donations
  else if includes pathname "/events" && includes pathname "/register"
       then QueuedRequest.registrations
  else if includes pathname "/announcements" then QueuedRequest.announcements
  else QueuedRequest.general.

(** The [storeName] chosen by storeApiDataInIndexedDB and
    getApiDataFromIndexedDB; [None] is the name 'general', for which no
    upgrade handler creates an object store. *)
Definition storeNameFor (pathname : string) : option (StoreName StoredData.t) :=
  if includes pathname "/prayers" then Some prayerTimes
  else if includes pathname "/events" then Some events
  else if includes pathname "/announcements" then Some announcements
  else None.

(** storeApiDataInIndexedDB (the catch clause only logs) *)
Definition storeApiDataInIndexedDB (pathname : string) (data : json) (now : Z)
  : Task SW unit :=
  let* db := openIndexedDB in
  match storeNameFor pathname with
  | Some T =>
      match objectStore T db with
      | Some os =>
          let storeData := StoredData.mk "current" data now (Some (now + 60 * 60 * 1000)) in
          setDatabase (setObjectStore T (<["current" := storeData]> os) db)
      | None => ret tt
      end
  | None => ret tt
  end.

(** getApiDataFromIndexedDB (the catch clause returns null) *)
Definition getApiDataFromIndexedDB (pathname : string) (now : Z)
  : Task SW (option StoredData.t) :=
  let* db := openIndexedDB in
  match storeNameFor pathname with
  | Some T =>
      match objectStore T db with
      | None => ret None
      | Some os =>
          match os !! "current" with
          | None => ret None
          | Some result =>
              if expired now (StoredData.expiresAt result) then ret None
              else ret (Some result)
          end
      end
  | None => ret None
  end.

Definition jsonHeaders : gmap string string :=
  {[ "Content-Type" := "application/json" ]}.

(** [new Response(JSON.stringify(j), { status, headers })] *)
Definition jsonResponse (st : Z) (hs : gmap string string) (j : json) : Response :=
  mkResponse st "" hs (BodyJson j).

(** getOfflineResponse *)
Definition getOfflineResponse (pathname : string) : Response :=
  if startsWith pathname "/api/auth/" then
    jsonResponse 503 jsonHeaders
      (JObj [("success", JBool false);
             ("error", JStr "Authentication service unavailable")])
  else if includes pathname "/prayers" then
    jsonResponse 503 jsonHeaders
      (JObj [("success", JBool false);
             ("error", JStr "Prayer times not available offline");
             ("offline", JBool true);
             ("data", JNull)])
  else if includes pathname "/events" then
    jsonResponse 503 jsonHeaders
      (JObj [("success", JBool false);
             ("error", JStr "Events not available offline");
             ("offline", JBool true);
             ("data", JArr [])])
  else if includes pathname "/announcements" then
    jsonResponse 503 jsonHeaders
      (JObj [("success", JBool false);
             ("error", JStr "Announcements not available offline");
             ("offline", JBool true);
             ("data", JArr [])])
  else
    jsonResponse 503 jsonHeaders
      (JObj [("success", JBool false);
             ("error", JStr "API not available offline");
             ("offline", JBool true)]).

(** The argument of addToOfflineQueue. *)
Record QueueData := mkQueueData {
  d_type : QueuedRequest.RequestType;
  d_url : string;
  d_method : string;
  d_body : option string;
  d_headers : gmap string string
}.

(** [{ id, ...data, timestamp: Date.now(), retryCount: 0 }] *)
Definition queueItem (data : QueueData) (now : Z) (random : string) : QueuedRequest.t :=
  QueuedRequest.mk (OfflineQueue.newId now random) (d_url data) (d_method data)
    (d_body data) (d_headers data) now 0 None (d_type data) None.

(** addToOfflineQueue.  Opening the database and the transaction are
    inside the try block, whose catch clause logs and yields undefined;
    the promise of [store.add] is returned without await, so its
    rejection (the key exists) is not caught there. *)
Definition addToOfflineQueue (data : QueueData) (now : Z) (random : string)
  : Task SW (option string) :=
  let* prepared :=
    try_catch
      (let* db := openIndexedDB in
       match objectStore offlineQueue db with
       | Some os => ret (Some (db, os))
       | None => throw NotFoundError
       end)
      (λ _, ret None) in
  match prepared with
  | None => ret None
  | Some (db, os) =>
      let item := queueItem data now random in
      match os !! QueuedRequest.id item with
      | Some _ => throw ConstraintError
      | None =>
          setDatabase (setObjectStore offlineQueue (<[QueuedRequest.id item := item]> os) db) ;;;
          ret (Some (QueuedRequest.id item))
      end
  end.

(** The response of the write branch after queueing. *)
Definition queuedResponse : Response :=
  jsonResponse 202 jsonHeaders
    (JObj [("success", JBool false);
           ("error", JStr "Request queued for when back online");
           ("offline", JBool true);
           ("queued", JBool true)]).

Definition isWriteOperation (request : Request) : bool :=
  bool_decide (method request ∈ ["POST"; "PUT"; "PATCH"; "DELETE"]).

Definition isAuthEndpoint (request : Request) : bool :=
  startsWith (pathname request) "/api/auth/".

(** [networkResponse.clone().json()] *)
Definition responseJson (r : Response) : Task SW json :=
  match resp_body r with
  | BodyJson j => ret j
  | BodyText _ => throw SyntaxError
  end.

(** [response.headers.set(name, value)] on the clone of a response that a
    cache has returned: the headers of such a response are immutable, and
    so are those of its clone, so [set] throws. *)
Definition setHeaderOfCached (name value : string) (r : Response) : Task SW Response :=
  throw (TypeError "Headers are immutable").

(** [await request.clone().text()]: [clone] throws on a request whose body
    has been used; the text of a request without body is empty. *)
Definition requestText (request : Request) : Task SW string :=
  λ s, if bodyUsed s && hasBody request
       then (Throw (TypeError "Request body is already used"), s)
       else (Return (default "" (body request)), s).

(** handleApiRequest *)
Definition handleApiRequest (net : Net) (now : Z) (random : string) (request : Request)
  : Task SW Response :=
  if isAuthEndpoint request then
    try_catch (fetch net request) (λ error, throw error)
  else if isWriteOperation request then
    try_catch
      (let* networkResponse := fetch net request in
       if ok networkResponse then ret networkResponse
       else throw (Error "Network response not ok"))
      (λ error,
         let* requestBody :=
           if negb (String.eqb (method request) "DELETE")
           then let* t := requestText request in ret (Some t)
           else ret None in
         addToOfflineQueue
           (mkQueueData (getRequestType (pathname request)) (url request)
                        (method request) requestBody (headers request))
           now random ;;;
         ret queuedResponse)
  else
    try_catch
      (let* networkResponse := fetch net request in
       if ok networkResponse then
         caches_open API_CACHE_NAME ;;;
         detached (cache_put API_CACHE_NAME request networkResponse) ;;;
         let* responseData := responseJson networkResponse in
         storeApiDataInIndexedDB (pathname request) responseData now ;;;
         ret networkResponse
       else throw (Error "Network response not ok"))
      (λ error,
         let* cachedResponse := caches_match request in
         match cachedResponse with
         | Some cached => setHeaderOfCached "X-From-Cache" "true" cached
         | None =>
             let* indexedDBData := getApiDataFromIndexedDB (pathname request) now in
             match indexedDBData with
             | Some d =>
                 ret (jsonResponse 200
                        (<["X-From-IndexedDB" := "true"]> jsonHeaders)
                        (StoredData.data d))
             | None => ret (getOfflineResponse (pathname request))
             end
         end).

(** The response the fetch listener substitutes when handleApiRequest
    rejects on an auth endpoint. *)
Definition authUnavailable : Response :=
  jsonResponse 503 jsonHeaders
    (JObj [("success", JBool false);
           ("error", JStr "Authentication service unavailable");
           ("offline", JBool false)]).

(** How the fetch listener answers an event. *)
Inductive Handling :=
| RespondWith (answer : Task SW Response)   (* event.respondWith(answer) *)
| NotHandled                                (* return without respondWith *)
| StaticAssets                              (* respondWith(handleStaticAssets(request)) *)
| Navigation                                (* respondWith(handleNavigation(request)) *)
| OtherRequests.                            (* respondWith(handleOtherRequests(request)) *)

(** The fetch listener.  The handlers of the three non-API routes are
    named, not embedded. *)
Definition onFetch (net : Net) (now : Z) (random : string) (request : Request)
  : Handling :=
  if startsWith (pathname request) "/api/" then
    RespondWith
      (try_catch (handleApiRequest net now random request)
         (λ error,
            if startsWith (pathname request) "/api/auth/"
            then ret authUnavailable
            else throw error))
  else if negb (String.eqb (method request) "GET") then NotHandled
  else if existsb (λ asset, String.eqb (pathname request) asset
                            || endsWith (pathname request) asset) STATIC_ASSETS
       then StaticAssets
  else if String.eqb (mode request) "navigate" then Navigation
  else OtherRequests.

(** What a page observes of a JSON response: the value of a top-level
    property of its body. *)
Definition bodyProp (name : string) (r : Response) : option json :=
  match resp_body r with
  | BodyJson (JObj props) => snd <$> List.find (λ p, String.eqb p.1 name) props
  | _ => None
  end.

End ServiceWorker.

(** ** store/authStore and the listeners of App (src/App.tsx) *)

Module AuthStore.

(** interface OfflineState *)
Record OfflineState := mkOffline {
  isOnline : bool;
  queuedRequests : nat;
  lastSyncTime : option Z;
  syncInProgress : bool
}.

(** The page: the singleton [offlineQueueManager] with the browser state
    it acts on, and the [offline] slice of the store. *)
Record Page := mkPage {
  manager : OfflineQueue.World;
  offline : OfflineState
}.

Definition queue {A} (m : Task OfflineQueue.World A) : Task Page A :=
  λ p, let '(r, w) := m (manager p) in (r, mkPage w (offline p)).

Definition set_offline (f : OfflineState → OfflineState) : Task Page unit :=
  modify (λ p, mkPage (manager p) (f (offline p))).

(** updateQueuedRequests (the catch clause logs) *)
Definition updateQueuedRequests (now : Z) : Task Page unit :=
  try_catch
    (let* status := queue (OfflineQueue.getQueueStatus now) in
     set_offline (λ o, mkOffline (isOnline o) (OfflineQueue.total status)
                                 (lastSyncTime o) (syncInProgress o)))
    (λ _, ret tt).

(** syncOfflineData *)
Definition syncOfflineData (net : Network) (now : Z) : Task Page unit :=
  let* offline := gets offline in
  if negb (isOnline offline) || syncInProgress offline
  then ret tt
  else
    try_catch
      (set_offline (λ o, mkOffline (isOnline o) (queuedRequests o) (lastSyncTime o) true) ;;;
       queue (OfflineQueue.processQueue net now) ;;;
       updateQueuedRequests now ;;;
       set_offline (λ o, mkOffline (isOnline o) (queuedRequests o) (Some now) false))
      (λ _,
         set_offline (λ o, mkOffline (isOnline o) (queuedRequests o) (lastSyncTime o) false)).

(** setOnlineStatus *)
Definition setOnlineStatus (net : Network) (now : Z) (online : bool) : Task Page unit :=
  set_offline (λ o, mkOffline online (queuedRequests o) (lastSyncTime o) (syncInProgress o)) ;;;
  if online then detached (syncOfflineData net now) else ret tt.

(** handleOffline of App.tsx *)
Definition handleOffline (net : Network) (now : Z) : Task Page unit :=
  setOnlineStatus net now false.

(** The [offline] event on [window]: the listener of the queue manager
    (registered when the module is loaded), then the listener of App. *)
Definition windowOffline (net : Network) (now : Z) : Task Page unit :=
  detached (queue OfflineQueue.onOffline) ;;;
  detached (handleOffline net now).

(** Drains started so far: each passes the offline test of processQueue
    and logs how many requests it is about to process. *)
Definition isProcessing (l : OfflineQueue.Log) : bool :=
  match l with OfflineQueue.Processing _ => true | _ => false end.

Definition drainsStarted (p : Page) : nat :=
  length (List.filter isProcessing (OfflineQueue.console (manager p))).

End AuthStore.

(** ** The [online] event: the listeners and the functions they start *)

Module Interleaved.
Import IndexedDB EventLoop.

Section Manager.
(** [manager m]: the call [m] of the queue manager, on the state [S] of
    the page the manager lives in. *)
Context {S : Type} (manager : ∀ A, Task OfflineQueue.World A → Task S A).

(** [fetch(url, init)] sends the request when it is called ... *)
Definition sends (rq : HttpRequest) : Task OfflineQueue.World unit :=
  modify (λ w, OfflineQueue.mkWorld
                 (OfflineQueue.idb w) (OfflineQueue.isOnline w)
                 (OfflineQueue.retryTimeouts w) (OfflineQueue.timers w)
                 (OfflineQueue.nextTimer w) (OfflineQueue.dispatched w)
                 (OfflineQueue.fetched w ++ [rq]) (OfflineQueue.console w)).

(** ... and the promise it returned settles with the answer of the network. *)
Definition answers (net : Network) (rq : HttpRequest) : Task OfflineQueue.World Response :=
  λ w, (net rq, w).

(** removeFromQueue *)
Definition removeFromQueue (itemId : string) (k : completion unit → Async S) : Async S :=
  await (manager _ (OfflineQueue.db (delete offlineQueue itemId)))
    (λ r, match r with
          | Throw e => k (Throw e)
          | Return _ =>
              exec (manager _
                      (let* timeout := gets (λ w, OfflineQueue.retryTimeouts w !! itemId) in
                       match timeout with
                       | Some h =>
                           OfflineQueue.clearTimeout h ;;;
                           modify (OfflineQueue.set_retryTimeouts (base.delete itemId))
                       | None => ret tt
                       end))
                   (k (Return tt))
          end).

(** handleRetry *)
Definition handleRetry (now : Z) (item : QueuedRequest.t) (k : completion unit → Async S)
  : Async S :=
  let maxRetries := OfflineQueue.effectiveMaxRetries item in
  if maxRetries <=? QueuedRequest.retryCount item
  then
    exec (manager _ (OfflineQueue.log (OfflineQueue.MaxRetriesReached (QueuedRequest.id item))))
      (removeFromQueue (QueuedRequest.id item)
         (λ r, match r with
               | Throw e => k (Throw e)
               | Return _ => exec (manager _ (OfflineQueue.notifyFailure item)) (k (Return tt))
               end))
  else
    let item := OfflineQueue.incrementRetryCount item in
    await (manager _ (OfflineQueue.db (store offlineQueue item None now)))
      (λ r, match r with
            | Throw e => k (Throw e)
            | Return _ =>
                let delay := OfflineQueue.calculateRetryDelay (QueuedRequest.retryCount item) in
                exec (manager _ (OfflineQueue.scheduleRetry (QueuedRequest.id item) delay))
                     (k (Return tt))
            end).

(** processQueueItem, with executeRequest *)
Definition processQueueItem (net : Network) (now : Z) (item : QueuedRequest.t)
    (k : completion unit → Async S) : Async S :=
  let catch error :=
    exec (manager _ (OfflineQueue.log (OfflineQueue.FailedToProcess (QueuedRequest.id item) error)))
         (handleRetry now item k) in
  exec (manager _ (sends (OfflineQueue.requestInit item)))
    (await (manager _ (answers net (OfflineQueue.requestInit item)))
       (λ r, match r with
             | Throw error => catch error
             | Return response =>
                 if ok response
                 then
                   exec (manager _ (OfflineQueue.log
                                    (OfflineQueue.SuccessfullyProcessed (QueuedRequest.id item))))
                     (removeFromQueue (QueuedRequest.id item)
                        (λ r, match r with
                              | Throw error => catch error
                              | Return _ =>
                                  exec (manager _ (OfflineQueue.notifySuccess item))
                                       (k (Return tt))
                              end))
                 else catch (OfflineQueue.httpError response)
             end)).

(** processQueue; [k] is what the caller does when the promise resolves. *)
Definition processQueue (net : Network) (now : Z) (k : Async S) : Async S :=
  read (λ s, (manager _ (gets OfflineQueue.isOnline) s).1)
    (λ online,
       match online with
       | Return true =>
           let catch error :=
             exec (manager _ (OfflineQueue.log (OfflineQueue.ErrorProcessingQueue error))) k in
           await (manager _ (OfflineQueue.db (getAll offlineQueue now)))
             (λ r, match r with
                   | Throw error => catch error
                   | Return queueItems =>
                       exec (manager _ (OfflineQueue.log
                                        (OfflineQueue.Processing (length queueItems))))
                         (forOf queueItems (processQueueItem net now)
                            (λ r, match r with
                                  | Throw error => catch error
                                  | Return _ => k
                                  end))
                   end)
       | _ =>
           exec (manager _ (OfflineQueue.log OfflineQueue.CannotProcessWhileOffline)) k
       end).

(** The [online] listener of setupNetworkListeners: processQueue is not
    awaited. *)
Definition onOnline (net : Network) (now : Z) : Async S :=
  exec (manager _ (OfflineQueue.log OfflineQueue.NetworkBackOnline))
    (exec (manager _ (modify (OfflineQueue.set_isOnline true)))
       (unawaited (processQueue net now finished) finished)).

End Manager.

Import AuthStore.

(** updateQueuedRequests (the catch clause logs) *)
Definition updateQueuedRequests (now : Z) (k : Async Page) : Async Page :=
  await (queue (OfflineQueue.getQueueStatus now))
    (λ r, match r with
          | Return status =>
              exec (set_offline (λ o, mkOffline (isOnline o) (OfflineQueue.total status)
                                                (lastSyncTime o) (syncInProgress o)))
                   k
          | Throw _ => k
          end).

(** syncOfflineData.  Neither processQueue nor updateQueuedRequests
    rejects: the catch clause is not reached. *)
Definition syncOfflineData (net : Network) (now : Z) (k : Async Page) : Async Page :=
  read offline
    (λ offline,
       if negb (isOnline offline) || syncInProgress offline
       then k
       else
         exec (set_offline (λ o, mkOffline (isOnline o) (queuedRequests o)
                                           (lastSyncTime o) true))
           (processQueue (@queue) net now
              (updateQueuedRequests now
                 (exec (set_offline (λ o, mkOffline (isOnline o) (queuedRequests o)
                                                   (Some now) false))
                       k)))).

(** setOnlineStatus: syncOfflineData is not awaited. *)
Definition setOnlineStatus (net : Network) (now : Z) (online : bool) (k : Async Page)
  : Async Page :=
  exec (set_offline (λ o, mkOffline online (queuedRequests o) (lastSyncTime o)
                                    (syncInProgress o)))
    (if online then unawaited (syncOfflineData net now finished) k else k).

(** handleOnline of App.tsx: updateQueuedRequests is not awaited. *)
Definition handleOnline (net : Network) (now : Z) : Async Page :=
  setOnlineStatus net now true
    (unawaited (updateQueuedRequests now finished) finished).

(** The [online] event on [window]: the listener of the queue manager
    (registered when the module is loaded), then the listener of App,
    then what they left pending. *)
Definition windowOnline (fuel : nat) (net : Network) (now : Z) (p : Page) : option Page :=
  dispatch fuel (unawaited (onOnline (@queue) net now) (handleOnline net now)) p.

(** The retry timers that are pending: the item and the delay of each. *)
Definition pendingRetries (w : OfflineQueue.World) : list (string * Z) :=
  omap (λ t, match t.2.1 with
             | OfflineQueue.RetryCallback itemId => Some (itemId, t.2.2)
             | OfflineQueue.DrainCallback => None
             end)
       (map_to_list (OfflineQueue.timers w)).

End Interleaved.

(** ** src/utils/indexedDB.ts: the queue methods and [offlineStorage] *)

Module OfflineStorage.
Import IndexedDB.

(** The name of a collection, as the source writes it. *)
Definition storeLabel {A} (T : StoreName A) : string :=
  match T with
  | prayerTimes => "prayerTimes"
  | events => "events"
  | announcements => "announcements"
  | donations => "donations"
  | community => "community"
  | userData => "userData"
  | offlineQueue => "offlineQueue"
  end.

(** IndexedDBManager.getOfflineQueue *)
Definition getOfflineQueue (now : Z) : Task IDB (list QueuedRequest.t) :=
  getAll offlineQueue now.

(** IndexedDBManager.removeFromOfflineQueue *)
Definition removeFromOfflineQueue (id : string) : Task IDB unit :=
  delete offlineQueue id.

(** IndexedDBManager.incrementRetryCount *)
Definition incrementRetryCount (id : string) (now : Z) : Task IDB unit :=
  let* item := get offlineQueue id now in
  match item with
  | Some item => store offlineQueue (OfflineQueue.incrementRetryCount item) None now
  | None => ret tt
  end.

(** What the getters of [offlineStorage] resolve to: [{ data, timestamp }]. *)
Record Snapshot := mkSnapshot {
  data : json;
  timestamp : Z
}.

(** [result ? { data: result.data, timestamp: result.timestamp } : null] *)
Definition snapshotOf (result : option StoredData.t) : option Snapshot :=
  match result with
  | Some r => Some (mkSnapshot (StoredData.data r) (StoredData.timestamp r))
  | None => None
  end.

(** offlineStorage.storePrayerTimes: 24 hours TTL *)
Definition storePrayerTimes (data : json) (now : Z) : Task IDB unit :=
  store prayerTimes (StoredData.mk "current" data now None) (Some (24 * 60)) now.

(** offlineStorage.getPrayerTimes *)
Definition getPrayerTimes (now : Z) : Task IDB (option Snapshot) :=
  let* result := get prayerTimes "current" now in ret (snapshotOf result).

(** offlineStorage.storeEvents: 1 hour TTL *)
Definition storeEvents (data : json) (now : Z) : Task IDB unit :=
  store events (StoredData.mk "current" data now None) (Some 60) now.

(** offlineStorage.getEvents *)
Definition getEvents (now : Z) : Task IDB (option Snapshot) :=
  let* result := get events "current" now in ret (snapshotOf result).

(** offlineStorage.storeAnnouncements: 30 minutes TTL *)
Definition storeAnnouncements (data : json) (now : Z) : Task IDB unit :=
  store announcements (StoredData.mk "current" data now None) (Some 30) now.

(** offlineStorage.getAnnouncements *)
Definition getAnnouncements (now : Z) : Task IDB (option Snapshot) :=
  let* result := get announcements "current" now in ret (snapshotOf result).

(** offlineStorage.storeCommunity: 2 hours TTL *)
Definition storeCommunity (data : json) (now : Z) : Task IDB unit :=
  store community (StoredData.mk "current" data now None) (Some 120) now.

(** offlineStorage.getCommunity *)
Definition getCommunity (now : Z) : Task IDB (option Snapshot) :=
  let* result := get community "current" now in ret (snapshotOf result).

(** offlineStorage.storeDonations: 1 hour TTL *)
Definition storeDonations (data : json) (now : Z) : Task IDB unit :=
  store donations (StoredData.mk "current" data now None) (Some 60) now.

(** offlineStorage.getDonations *)
Definition getDonations (now : Z) : Task IDB (option Snapshot) :=
  let* result := get donations "current" now in ret (snapshotOf result).

(** Every record of an object store lies under its own id (the key path). *)
Definition keyed {A} (T : StoreName A) (os : gmap string A) : Prop :=
  ∀ k r, os !! k = Some r → keyOf T r = k.

End OfflineStorage.

(** ** utils/offlineQueue: the exported helpers (src/unnamed/part_009) *)

Module QueueHelpers.
Import IndexedDB OfflineQueue.

(** [{ 'Authorization': `Bearer ${token}` }] *)
Definition bearer (token : string) : gmap string string :=
  {[ "Authorization" := "Bearer " +:+ token ]}.

(** offlineQueue.queueDonation *)
Definition queueDonation (stringify : json → string) (donationData : json)
    (token : string) (now : Z) (random : string) : Task World string :=
  addToQueue stringify "/api/donations" "POST" (Some donationData)
    (Some (bearer token)) (Some QueuedRequest.donations) None now random.

(** offlineQueue.queueEventRegistration *)
Definition queueEventRegistration (stringify : json → string) (eventId : string)
    (token : string) (now : Z) (random : string) : Task World string :=
  addToQueue stringify ("/api/events/" +:+ eventId +:+ "/register") "POST"
    (Some (JObj [])) (Some (bearer token)) (Some QueuedRequest.registrations)
    None now random.

(** offlineQueue.queueAnnouncement *)
Definition queueAnnouncement (stringify : json → string) (announcementData : json)
    (token : string) (now : Z) (random : string) : Task World string :=
  addToQueue stringify "/api/announcements" "POST" (Some announcementData)
    (Some (bearer token)) (Some QueuedRequest.announcements) None now random.

(** *** Vocabulary of the properties *)

(** The items of a list ascend by id (ids are compared as strings,
    character by character). *)
Definition ascendingById (l : list QueuedRequest.t) : Prop :=
  Sorted (λ a b, String.leb (QueuedRequest.id a) (QueuedRequest.id b) = true) l.

(** The number of items of type [t] in a list. *)
Definition countType (t : QueuedRequest.RequestType) (items : list QueuedRequest.t) : nat :=
  length (List.filter (λ q, String.eqb (typeName (QueuedRequest.type q)) (typeName t)) items).

(** The error with which an attempt at [rq] fails: the rejection of fetch,
    or the HTTP error of a response that is not ok; [None] when the attempt
    succeeds. *)
Definition failure (net : Network) (rq : HttpRequest) : option Exception :=
  match net rq with
  | Return response => if ok response then None else Some (httpError response)
  | Throw e => Some e
  end.

(** The network answers every request with a 2xx response. *)
Definition accepts (net : Network) : Prop :=
  ∀ rq, failure net rq = None.

(** The events of an item. *)
Definition successOf (item : QueuedRequest.t) : CustomEvent :=
  offlineQueueSuccess (QueuedRequest.id item) (QueuedRequest.type item)
    (QueuedRequest.url item) (QueuedRequest.method item).

Definition failureOf (item : QueuedRequest.t) : CustomEvent :=
  offlineQueueFailure (QueuedRequest.id item) (QueuedRequest.type item)
    (QueuedRequest.url item) (QueuedRequest.method item) (QueuedRequest.retryCount item).

(** The item as handleRetry writes it back at time [now]: one more retry
    counted, the time stamp renewed by the store. *)
Definition retriedItem (now : Z) (item : QueuedRequest.t) : QueuedRequest.t :=
  stampQueued now None (incrementRetryCount item).

(** The item that addToQueue builds. *)
Definition queuedItem (stringify : json → string)
    (url method : string) (body : option json) (headers : option (gmap string string))
    (type : option QueuedRequest.RequestType) (retryConfig : option PartialRetryConfig)
    (now : Z) (random : string) : QueuedRequest.t :=
  QueuedRequest.mk (newId now random) url method
    (match body with
     | Some b => if truthy b then Some (stringify b) else None
     | None => None
     end)
    (default ∅ headers) now 0
    (Some (maxRetries (mergeConfig defaultRetryConfig retryConfig)))
    (default QueuedRequest.general type) None.

(** The retry callback of item [k] fires once at each of the times [nows]. *)
Definition retryTimes (net : Network) (k : string) (nows : list Z) : Task World unit :=
  for_of nows (λ now, retryCallback net now k).

(** The item after the retries at the times [nows]. *)
Definition retriedItems (nows : list Z) (item : QueuedRequest.t) : QueuedRequest.t :=
  foldl (λ q now, retriedItem now q) item nows.

End QueueHelpers.

(** ** The service worker: the routes beside the API
    (src/unnamed/part_005) *)

Module ServiceWorkerRoutes.
Import IndexedDB ServiceWorker.


(** [new Response(text, { status })]: the body is a string, so the
    response is given the content type of text. *)
Definition textResponse (st : Z) (text : string) : Response :=
  mkResponse st "" {[ "content-type" := "text/plain;charset=UTF-8" ]} (BodyText text).


(** [caches.match('/offline.html')]: the string is resolved against the
    location of the worker, which gives the url [offlineUrl], and stands
    for a GET request. *)
Definition offlinePageRequest (offlineUrl : string) : Request :=
  mkRequest offlineUrl "/offline.html" "GET" ∅ None "cors".


(** handleNavigation: network first, then the cached page, then the
    offline page. *)
Definition handleNavigation (net : Net) (offlineUrl : string) (request : Request)
  : Task SW Response :=
  try_catch
    (let* networkResponse := fetch net request in
     if ok networkResponse then ret networkResponse
     else throw (Error "Network response not ok"))
    (λ _,
       let* cachedResponse := caches_match request in
       match cachedResponse with
       | Some cached => ret cached
       | None =>
           let* offlinePage := caches_match (offlinePageRequest offlineUrl) in
           ret (default (textResponse 503 "Offline") offlinePage)
       end).


(** The network rejects the request or answers it with a status that is
    not 2xx. *)
Definition fails (net : Net) (request : Request) : Prop :=
  ∀ response, net request = Return response → ok response = false.

(** What [caches.match(request)] and [cache.match(request)] find in the
    caches [cs]. *)
Definition cachedFor (request : Request) (cs : CacheStorage) : option Response :=
  match (caches_match request (mkSW None cs [] false)).1 with
  | Return found => found
  | Throw _ => None
  end.


(** No cache has an entry for the request. *)
Definition uncached (request : Request) (cs : CacheStorage) : Prop :=
  (caches_match request (mkSW None cs [] false)).1 = Return None.

(** The response that handleApiRequest builds from a stored record. *)
Definition fromIndexedDB (data : json) : Response :=
  jsonResponse 200
    {[ "Content-Type" := "application/json"; "X-From-IndexedDB" := "true" ]} data.

(** The record that getApiDataFromIndexedDB looks at for a path, in the
    database as the worker opens it. *)
Definition snapshotFor (pathname : string) (idb : IDB) : option StoredData.t :=
  T ← storeNameFor pathname;
  os ← objectStore T (open onupgradeneeded idb);
  os !! "current".

End ServiceWorkerRoutes.

(** ** store/authStore: clearing the queue (src/App.tsx) *)

Module AuthStoreActions.
Import AuthStore.

(** clearOfflineQueue (the catch clause logs) *)
Definition clearOfflineQueue (now : Z) : Task Page unit :=
  try_catch
    (queue OfflineQueue.clearQueue ;;;
     updateQueuedRequests now)
    (λ _, ret tt).

End AuthStoreActions.

(** * Properties *)

(** ** The durable store *)

Module IndexedDBFacts.
Import IndexedDB.

Lemma objectStore_set {A} (T : StoreName A) s db :
  objectStore T (setObjectStore T s db) = Some s.
Proof. by destruct T. Qed.

Lemma setObjectStore_twice {A} (T : StoreName A) s s' db :
  setObjectStore T s (setObjectStore T s' db) = setObjectStore T s db.
Proof. by destruct T. Qed.

Lemma setObjectStore_same {A} (T : StoreName A) s db :
  objectStore T db = Some s → setObjectStore T s db = db.
Proof. destruct T, db; simpl; by intros ->. Qed.

Lemma init_open db : init (Some db) = db.
Proof. done. Qed.

Lemma transaction_found {A} (T : StoreName A) idb os :
  objectStore T (init idb) = Some os →
  transaction T idb = (Return os, Some (init idb)).
Proof. unfold transaction. by intros ->. Qed.

Lemma transaction_missing {A} (T : StoreName A) idb :
  objectStore T (init idb) = None →
  transaction T idb = (Throw NotFoundError, Some (init idb)).
Proof. unfold transaction. by intros ->. Qed.

Lemma delete_found {A} (T : StoreName A) id idb os :
  objectStore T (init idb) = Some os →
  delete T id idb
  = (Return tt, Some (setObjectStore T (base.delete id os) (init idb))).
Proof.
  intros Hos. unfold delete, bind. rewrite (transaction_found _ _ _ Hos).
  by unfold commit, modify.
Qed.

Lemma store_found {A} (T : StoreName A) data ttl now idb os :
  objectStore T (init idb) = Some os →
  store T data ttl now idb
  = (Return tt,
     Some (setObjectStore T
             (<[keyOf T data :=
                  withExpiry T now
                    (if truthyNum ttl then Some (now + default 0 ttl * 60 * 1000) else None)
                    data]> os)
             (init idb))).
Proof.
  intros Hos. unfold store, bind. rewrite (transaction_found _ _ _ Hos).
  unfold commit, modify. simpl. do 3 f_equal. by destruct T.
Qed.

Lemma keyOf_withExpiry {A} (T : StoreName A) ts e x :
  keyOf T (withExpiry T ts e x) = keyOf T x.
Proof. by destruct T. Qed.

Lemma expiresAtOf_withExpiry {A} (T : StoreName A) ts e x :
  expiresAtOf T (withExpiry T ts e x) = e.
Proof. by destruct T. Qed.

Lemma withExpiry_twice {A} (T : StoreName A) ts e ts' e' x :
  withExpiry T ts e (withExpiry T ts' e' x) = withExpiry T ts e x.
Proof. by destruct T. Qed.

(** The purge loop of getAll removes exactly the keys of the listed items. *)
Lemma purge_spec {A} (T : StoreName A) (l : list A) db os :
  objectStore T db = Some os →
  for_of l (λ item, detached (delete T (keyOf T item))) (Some db)
  = (Return tt,
     Some (setObjectStore T (foldl (λ m item, base.delete (keyOf T item) m) os l) db)).
Proof.
  revert db os. induction l as [|x l IH]; intros db os Hos; simpl.
  - unfold ret. by rewrite (setObjectStore_same _ _ _ Hos).
  - unfold bind, detached at 1.
    rewrite (delete_found T (keyOf T x) (Some db) os Hos). simpl.
    rewrite (IH _ (base.delete (keyOf T x) os)) by apply objectStore_set.
    by rewrite setObjectStore_twice.
Qed.

(** *** The order of getAll *)

Lemma entriesInKeyOrder_perm {A} (os : gmap string A) :
  entriesInKeyOrder os ≡ₚ map_to_list os.
Proof. apply merge_sort_Permutation. Qed.

Lemma inKeyOrder_perm {A} (os : gmap string A) :
  inKeyOrder os ≡ₚ (map_to_list os).*2.
Proof. unfold inKeyOrder. by rewrite entriesInKeyOrder_perm. Qed.

(** The keys of the listing ascend. *)
Lemma entriesInKeyOrder_sorted {A} (os : gmap string A) :
  Sorted (λ a b : string * A, String.leb a.1 b.1 = true) (entriesInKeyOrder os).
Proof.
  apply Sorted_merge_sort. intros a b. apply String.leb_total.
Qed.

Lemma elem_of_entriesInKeyOrder {A} (os : gmap string A) k r :
  (k, r) ∈ entriesInKeyOrder os ↔ os !! k = Some r.
Proof. by rewrite entriesInKeyOrder_perm, elem_of_map_to_list. Qed.

Lemma elem_of_inKeyOrder {A} (os : gmap string A) r :
  r ∈ inKeyOrder os ↔ ∃ k, os !! k = Some r.
Proof.
  unfold inKeyOrder. rewrite list_elem_of_fmap. split.
  - intros ([k r'] & -> & Hin). exists k. by apply elem_of_entriesInKeyOrder.
  - intros [k Hk]. exists (k, r). split; [done|]. by apply elem_of_entriesInKeyOrder.
Qed.

Lemma inKeyOrder_empty {A} : inKeyOrder (∅ : gmap string A) = [].
Proof.
  apply Permutation_nil_r. by rewrite inKeyOrder_perm, map_to_list_empty.
Qed.

Lemma inKeyOrder_singleton {A} k (r : A) : inKeyOrder ({[k := r]} : gmap string A) = [r].
Proof.
  apply Permutation_singleton_r. by rewrite inKeyOrder_perm, map_to_list_singleton.
Qed.

Lemma length_inKeyOrder {A} (os : gmap string A) : length (inKeyOrder os) = size os.
Proof. by rewrite inKeyOrder_perm, length_fmap, length_map_to_list. Qed.

(** In a store whose records lie under their own id, the listing ascends
    by id. *)
Lemma inKeyOrder_ascending {A} (T : StoreName A) (os : gmap string A) :
  (∀ k x, os !! k = Some x → keyOf T x = k) →
  Sorted (λ a b, String.leb (keyOf T a) (keyOf T b) = true) (inKeyOrder os).
Proof.
  intros Hkeyed. unfold inKeyOrder.
  assert (Forall (λ e : string * A, keyOf T e.2 = e.1) (entriesInKeyOrder os)) as Hall.
  { apply Forall_forall. intros [k x] Hin. apply Hkeyed.
    by apply elem_of_entriesInKeyOrder. }
  pose proof (entriesInKeyOrder_sorted os) as Hsorted.
  induction Hsorted as [|e l Hs IH Hhd]; [constructor|].
  apply Forall_cons in Hall as [He Hl]. rewrite fmap_cons. constructor; [by apply IH|].
  destruct Hhd as [|e' l' Hle]; [constructor|].
  apply Forall_cons in Hl as [He' _]. rewrite fmap_cons. constructor.
  by rewrite He, He'.
Qed.

Lemma getAll_found {A} (T : StoreName A) now idb os :
  objectStore T (init idb) = Some os →
  getAll T now idb
  = (Return (filter (λ item, expired now (expiresAtOf T item) = false) (inKeyOrder os)),
     Some (setObjectStore T
             (foldl (λ m item, base.delete (keyOf T item) m) os
                    (filter (λ item, expired now (expiresAtOf T item) = true)
                            (inKeyOrder os)))
             (init idb))).
Proof.
  intros Hos. unfold getAll, bind at 1. rewrite (transaction_found _ _ _ Hos).
  unfold bind. by rewrite (purge_spec T _ (init idb) os Hos).
Qed.

Lemma lookup_purged {A} (key : A → string) (l : list A) (m : gmap string A) k :
  foldl (λ m item, base.delete (key item) m) m l !! k
  = if bool_decide (k ∈ key <$> l) then None else m !! k.
Proof.
  revert m. induction l as [|x l IH]; intros m; simpl; [done|].
  rewrite IH. destruct (decide (key x = k)) as [<-|Hne].
  - rewrite lookup_delete_eq. rewrite (bool_decide_eq_true_2 (key x ∈ key x :: _)) by left.
    by case_bool_decide.
  - rewrite lookup_delete_ne by done.
    assert (k ∈ key x :: (key <$> l) ↔ k ∈ key <$> l) as Hiff
      by (rewrite elem_of_cons; split; [intros [Heq|Hin]; [by subst|done] | by right]).
    by rewrite (bool_decide_ext _ _ Hiff).
Qed.

(** Nothing but [userData] is missing from a database created by init. *)
Lemma init_creates {A} (T : StoreName A) :
  objectStore T (init None) = if createdByInit T then Some ∅ else None.
Proof. by destruct T. Qed.

(** On a browser without the database, a put into one of the six
    collections that init creates succeeds and leaves exactly that record. *)
Lemma store_on_fresh_database {A} (T : StoreName A) data ttl now :
  createdByInit T = true →
  ∃ stored, store T data ttl now None
            = (Return tt, Some (setObjectStore T {[keyOf T data := stored]} (init None)))
            ∧ sameRecord T stored data.
Proof.
  intros Hc. eexists. split.
  - rewrite (store_found T data ttl now None ∅); [|by rewrite init_creates, Hc].
    by rewrite insert_empty.
  - unfold sameRecord. by rewrite withExpiry_twice.
Qed.

(** A put replaces whatever the collection held under the id (upsert). *)
Lemma store_upserts {A} (T : StoreName A) data ttl now idb os :
  objectStore T (init idb) = Some os →
  ∃ idb' os', store T data ttl now idb = (Return tt, Some idb')
              ∧ objectStore T idb' = Some os'
              ∧ (∃ stored, os' !! keyOf T data = Some stored ∧ sameRecord T stored data)
              ∧ ∀ k, k ≠ keyOf T data → os' !! k = os !! k.
Proof.
  intros Hos. do 2 eexists. split; [by apply store_found|].
  split; [by apply objectStore_set|]. split.
  - eexists. split; [by apply lookup_insert_eq|].
    unfold sameRecord. by rewrite withExpiry_twice.
  - intros k Hk. by rewrite lookup_insert_ne.
Qed.

(** C8 (defect in the code).  [put] into the collection userData raises:
    init creates six object stores and leaves out userData, so on a
    browser without the database [store('userData', record)] opens the
    database, finds no such object store, and rejects with NotFoundError;
    nothing is created implicitly at the time of the put. *)
Theorem store_userData_rejects (data : StoredData.t) (ttlMinutes : option Z) (now : Z) :
  store userData data ttlMinutes now None
  = (Throw NotFoundError, Some (onupgradeneeded noStores))
  ∧ objectStore userData (onupgradeneeded noStores) = None.
Proof. done. Qed.

Lemma sameOwnFields_withExpiry {A} (T : StoreName A) ts e x :
  sameOwnFields T (withExpiry T ts e x) x ∧ timestampOf T (withExpiry T ts e x) = ts.
Proof. by destruct T. Qed.

(** The round trip where the collection exists: [put] of a record
    followed by [get] of its id, before the expiry the put computed has
    elapsed, succeeds and returns the record as it was put, property by
    property, with the time of the put as [timestamp] and the computed
    expiry as [expiresAt]; the get leaves the store as the put left
    it.  The expiry is computed exactly up to 2^53. *)
Lemma put_get_roundtrip {A} (T : StoreName A) (record : A)
    (ttlMinutes : option Z) (now now' : Z) (idb : IDB) :
  contains T (init idb) = true →
  (∀ t, ttlMinutes = Some t →
        0 ≤ t ∧ 0 ≤ now ∧ now + t * 60 * 1000 ≤ 2 ^ 53 ∧ now' ≤ now + t * 60 * 1000) →
  ∃ idb', store T record ttlMinutes now idb = (Return tt, idb')
          ∧ ∃ r, get T (keyOf T record) now' idb' = (Return (Some r), idb')
                 ∧ sameOwnFields T r record
                 ∧ timestampOf T r = now
                 ∧ expiresAtOf T r
                   = match ttlMinutes with
                     | Some t => if t =? 0 then None else Some (now + t * 60 * 1000)
                     | None => None
                     end.
Proof.
  intros Hc Httl. unfold contains in Hc. apply bool_decide_eq_true_1 in Hc as [os Hos].
  eexists. split; [by apply store_found|].
  eexists. split.
  - unfold get, bind.
    rewrite (transaction_found T (Some (setObjectStore T _ (init idb))) _
               (objectStore_set T _ _)).
    rewrite lookup_insert_eq, expiresAtOf_withExpiry.
    replace (expired now' _) with false; [done|].
    unfold expired. destruct ttlMinutes as [t|]; simpl; [|done].
    destruct (Z.eqb_spec t 0); simpl; [done|].
    symmetry. apply andb_false_intro2. apply Z.ltb_ge. by apply Httl.
  - split; [apply sameOwnFields_withExpiry|]. split; [apply sameOwnFields_withExpiry|].
    rewrite expiresAtOf_withExpiry. destruct ttlMinutes as [t|]; simpl; [|done].
    by destruct (t =? 0).
Qed.

Lemma put_get_roundtrip_example :
  let put := store events (StoredData.mk "current" (JStr "iftar") 5 None) (Some 60) 1000 None in
  put.1 = Return tt
  ∧ get events "current" 2000 put.2
    = (Return (Some (StoredData.mk "current" (JStr "iftar") 1000 (Some 3601000))), put.2).
Proof. by vm_compute. Qed.

(** C7 (defect in the code).  The round trip fails for the collection
    userData: no upgrade handler creates it (see C8), so in a browser
    without the database, and likewise in a database that init has
    created, put rejects with NotFoundError, nothing is stored, and the
    get that follows rejects as well.  In each of the six collections
    that init creates, the put succeeds and the get returns the record as
    it was put, property by property, with the time of the put as
    [timestamp]. *)
Theorem userData_roundtrip_is_rejected (record : StoredData.t) (ttlMinutes : option Z)
    (now now' : Z) :
  createdByInit userData = false
  ∧ store userData record ttlMinutes now None = (Throw NotFoundError, Some (init None))
  ∧ get userData (keyOf userData record) now' (Some (init None))
    = (Throw NotFoundError, Some (init None))
  ∧ objectStore userData (init None) = None
  ∧ ∀ A (T : StoreName A) (x : A),
      contains T (init None) = createdByInit T
      ∧ if createdByInit T
        then ∃ idb' r, store T x None now None = (Return tt, idb')
                       ∧ get T (keyOf T x) now' idb' = (Return (Some r), idb')
                       ∧ sameOwnFields T r x
                       ∧ timestampOf T r = now
                       ∧ expiresAtOf T r = None
        else store T x None now None = (Throw NotFoundError, Some (init None)).
Proof.
  split; [done|]. split; [done|]. split; [done|]. split; [done|].
  intros A T x. split; [by destruct T|].
  destruct (createdByInit T) eqn:HT; [|by destruct T].
  destruct (put_get_roundtrip T x None now now' None)
    as (idb' & Hput & r & Hget & Hsame & Hts & He).
  - unfold contains. apply bool_decide_eq_true_2. rewrite init_creates, HT. by eexists.
  - by intros t.
  - by exists idb', r.
Qed.


(** A put at time 60000 with a TTL of -1 minute computes such an
    [expiresAt]; the record is still returned later on. *)
Lemma epoch_expiry_from_store :
  let put := store events (StoredData.mk "current" JNull 0 None) (Some (-1)) 60000 None in
  put.1 = Return tt
  ∧ get events "current" 60001 put.2
    = (Return (Some (StoredData.mk "current" JNull 60000 (Some 0))), put.2).
Proof. by vm_compute. Qed.



End IndexedDBFacts.

(** ** The offline write queue *)

Module OfflineQueueFacts.
Import IndexedDB OfflineQueue IndexedDBFacts.

(** *** How the operations act on the queue, the events and the requests *)

Lemma hasQueue_queueOf w os : hasQueue w os → queueOf w = os.
Proof. unfold hasQueue, queueOf. by intros ->. Qed.

Lemma hasQueue_after w db os :
  idb w = Some (setObjectStore offlineQueue os db) → hasQueue w os.
Proof. unfold hasQueue. intros ->. apply objectStore_set. Qed.

Lemma removeFromQueue_spec k w os :
  hasQueue w os →
  ∃ w', removeFromQueue k w = (Return tt, w')
        ∧ hasQueue w' (base.delete k os)
        ∧ dispatched w' = dispatched w
        ∧ fetched w' = fetched w.
Proof.
  intros Hos. unfold removeFromQueue, bind, db.
  rewrite (delete_found offlineQueue k (idb w) os Hos). simpl.
  destruct (retryTimeouts w !! k); simpl; eexists; (split; [done|]);
    (split; [by eapply hasQueue_after|done]).
Qed.

Lemma scheduleRetry_spec k delay w :
  ∃ w', scheduleRetry k delay w = (Return tt, w')
        ∧ idb w' = idb w
        ∧ dispatched w' = dispatched w
        ∧ fetched w' = fetched w.
Proof.
  unfold scheduleRetry, bind, gets. simpl.
  destruct (retryTimeouts w !! k); simpl; by eexists.
Qed.

Lemma handleRetry_spec now item w os :
  hasQueue w os →
  ∃ w', handleRetry now item w = (Return tt, w')
        ∧ hasQueue w' (retried now item os).1
        ∧ dispatched w' = dispatched w ++ (retried now item os).2
        ∧ fetched w' = fetched w.
Proof.
  intros Hos. unfold handleRetry, retried.
  destruct (effectiveMaxRetries item <=? QueuedRequest.retryCount item).
  - unfold bind at 1, log at 1, modify.
    unfold bind at 1.
    edestruct (removeFromQueue_spec (QueuedRequest.id item)) as (w1 & -> & Hq & Hd & Hf);
      [exact Hos|].
    unfold notifyFailure, dispatchEvent, modify. eexists. split; [done|].
    simpl. by rewrite Hd, Hf.
  - unfold bind at 1, db.
    rewrite (store_found offlineQueue _ None now (idb w) os Hos). simpl.
    edestruct (scheduleRetry_spec (QueuedRequest.id item)) as (w1 & -> & Hi & Hd & Hf).
    eexists. split; [done|]. rewrite Hf, Hd, app_nil_r. split; [|done].
    eapply hasQueue_after. by rewrite Hi.
Qed.

Lemma processQueueItem_spec net now item w os :
  hasQueue w os →
  ∃ w', processQueueItem net now item w = (Return tt, w')
        ∧ hasQueue w' (attempted net now item os).1
        ∧ dispatched w' = dispatched w ++ (attempted net now item os).2
        ∧ fetched w' = fetched w ++ [requestInit item].
Proof.
  intros Hos. unfold processQueueItem, attempted, try_catch, executeRequest.
  unfold bind at 1, fetch at 1.
  assert (∀ e w1, hasQueue w1 os → dispatched w1 = dispatched w →
            fetched w1 = fetched w ++ [requestInit item] →
            ∃ w', (log (FailedToProcess (QueuedRequest.id item) e) ;;; handleRetry now item) w1
                  = (Return tt, w')
                  ∧ hasQueue w' (retried now item os).1
                  ∧ dispatched w' = dispatched w ++ (retried now item os).2
                  ∧ fetched w' = fetched w ++ [requestInit item]) as Hfailed.
  { intros e w1 Hq1 Hd1 Hf1. unfold bind, log, modify.
    match goal with
    | |- context [handleRetry now item ?w2] =>
        destruct (handleRetry_spec now item w2 os Hq1) as (w' & -> & Hq & Hd & Hf)
    end.
    exists w'. simpl in *. by rewrite Hf, Hf1, Hd, Hd1. }
  destruct (net (requestInit item)) as [response|e]; [|by apply Hfailed].
  destruct (ok response).
  - unfold bind at 1, log at 1, modify. unfold bind at 1.
    match goal with
    | |- context [removeFromQueue ?k ?w1] =>
        destruct (removeFromQueue_spec k w1 os Hos) as (w2 & -> & Hq & Hd & Hf)
    end.
    unfold notifySuccess, dispatchEvent, modify. eexists. split; [done|].
    simpl in *. by rewrite Hd, Hf.
  - unfold throw. by apply Hfailed.
Qed.

Lemma drain_spec net now items w os :
  hasQueue w os →
  ∃ w', for_of items (processQueueItem net now) w = (Return tt, w')
        ∧ hasQueue w' (drained net now items os).1
        ∧ dispatched w' = dispatched w ++ (drained net now items os).2
        ∧ fetched w' = fetched w ++ (requestInit <$> items).
Proof.
  revert w os. induction items as [|item rest IH]; intros w os Hos; simpl.
  - exists w. by rewrite !app_nil_r.
  - unfold bind.
    destruct (processQueueItem_spec net now item w os Hos) as (w1 & -> & Hq1 & Hd1 & Hf1).
    destruct (attempted net now item os) as [os1 evs1]; simpl in *.
    destruct (IH w1 os1 Hq1) as (w2 & -> & Hq2 & Hd2 & Hf2).
    destruct (drained net now rest os1) as [os2 evs2]; simpl in *.
    exists w2. rewrite Hd2, Hd1, Hf2, Hf1, <-!app_assoc. done.
Qed.

(** *** Records without an expiry are never filtered out *)

Lemma filter_unexpired now (l : list QueuedRequest.t) :
  Forall (λ q, QueuedRequest.expiresAt q = None) l →
  filter (λ item, expired now (expiresAtOf offlineQueue item) = true) l = []
  ∧ filter (λ item, expired now (expiresAtOf offlineQueue item) = false) l = l.
Proof.
  induction 1 as [|q l Hq _ [IH1 IH2]]; [done|].
  rewrite !filter_cons, IH1, IH2. simpl. rewrite Hq. simpl.
  by repeat case_decide.
Qed.

Lemma clean_values os :
  clean os → Forall (λ q, QueuedRequest.expiresAt q = None) (inKeyOrder os).
Proof.
  intros Hclean. apply Forall_forall. intros q Hq.
  apply elem_of_inKeyOrder in Hq as [k Hin]. by apply Hclean in Hin as [? _].
Qed.

Lemma getAll_clean w os now :
  hasQueue w os → clean os →
  getAll offlineQueue now (idb w) = (Return (inKeyOrder os), Some (init (idb w))).
Proof.
  intros Hos Hclean. rewrite (getAll_found offlineQueue now (idb w) os Hos).
  destruct (filter_unexpired now _ (clean_values os Hclean)) as [-> ->].
  cbn [foldl]. by rewrite (setObjectStore_same offlineQueue os _ Hos).
Qed.

Lemma get_clean w os now k :
  hasQueue w os → clean os →
  get offlineQueue k now (idb w) = (Return (os !! k), Some (init (idb w))).
Proof.
  intros Hos Hclean. unfold get, bind. rewrite (transaction_found _ _ _ Hos).
  destruct (os !! k) as [q|] eqn:Hk; [|done].
  apply Hclean in Hk as [Hq _]. simpl. by rewrite Hq.
Qed.

(** *** What an attempt and a drain do to the queue *)

Lemma retried_clean now item os : clean os → clean (retried now item os).1.
Proof.
  intros Hclean k q. unfold retried.
  destruct (effectiveMaxRetries item <=? QueuedRequest.retryCount item); simpl.
  - rewrite lookup_delete_Some. intros [_ Hk]. by apply Hclean.
  - rewrite lookup_insert_Some. intros [[<- <-]|[_ Hk]]; [done|by apply Hclean].
Qed.

Lemma attempted_clean net now item os : clean os → clean (attempted net now item os).1.
Proof.
  intros Hclean. unfold attempted.
  destruct (net (requestInit item)) as [response|]; [|by apply retried_clean].
  destruct (ok response); [|by apply retried_clean].
  intros k q. simpl. rewrite lookup_delete_Some. intros [_ Hk]. by apply Hclean.
Qed.

Lemma drained_clean net now items os : clean os → clean (drained net now items os).1.
Proof.
  revert os. induction items as [|item rest IH]; intros os Hclean; simpl; [done|].
  pose proof (attempted_clean net now item os Hclean) as H1.
  destruct (attempted net now item os) as [os1 evs1].
  specialize (IH os1 H1). by destruct (drained net now rest os1).
Qed.

Lemma retried_leaves now item os k :
  is_Some (os !! k) → (retried now item os).1 !! k = None →
  exhausted k (retried now item os).2.
Proof.
  intros [q Hq]. unfold retried.
  destruct (effectiveMaxRetries item <=? QueuedRequest.retryCount item); simpl.
  - rewrite lookup_delete_None. intros [<-|Hk]; [|congruence].
    do 4 eexists. apply list_elem_of_singleton. reflexivity.
  - rewrite lookup_insert_None. intros [Hk _]. congruence.
Qed.

Lemma attempted_leaves net now item os k :
  is_Some (os !! k) → (attempted net now item os).1 !! k = None →
  replayed k (attempted net now item os).2 ∨ exhausted k (attempted net now item os).2.
Proof.
  intros Hq. unfold attempted.
  destruct (net (requestInit item)) as [response|];
    [|right; by apply retried_leaves].
  destruct (ok response); [|right; by apply retried_leaves].
  simpl. rewrite lookup_delete_None. intros [<-|Hk]; [|destruct Hq; congruence].
  left. do 3 eexists. apply list_elem_of_singleton. reflexivity.
Qed.

Lemma replayed_app k evs1 evs2 :
  replayed k evs1 ∨ replayed k evs2 → replayed k (evs1 ++ evs2).
Proof.
  intros [(t & u & m & H)|(t & u & m & H)]; exists t, u, m;
    apply elem_of_app; [by left|by right].
Qed.

Lemma exhausted_app k evs1 evs2 :
  exhausted k evs1 ∨ exhausted k evs2 → exhausted k (evs1 ++ evs2).
Proof.
  intros [(t & u & m & n & H)|(t & u & m & n & H)]; exists t, u, m, n;
    apply elem_of_app; [by left|by right].
Qed.

Lemma drained_leaves net now items os k :
  is_Some (os !! k) → (drained net now items os).1 !! k = None →
  replayed k (drained net now items os).2 ∨ exhausted k (drained net now items os).2.
Proof.
  revert os. induction items as [|item rest IH]; intros os Hq; simpl.
  - intros Hk. destruct Hq. congruence.
  - pose proof (attempted_leaves net now item os k Hq) as H1.
    destruct (attempted net now item os) as [os1 evs1]. simpl in H1.
    specialize (IH os1).
    destruct (drained net now rest os1) as [os2 evs2]. simpl in *.
    intros Hk. destruct (os1 !! k) as [q1|] eqn:Hk1.
    + destruct (IH (mk_is_Some _ _ eq_refl) Hk) as [H|H];
        [left; apply replayed_app|right; apply exhausted_app]; by right.
    + destruct (H1 eq_refl) as [H|H];
        [left; apply replayed_app|right; apply exhausted_app]; by left.
Qed.

(** *** The entry points *)

Lemma processQueue_spec net now w os :
  hasQueue w os → clean os →
  ∃ w', processQueue net now w = (Return tt, w')
        ∧ if isOnline w
          then hasQueue w' (drained net now (inKeyOrder os) os).1
               ∧ dispatched w' = dispatched w ++ (drained net now (inKeyOrder os) os).2
               ∧ fetched w' = fetched w ++ (requestInit <$> (inKeyOrder os))
          else hasQueue w' os ∧ dispatched w' = dispatched w ∧ fetched w' = fetched w.
Proof.
  intros Hos Hclean. unfold processQueue, bind at 1, gets.
  destruct (isOnline w); simpl; [|by eexists].
  unfold try_catch, bind at 1, db. rewrite (getAll_clean w os now Hos Hclean).
  unfold bind, log, modify.
  match goal with
  | |- context [for_of ?items _ ?w1] =>
      destruct (drain_spec net now items w1 os Hos) as (w' & -> & Hq & Hd & Hf)
  end.
  by exists w'.
Qed.

Lemma retryItem_spec net now k w os :
  hasQueue w os → clean os →
  ∃ w', retryItem net now k w = (Return tt, w')
        ∧ ((hasQueue w' os ∧ dispatched w' = dispatched w ∧ fetched w' = fetched w)
           ∨ (∃ item, os !! k = Some item ∧ isOnline w = true
                ∧ hasQueue w' (attempted net now item os).1
                ∧ dispatched w' = dispatched w ++ (attempted net now item os).2
                ∧ fetched w' = fetched w ++ [requestInit item])).
Proof.
  intros Hos Hclean. unfold retryItem, bind at 1, db.
  rewrite (get_clean w os now k Hos Hclean). unfold bind, gets. simpl.
  destruct (os !! k) as [item|] eqn:Hk; [|eexists; split; [done|by left]].
  destruct (isOnline w) eqn:Hon; [|eexists; split; [done|by left]].
  match goal with
  | |- context [processQueueItem net now item ?w1] =>
      destruct (processQueueItem_spec net now item w1 os Hos) as (w' & -> & Hq & Hd & Hf)
  end.
  exists w'. split; [done|]. right. by exists item.
Qed.

Lemma retryCallback_spec net now k w os :
  hasQueue w os → clean os →
  ∃ w', retryCallback net now k w = (Return tt, w')
        ∧ ((hasQueue w' os ∧ dispatched w' = dispatched w ∧ fetched w' = fetched w)
           ∨ (∃ item, os !! k = Some item
                ∧ hasQueue w' (attempted net now item os).1
                ∧ dispatched w' = dispatched w ++ (attempted net now item os).2
                ∧ fetched w' = fetched w ++ [requestInit item])).
Proof.
  intros Hos Hclean. unfold retryCallback, try_finally, try_catch, bind at 1, db.
  rewrite (get_clean w os now k Hos Hclean). simpl.
  destruct (os !! k) as [item|] eqn:Hk; [|eexists; split; [done|by left]].
  match goal with
  | |- context [processQueueItem net now item ?w1] =>
      destruct (processQueueItem_spec net now item w1 os Hos) as (w' & -> & Hq & Hd & Hf)
  end.
  eexists. split; [done|]. right. by exists item.
Qed.

Lemma clearTimeouts_spec handles w :
  ∃ w', for_of handles clearTimeout w = (Return tt, w')
        ∧ idb w' = idb w ∧ dispatched w' = dispatched w ∧ fetched w' = fetched w.
Proof.
  revert w. induction handles as [|h handles IH]; intros w; simpl; [by exists w|].
  unfold bind, clearTimeout at 1, modify.
  match goal with
  | |- context [for_of handles clearTimeout ?w1] =>
      destruct (IH w1) as (w' & -> & Hi & Hd & Hf)
  end.
  by exists w'.
Qed.

Lemma clearQueue_spec w os :
  hasQueue w os →
  ∃ w', clearQueue w = (Return tt, w')
        ∧ hasQueue w' ∅ ∧ dispatched w' = dispatched w ∧ fetched w' = fetched w.
Proof.
  intros Hos. unfold clearQueue, bind at 1, gets. unfold bind at 1.
  destruct (clearTimeouts_spec (map_to_list (retryTimeouts w)).*2 w)
    as (w1 & -> & Hi & Hd & Hf).
  unfold bind, modify, db, clear, log. simpl.
  assert (hasQueue w1 os) as Hos1 by (unfold hasQueue; by rewrite Hi).
  unfold bind. rewrite (transaction_found offlineQueue (idb w1) os Hos1).
  unfold commit, modify. simpl. eexists. split; [done|].
  split; [by eapply hasQueue_after|done].
Qed.

Lemma addToQueue_spec stringify url method body headers type retryConfig now random w os :
  hasQueue w os →
  ∃ w' item, (addToQueue stringify url method body headers type retryConfig now random w).2
             = w'
       ∧ hasQueue w' (<[QueuedRequest.id item := item]> os)
       ∧ QueuedRequest.id item = newId now random
       ∧ QueuedRequest.expiresAt item = None
       ∧ QueuedRequest.retryCount item = 0
       ∧ dispatched w' = dispatched w ∧ fetched w' = fetched w.
Proof.
  intros Hos. unfold addToQueue, bind at 1, db.
  rewrite (store_found offlineQueue _ None now (idb w) os Hos).
  match goal with
  | |- context [withExpiry offlineQueue now ?e ?q] =>
      set (item := withExpiry offlineQueue now e q)
  end.
  unfold bind, log, modify, gets. cbn [fst snd isOnline set_idb].
  destruct (isOnline w).
  - match goal with
    | |- context [scheduleRetry ?k ?d ?w1] =>
        destruct (scheduleRetry_spec k d w1) as (w' & -> & Hi & Hd & Hf)
    end.
    exists w', item. split; [done|].
    split; [eapply hasQueue_after; by rewrite Hi|]. done.
  - eexists _, item. split; [done|].
    split; [by eapply hasQueue_after|]. done.
Qed.

Lemma getQueueStatus_spec now w os :
  hasQueue w os → clean os →
  ∃ w' st, getQueueStatus now w = (Return st, w')
        ∧ items st = inKeyOrder os
        ∧ total st = size os
        ∧ hasQueue w' os ∧ dispatched w' = dispatched w ∧ fetched w' = fetched w.
Proof.
  intros Hos Hclean. unfold getQueueStatus, bind, db.
  rewrite (getAll_clean w os now Hos Hclean). simpl.
  do 2 eexists. split; [done|]. simpl.
  split; [done|]. split; [|done].
  by rewrite length_inKeyOrder.
Qed.

Lemma timerFires_spec net now h w os :
  hasQueue w os → clean os →
  ∃ w' evs, timerFires net now h w = (Return tt, w')
        ∧ hasQueue w' (default os (fst <$> evs))
        ∧ dispatched w' = dispatched w ++ default [] (snd <$> evs)
        ∧ (evs = None
           ∨ (∃ item, evs = Some (attempted net now item os))
           ∨ evs = Some (drained net now (inKeyOrder os) os)).
Proof.
  intros Hos Hclean. unfold timerFires, bind at 1, gets.
  destruct (timers w !! h) as [[cb delay]|]; simpl;
    [|exists w, None; rewrite app_nil_r; by auto].
  unfold bind, clearTimeout, modify.
  destruct cb as [itemId|].
  - match goal with
    | |- context [retryCallback net now itemId ?w1] =>
        destruct (retryCallback_spec net now itemId w1 os Hos Hclean)
          as (w' & -> & [(Hq & Hd & _)|(item & _ & Hq & Hd & _)])
    end.
    + exists w', None. simpl in *. rewrite app_nil_r. by auto.
    + exists w', (Some (attempted net now item os)).
      split; [done|]. split; [exact Hq|]. split; [exact Hd|].
      right; left. by exists item.
  - match goal with
    | |- context [processQueue net now ?w1] =>
        destruct (processQueue_spec net now w1 os Hos Hclean) as (w' & -> & Hcase)
    end.
    simpl in Hcase. destruct (isOnline w).
    + destruct Hcase as (Hq & Hd & _).
      exists w', (Some (drained net now (inKeyOrder os) os)). by auto 6.
    + destruct Hcase as (Hq & Hd & _). exists w', None. simpl. rewrite app_nil_r. by auto.
Qed.

Lemma onOnline_spec net now w os :
  hasQueue w os → clean os →
  ∃ w', onOnline net now w = (Return tt, w')
        ∧ hasQueue w' (drained net now (inKeyOrder os) os).1
        ∧ dispatched w' = dispatched w ++ (drained net now (inKeyOrder os) os).2
        ∧ fetched w' = fetched w ++ (requestInit <$> (inKeyOrder os)).
Proof.
  intros Hos Hclean. unfold onOnline, bind, log, modify.
  match goal with
  | |- context [processQueue net now ?w1] =>
      destruct (processQueue_spec net now w1 os Hos Hclean) as (w' & -> & Hq & Hd & Hf)
  end.
  by exists w'.
Qed.

(** One entry point of the manager, run on a clean queue: the queue stays
    clean, events are only added, and an item that is gone afterwards left
    in one of the four ways. *)
Lemma run_spec stringify net now op w os :
  hasQueue w os → clean os →
  ∃ os' evs, hasQueue (run stringify net now op w) os'
             ∧ clean os'
             ∧ dispatched (run stringify net now op w) = dispatched w ++ evs
             ∧ ∀ k, is_Some (os !! k) → os' !! k = None → leftBy op k evs.
Proof.
  intros Hos Hclean.
  assert (∀ k, is_Some (os !! k) → os !! k = None → leftBy op k []) as Hsame
    by (intros k [q Hq] Hk; congruence).
  assert (∀ items k, is_Some (os !! k) → (drained net now items os).1 !! k = None →
            leftBy op k (drained net now items os).2) as Hdrain.
  { intros items k Hq Hk.
    destruct (drained_leaves net now items os k Hq Hk); [by left|right; by left]. }
  assert (∀ item k, is_Some (os !! k) → (attempted net now item os).1 !! k = None →
            leftBy op k (attempted net now item os).2) as Hattempt.
  { intros item k Hq Hk.
    destruct (attempted_leaves net now item os k Hq Hk); [by left|right; by left]. }
  destruct op as [url method body headers type retryConfig random| |itemId|itemId| | |h| |];
    unfold run.
  - destruct (addToQueue_spec stringify url method body headers type retryConfig
                now random w os Hos) as (w' & item & -> & Hq & Hid & Hexp & _ & Hd & _).
    exists (<[QueuedRequest.id item := item]> os), []. rewrite app_nil_r.
    split; [done|]. split; [|split; [done|]].
    + intros k q. rewrite lookup_insert_Some. intros [[<- <-]|[_ Hk]]; [done|by apply Hclean].
    + intros k Hs. rewrite lookup_insert_None. intros [Hk _]. by apply Hsame.
  - destruct (processQueue_spec net now w os Hos Hclean) as (w' & -> & Hcase).
    destruct (isOnline w); simpl.
    + destruct Hcase as (Hq & Hd & _). do 2 eexists. split; [exact Hq|].
      split; [by apply drained_clean|]. split; [exact Hd|]. apply Hdrain.
    + destruct Hcase as (Hq & Hd & _). exists os, []. by rewrite app_nil_r.
  - destruct (retryItem_spec net now itemId w os Hos Hclean)
      as (w' & -> & [(Hq & Hd & _)|(item & _ & _ & Hq & Hd & _)]); simpl.
    + exists os, []. by rewrite app_nil_r.
    + do 2 eexists. split; [exact Hq|]. split; [by apply attempted_clean|].
      split; [exact Hd|]. apply Hattempt.
  - unfold removeQueueItem.
    destruct (removeFromQueue_spec itemId w os Hos) as (w' & -> & Hq & Hd & _); simpl.
    exists (base.delete itemId os), []. rewrite app_nil_r.
    split; [done|]. split; [|split; [done|]].
    + intros k q. rewrite lookup_delete_Some. intros [_ Hk]. by apply Hclean.
    + intros k [q Hk]. rewrite lookup_delete_None. intros [<-|Hk']; [|congruence].
      right; right; by left.
  - destruct (clearQueue_spec w os Hos) as (w' & -> & Hq & Hd & _); simpl.
    exists ∅, []. rewrite app_nil_r. split; [done|]. split; [|split; [done|]].
    + intros k q. by rewrite lookup_empty.
    + intros k _ _. by do 3 right.
  - destruct (getQueueStatus_spec now w os Hos Hclean)
      as (w' & st & -> & _ & _ & Hq & Hd & _); simpl.
    exists os, []. by rewrite app_nil_r.
  - destruct (timerFires_spec net now h w os Hos Hclean)
      as (w' & r & -> & Hq & Hd & [->|[[item ->]| ->]]); simpl in *.
    + exists os, []. done.
    + do 2 eexists. split; [exact Hq|]. split; [by apply attempted_clean|].
      split; [exact Hd|]. apply Hattempt.
    + do 2 eexists. split; [exact Hq|]. split; [by apply drained_clean|].
      split; [exact Hd|]. apply Hdrain.
  - destruct (onOnline_spec net now w os Hos Hclean) as (w' & -> & Hq & Hd & _); simpl.
    do 2 eexists. split; [exact Hq|]. split; [by apply drained_clean|].
    split; [exact Hd|]. apply Hdrain.
  - unfold onOffline, bind, log, modify. simpl.
    exists os, []. by rewrite app_nil_r.
Qed.

(** Relative to the limit that handleRetry reads, [item.maxRetries || 3],
    the retry count of a stored item stays bounded. *)
Lemma retried_bounded now item os :
  (∀ k q, os !! k = Some q → QueuedRequest.retryCount q ≤ effectiveMaxRetries q) →
  ∀ k q, (retried now item os).1 !! k = Some q →
         QueuedRequest.retryCount q ≤ effectiveMaxRetries q.
Proof.
  intros Hb k q. unfold retried.
  destruct (Z.leb_spec (effectiveMaxRetries item) (QueuedRequest.retryCount item)); simpl.
  - rewrite lookup_delete_Some. intros [_ Hk]. by eapply Hb.
  - rewrite lookup_insert_Some. intros [[_ <-]|[_ Hk]]; [|by eapply Hb].
    change (effectiveMaxRetries (stampQueued now None (incrementRetryCount item)))
      with (effectiveMaxRetries item).
    simpl. lia.
Qed.

Lemma attempted_bounded net now item os :
  (∀ k q, os !! k = Some q → QueuedRequest.retryCount q ≤ effectiveMaxRetries q) →
  ∀ k q, (attempted net now item os).1 !! k = Some q →
         QueuedRequest.retryCount q ≤ effectiveMaxRetries q.
Proof.
  intros Hb. unfold attempted.
  destruct (net (requestInit item)) as [response|]; [|by apply retried_bounded].
  destruct (ok response); [|by apply retried_bounded].
  intros k q. simpl. rewrite lookup_delete_Some. intros [_ Hk]. by eapply Hb.
Qed.

Lemma drained_bounded net now items os :
  (∀ k q, os !! k = Some q → QueuedRequest.retryCount q ≤ effectiveMaxRetries q) →
  ∀ k q, (drained net now items os).1 !! k = Some q →
         QueuedRequest.retryCount q ≤ effectiveMaxRetries q.
Proof.
  revert os. induction items as [|item rest IH]; intros os Hb; simpl; [done|].
  pose proof (attempted_bounded net now item os Hb) as H1.
  destruct (attempted net now item os) as [os1 evs1].
  specialize (IH os1 H1). by destruct (drained net now rest os1).
Qed.

(** *** The backoff schedule *)

Lemma multiplied_pow (base m : Z) (k : nat) :
  multiplied base m k = base * m ^ Z.of_nat k.
Proof.
  induction k as [|k IH]; simpl multiplied.
  - change (Z.of_nat 0) with 0. rewrite Z.pow_0_r. lia.
  - rewrite IH, Nat2Z.inj_succ, Z.pow_succ_r by lia. lia.
Qed.

(** From the sixth retry on the delay is the cap. *)
Lemma calculateRetryDelay_capped (n : Z) : 6 ≤ n → calculateRetryDelay n = 30000.
Proof.
  intros Hn. unfold calculateRetryDelay. simpl.
  apply Z.min_r.
  assert (2 ^ 5 ≤ 2 ^ (n - 1)) by (apply Z.pow_le_mono_r; lia).
  change (2 ^ 5) with 32 in *. lia.
Qed.

(** C4.  For a retry count [n >= 1] the delay computed by
    calculateRetryDelay is the backoff formula of the specification,
    min(baseDelay * backoffMultiplier^(n-1), maxDelay), taken at the default
    configuration (1000 ms, 2, 30000 ms); for the retry counts 1, 2 and 3
    it is 1000 ms, 2000 ms and 4000 ms. *)
Theorem retry_delay_backoff (n : Z) :
  1 ≤ n →
  calculateRetryDelay n = backoffDelay defaultRetryConfig n
  ∧ calculateRetryDelay n = Z.min (1000 * 2 ^ (n - 1)) 30000
  ∧ baseDelay defaultRetryConfig = 1000
  ∧ backoffMultiplier defaultRetryConfig = 2
  ∧ maxDelay defaultRetryConfig = 30000
  ∧ calculateRetryDelay 1 = 1000
  ∧ calculateRetryDelay 2 = 2000
  ∧ calculateRetryDelay 3 = 4000.
Proof.
  intros Hn. split; [|by repeat split].
  unfold calculateRetryDelay, backoffDelay.
  rewrite multiplied_pow, Z2Nat.id by lia. done.
Qed.

Lemma retry_delay_backoff_witness :
  calculateRetryDelay 4 = backoffDelay defaultRetryConfig 4
  ∧ calculateRetryDelay 4 = Z.min (1000 * 2 ^ (4 - 1)) 30000
  ∧ baseDelay defaultRetryConfig = 1000
  ∧ backoffMultiplier defaultRetryConfig = 2
  ∧ maxDelay defaultRetryConfig = 30000
  ∧ calculateRetryDelay 1 = 1000
  ∧ calculateRetryDelay 2 = 2000
  ∧ calculateRetryDelay 3 = 4000.
Proof. apply (retry_delay_backoff 4). lia. Defined.

(** *** The queue as a whole *)

Lemma noTTL_hasQueue w : noTTL w ↔ ∃ os, hasQueue w os ∧ clean os.
Proof.
  unfold noTTL, hasQueue, queueOf. split.
  - intros [[os Hos] Hclean]. rewrite Hos in Hclean. by exists os.
  - intros (os & Hos & Hclean). rewrite Hos. by split.
Qed.

(** C10.  Every entry point of the manager keeps the queue free of
    expiries: the records that addToQueue and handleRetry write are stored
    without a TTL, so no record of the queue has [expiresAt] set; get and
    getAll therefore return every queued record and purge none; and a
    record that is gone after an operation left by a successful replay
    (success event), by exhausting its retries (failure event), or by
    removeQueueItem or clearQueue. *)
Theorem queued_writes_carry_no_ttl (stringify : json → string) (net : Network)
    (now : Z) (op : Op) (w : World) :
  noTTL w →
  noTTL (run stringify net now op w)
  ∧ (∀ now' k q, queueOf (run stringify net now op w) !! k = Some q →
       QueuedRequest.expiresAt q = None
       ∧ get offlineQueue k now' (idb (run stringify net now op w))
         = (Return (Some q), Some (init (idb (run stringify net now op w))))
       ∧ ∃ l, getAll offlineQueue now' (idb (run stringify net now op w))
              = (Return l, Some (init (idb (run stringify net now op w))))
              ∧ q ∈ l)
  ∧ ∃ evs, dispatched (run stringify net now op w) = dispatched w ++ evs
           ∧ ∀ k, is_Some (queueOf w !! k) →
                  queueOf (run stringify net now op w) !! k = None →
                  leftBy op k evs.
Proof.
  intros (os & Hos & Hclean)%noTTL_hasQueue.
  destruct (run_spec stringify net now op w os Hos Hclean)
    as (os' & evs & Hos' & Hclean' & Hd & Hleft).
  rewrite (hasQueue_queueOf _ _ Hos), (hasQueue_queueOf _ _ Hos').
  split; [apply noTTL_hasQueue; by exists os'|]. split.
  - intros now' k q Hq. split; [by apply Hclean' in Hq as [? _]|]. split.
    + by rewrite (get_clean _ os' now' k Hos' Hclean'), Hq.
    + eexists. split; [by apply getAll_clean|].
      apply elem_of_inKeyOrder. by exists k.
  - by exists evs.
Qed.

Lemma queued_writes_carry_no_ttl_witness :
  let stringify := λ _ : json, "{}" in
  let down : Network := λ _, Throw (NetworkError "Failed to fetch") in
  let w := run stringify down 1000
             (AddToQueue "/api/donations" "POST" (Some (JObj [])) None
                 (Some QueuedRequest.donations)
                None "k3j9x2m1q")
             (newManager false None) in
  noTTL (run stringify down 2000 Online w)
  ∧ ∃ evs, dispatched (run stringify down 2000 Online w) = dispatched w ++ evs
           ∧ ∀ k, is_Some (queueOf w !! k) →
                  queueOf (run stringify down 2000 Online w) !! k = None →
                  leftBy Online k evs.
Proof.
  intros stringify down w.
  assert (noTTL (newManager false None)) as H0.
  { split; [by eexists|]. intros k q Hq. vm_compute in Hq. discriminate. }
  pose proof (queued_writes_carry_no_ttl stringify down 1000
                (AddToQueue "/api/donations" "POST" (Some (JObj [])) None
                 (Some QueuedRequest.donations)
                   None "k3j9x2m1q")
                (newManager false None) H0) as [H1 _].
  destruct (queued_writes_carry_no_ttl stringify down 2000 Online w H1) as (H2 & _ & H3).
  by split.
Defined.

(** C9, as stated, fails on the headers: the replay of an item whose
    headers carry no Content-Type is sent with one more header than the
    item has. *)
Lemma replay_adds_content_type :
  let item := QueuedRequest.mk "1000-k3j9x2m1q" "/api/donations" "POST" (Some "{}")
                {[ "Authorization" := "Bearer t" ]} 1000 0 (Some 3) QueuedRequest.donations None in
  req_headers (requestInit item) ≠ QueuedRequest.headers item
  ∧ req_headers (requestInit item) !! "Content-Type" = Some "application/json"
  ∧ QueuedRequest.headers item !! "Content-Type" = None.
Proof.
  intros item. split; [|by vm_compute].
  intros H. apply (f_equal (λ m : gmap string string, m !! "Content-Type")) in H.
  vm_compute in H. discriminate.
Qed.

(** C9 (amended).  An attempt sends one request: to the url of the item,
    with its method, with the headers of the item and, when the item has
    no Content-Type header, Content-Type: application/json in addition,
    and with the body of the item when that is not empty and the method is
    not GET (no body otherwise).  When the response is 2xx the item is
    removed from the store and a success event with the id, type
    (category), url and method of the item is dispatched. *)
Theorem replay_reissues_request (net : Network) (now : Z) (item : QueuedRequest.t)
    (w : World) (os : gmap string QueuedRequest.t) :
  hasQueue w os →
  ∃ w', processQueueItem net now item w = (Return tt, w')
        ∧ fetched w' = fetched w ++ [requestInit item]
        ∧ req_url (requestInit item) = QueuedRequest.url item
        ∧ req_method (requestInit item) = QueuedRequest.method item
        ∧ (∀ name, req_headers (requestInit item) !! name
                   = match QueuedRequest.headers item !! name with
                     | Some v => Some v
                     | None => if decide (name = "Content-Type")
                               then Some "application/json" else None
                     end)
        ∧ (∀ b, QueuedRequest.body item = Some b → b ≠ "" →
                QueuedRequest.method item ≠ "GET" →
                req_body (requestInit item) = Some b)
        ∧ (QueuedRequest.body item = None ∨ QueuedRequest.body item = Some ""
           ∨ QueuedRequest.method item = "GET" →
           req_body (requestInit item) = None)
        ∧ (req_body (requestInit item) = None
           ∨ req_body (requestInit item) = QueuedRequest.body item)
        ∧ ∀ response, net (requestInit item) = Return response →
                      200 ≤ status response ≤ 299 →
                      hasQueue w' (base.delete (QueuedRequest.id item) os)
                      ∧ dispatched w'
                        = dispatched w
                          ++ [offlineQueueSuccess (QueuedRequest.id item)
                                (QueuedRequest.type item) (QueuedRequest.url item)
                                (QueuedRequest.method item)].
Proof.
  intros Hos.
  destruct (processQueueItem_spec net now item w os Hos) as (w' & Hrun & Hq & Hd & Hf).
  exists w'. do 4 (split; [done|]). split; [|split; [|split; [|split]]].
  - intros name. unfold requestInit. simpl. rewrite lookup_union.
    destruct (QueuedRequest.headers item !! name) as [v|]; simpl.
    + match goal with |- Some _ ∪ ?o = _ => destruct o; reflexivity end.
    + rewrite (left_id None _), lookup_singleton. repeat case_decide; congruence.
  - intros b Hb Hne Hget. unfold requestInit. simpl. rewrite Hb. simpl.
    apply String.eqb_neq in Hne, Hget. by rewrite Hne, Hget.
  - intros Hnone. unfold requestInit. simpl.
    destruct Hnone as [-> | [-> | ->]]; [done|done|].
    by rewrite andb_false_r.
  - unfold requestInit. simpl.
    destruct (truthyStr (QueuedRequest.body item) && _); by auto.
  - intros response Hnet [Hlo Hhi]. unfold attempted in Hq, Hd. rewrite Hnet in Hq, Hd.
    assert (ok response = true) as Hok
      by (unfold ok; apply andb_true_intro; split; by apply Z.leb_le).
    rewrite Hok in Hq, Hd. done.
Qed.

Lemma replay_reissues_request_witness :
  let up : Network := λ _, Return (mkResponse 201 "Created" ∅ (BodyText "")) in
  let item := QueuedRequest.mk "1000-k3j9x2m1q" "/api/donations" "POST" (Some "{}")
                {[ "Authorization" := "Bearer t" ]} 1000 0 (Some 3) QueuedRequest.donations None in
  ∃ w', processQueueItem up 2000 item (newManager true None) = (Return tt, w')
        ∧ fetched w' = [requestInit item]
        ∧ hasQueue w' ∅
        ∧ dispatched w' = [offlineQueueSuccess "1000-k3j9x2m1q" QueuedRequest.donations
                             "/api/donations" "POST"].
Proof.
  intros up item.
  destruct (replay_reissues_request up 2000 item (newManager true None) ∅)
    as (w' & Hrun & Hf & _ & _ & _ & _ & _ & _ & Hok); [reflexivity|].
  destruct (Hok (mkResponse 201 "Created" ∅ (BodyText ""))) as [Hq Hd];
    [reflexivity|simpl; lia|].
  exists w'. rewrite delete_empty in Hq. by repeat split.
Defined.

(** C2 (defect in the code).  An item enqueued with [maxRetries: 0] is
    stored with [maxRetries = 0]; when its first replay fails, handleRetry
    reads [item.maxRetries || 3] as 3, increments [retryCount] to 1 and
    stores the item again: the store holds an item with
    [retryCount > maxRetries], and no failure is signalled. *)
Theorem zero_maxRetries_is_exceeded :
  let stringify := λ _ : json, "{}" in
  let down : Network := λ _, Throw (NetworkError "Failed to fetch") in
  let w1 := run stringify down 1000
              (AddToQueue "/api/donations" "POST" (Some (JObj [])) None
                 (Some QueuedRequest.donations)
                 (Some (mkPartial (Some 0) None None None)) "k3j9x2m1q")
              (newManager false None) in
  let w2 := run stringify down 2000 Online w1 in
  (QueuedRequest.retryCount <$> queueOf w1 !! "1000-k3j9x2m1q") = Some 0
  ∧ (QueuedRequest.maxRetries <$> queueOf w1 !! "1000-k3j9x2m1q") = Some (Some 0)
  ∧ (QueuedRequest.retryCount <$> queueOf w2 !! "1000-k3j9x2m1q") = Some 1
  ∧ (QueuedRequest.maxRetries <$> queueOf w2 !! "1000-k3j9x2m1q") = Some (Some 0)
  ∧ dispatched w2 = [].
Proof. vm_compute. by repeat split. Qed.

End OfflineQueueFacts.

(** ** The fetch interceptor *)

Module ServiceWorkerFacts.
Import IndexedDB ServiceWorker IndexedDBFacts.

Lemma prefix_app (a b s : string) :
  String.prefix (a +:+ b) s = true → String.prefix a s = true.
Proof.
  revert s. induction a as [|c a IH]; intros s; simpl; [by destruct s|].
  destruct s as [|c' s]; simpl; [done|].
  destruct (Ascii.ascii_dec c c'); [apply IH|done].
Qed.

Lemma auth_is_api (p : string) :
  startsWith p "/api/auth/" = true → startsWith p "/api/" = true.
Proof. unfold startsWith. apply (prefix_app "/api/" "auth/"). Qed.

(** The first fetch of the request of an event reaches the network. *)
Lemma fetch_fresh net request s :
  bodyUsed s = false →
  fetch net request s
  = (net request, mkSW (idb s) (caches s) (attempts s ++ [request]) (hasBody request)).
Proof. intros Hfresh. unfold fetch. by rewrite Hfresh. Qed.

(** C1, as stated, fails at the fetch listener: when the network attempt
    of an auth request fails, handleApiRequest rethrows the failure, and
    the listener answers the page with a response it builds itself
    (status 503) in place of the failure. *)
Lemma auth_failure_is_answered_503 :
  let request := mkRequest "https://masjeed.example/api/auth/me" "/api/auth/me" "GET"
                   {[ "authorization" := "Bearer t" ]} None "cors" in
  let down : Net := λ _, Throw (NetworkError "Failed to fetch") in
  let s := mkSW None [] [] false in
  (handleApiRequest down 1000 "k3j9x2m1q" request s).1
  = Throw (NetworkError "Failed to fetch")
  ∧ ∃ answer, onFetch down 1000 "k3j9x2m1q" request = RespondWith answer
              ∧ (answer s).1 = Return authUnavailable
              ∧ (answer s).1 ≠ Throw (NetworkError "Failed to fetch").
Proof.
  intros request down s. split; [by vm_compute|].
  eexists. split; [reflexivity|]. split; [by vm_compute|]. by vm_compute.
Qed.

(** C1 (amended).  For a request to an auth endpoint the interceptor makes
    exactly one network attempt and touches neither the caches nor the
    database.  handleApiRequest passes the outcome of the attempt on
    unchanged, a failure included; the fetch listener passes a response on
    unchanged and answers a failure with a 503 response of its own whose
    JSON body has [offline: false] and no [queued] property.  The page
    never sees [offline: true], a queued body or a cached body. *)
Theorem auth_requests_go_to_the_network (net : Net) (now : Z) (random : string)
    (request : Request) (s : SW) :
  startsWith (pathname request) "/api/auth/" = true →
  bodyUsed s = false →
  handleApiRequest net now random request s
  = (net request, mkSW (idb s) (caches s) (attempts s ++ [request]) (hasBody request))
  ∧ ∃ answer, onFetch net now random request = RespondWith answer
      ∧ answer s
        = (match net request with
           | Return response => Return response
           | Throw _ => Return authUnavailable
           end,
           mkSW (idb s) (caches s) (attempts s ++ [request]) (hasBody request))
      ∧ status authUnavailable = 503
      ∧ bodyProp "offline" authUnavailable = Some (JBool false)
      ∧ bodyProp "queued" authUnavailable = None.
Proof.
  intros Hauth Hfresh.
  assert (handleApiRequest net now random request s
          = (net request,
             mkSW (idb s) (caches s) (attempts s ++ [request]) (hasBody request))) as Hrun.
  { unfold handleApiRequest, isAuthEndpoint. rewrite Hauth.
    unfold try_catch, throw. rewrite (fetch_fresh _ _ _ Hfresh). by destruct (net request). }
  split; [exact Hrun|].
  unfold onFetch. rewrite (auth_is_api _ Hauth), Hauth.
  eexists. split; [reflexivity|]. split; [|done].
  unfold try_catch. rewrite Hrun. by destruct (net request).
Qed.

Lemma auth_requests_go_to_the_network_witness :
  let request := mkRequest "https://masjeed.example/api/auth/me" "/api/auth/me" "GET"
                   {[ "authorization" := "Bearer t" ]} None "cors" in
  let down : Net := λ _, Throw (NetworkError "Failed to fetch") in
  handleApiRequest down 1000 "k3j9x2m1q" request (mkSW None [] [] false)
  = (Throw (NetworkError "Failed to fetch"), mkSW None [] [request] false)
  ∧ ∃ answer, onFetch down 1000 "k3j9x2m1q" request = RespondWith answer
              ∧ answer (mkSW None [] [] false)
                = (Return authUnavailable, mkSW None [] [request] false).
Proof.
  intros request down.
  destruct (auth_requests_go_to_the_network down 1000 "k3j9x2m1q" request
              (mkSW None [] [] false))
    as (Hrun & answer & Hfetch & Hanswer & _); [reflexivity|reflexivity|].
  split; [exact Hrun|]. by exists answer.
Defined.

(** The item that the write branch puts into the queue. *)
Lemma addToOfflineQueue_fresh data now random s os :
  objectStore offlineQueue (open onupgradeneeded (idb s)) = Some os →
  os !! OfflineQueue.newId now random = None →
  addToOfflineQueue data now random s
  = (Return (Some (OfflineQueue.newId now random)),
     mkSW (Some (setObjectStore offlineQueue
                   (<[OfflineQueue.newId now random := queueItem data now random]> os)
                   (open onupgradeneeded (idb s))))
          (caches s) (attempts s) (bodyUsed s)).
Proof.
  intros Hos Hfresh. unfold addToOfflineQueue, bind, try_catch, openIndexedDB.
  cbv beta iota zeta. rewrite Hos. unfold ret. cbv beta iota zeta.
  change (QueuedRequest.id (queueItem data now random)) with (OfflineQueue.newId now random).
  rewrite Hfresh. unfold setDatabase, modify. done.
Qed.

(** A write that succeeds on the network is answered by the network. *)
Lemma write_success net now random request s response :
  isAuthEndpoint request = false →
  isWriteOperation request = true →
  bodyUsed s = false →
  net request = Return response →
  ok response = true →
  handleApiRequest net now random request s
  = (Return response,
     mkSW (idb s) (caches s) (attempts s ++ [request]) (hasBody request)).
Proof.
  intros Hauth Hwrite Hfresh Hnet Hok. unfold handleApiRequest. rewrite Hauth, Hwrite.
  unfold try_catch, bind. rewrite (fetch_fresh _ _ _ Hfresh). by rewrite Hnet, Hok.
Qed.

(** A failed write without a body to read, a DELETE or a request that has
    none, is queued and answered 202. *)
Lemma write_failure_without_body net now random request s os :
  isAuthEndpoint request = false →
  isWriteOperation request = true →
  bodyUsed s = false →
  (∀ response, net request = Return response → ok response = false) →
  objectStore offlineQueue (open onupgradeneeded (idb s)) = Some os →
  os !! OfflineQueue.newId now random = None →
  method request = "DELETE" ∨ body request = None →
  handleApiRequest net now random request s
  = (Return queuedResponse,
     mkSW (Some (setObjectStore offlineQueue
                   (<[OfflineQueue.newId now random :=
                        QueuedRequest.mk (OfflineQueue.newId now random) (url request)
                          (method request)
                          (if String.eqb (method request) "DELETE" then None else Some "")
                          (headers request) now 0 None
                          (getRequestType (pathname request)) None]> os)
                   (open onupgradeneeded (idb s))))
          (caches s) (attempts s ++ [request]) (hasBody request)).
Proof.
  intros Hauth Hwrite Hfresh Hfail Hos Hid Hbody.
  unfold handleApiRequest. rewrite Hauth, Hwrite.
  unfold try_catch, bind at 1. rewrite (fetch_fresh _ _ _ Hfresh).
  assert ((let* requestBody :=
             if negb (String.eqb (method request) "DELETE")
             then let* t := requestText request in ret (Some t)
             else ret None in
           addToOfflineQueue
             (mkQueueData (getRequestType (pathname request)) (url request)
                (method request) requestBody (headers request)) now random ;;;
           ret queuedResponse)
            (mkSW (idb s) (caches s) (attempts s ++ [request]) (hasBody request))
          = (Return queuedResponse,
             mkSW (Some (setObjectStore offlineQueue
                           (<[OfflineQueue.newId now random :=
                                QueuedRequest.mk (OfflineQueue.newId now random)
                                  (url request) (method request)
                                  (if String.eqb (method request) "DELETE"
                                   then None else Some "")
                                  (headers request) now 0 None
                                  (getRequestType (pathname request)) None]> os)
                           (open onupgradeneeded (idb s))))
                  (caches s) (attempts s ++ [request]) (hasBody request))) as Hqueue.
  { destruct (String.eqb_spec (method request) "DELETE") as [Hdel|Hdel]; cbn [negb].
    - unfold bind at 1, ret at 1. unfold bind.
      by rewrite (addToOfflineQueue_fresh _ now random
                    (mkSW (idb s) (caches s) (attempts s ++ [request]) (hasBody request))
                    os Hos Hid).
    - destruct Hbody as [Hdel'|Hnone]; [done|].
      unfold bind at 1, bind at 1, requestText, hasBody. rewrite Hnone, andb_false_r.
      unfold ret at 1. unfold bind.
      by rewrite (addToOfflineQueue_fresh _ now random
                    (mkSW (idb s) (caches s) (attempts s ++ [request]) false)
                    os Hos Hid). }
  destruct (net request) as [response|e] eqn:Hnet; [|exact Hqueue].
  rewrite (Hfail response eq_refl). unfold throw. exact Hqueue.
Qed.

(** A failed write (other than DELETE) that carries a body is not queued:
    reading the body after the attempt throws, and the exception is the
    outcome of handleApiRequest. *)
Lemma write_failure_with_body net now random request s :
  isAuthEndpoint request = false →
  isWriteOperation request = true →
  bodyUsed s = false →
  (∀ response, net request = Return response → ok response = false) →
  method request ≠ "DELETE" →
  hasBody request = true →
  handleApiRequest net now random request s
  = (Throw (TypeError "Request body is already used"),
     mkSW (idb s) (caches s) (attempts s ++ [request]) true).
Proof.
  intros Hauth Hwrite Hfresh Hfail Hdel Hbody.
  unfold handleApiRequest. rewrite Hauth, Hwrite.
  unfold try_catch, bind at 1. rewrite (fetch_fresh _ _ _ Hfresh), Hbody.
  apply String.eqb_neq in Hdel.
  assert ((let* requestBody :=
             if negb (String.eqb (method request) "DELETE")
             then let* t := requestText request in ret (Some t)
             else ret None in
           addToOfflineQueue
             (mkQueueData (getRequestType (pathname request)) (url request)
                (method request) requestBody (headers request)) now random ;;;
           ret queuedResponse)
            (mkSW (idb s) (caches s) (attempts s ++ [request]) true)
          = (Throw (TypeError "Request body is already used"),
             mkSW (idb s) (caches s) (attempts s ++ [request]) true)) as Hthrow.
  { rewrite Hdel. cbn [negb]. unfold bind, requestText. simpl. by rewrite Hbody. }
  destruct (net request) as [response|e] eqn:Hnet; [|exact Hthrow].
  rewrite (Hfail response eq_refl). unfold throw. exact Hthrow.
Qed.

(** C3 (defect in the code).  A donation is posted with a JSON body while
    the network is down.  [fetch(request)] uses up the body of the request
    and rejects; in the catch clause [request.clone()] throws a TypeError on
    the used body, before addToOfflineQueue is reached.  The exception
    leaves handleApiRequest, the fetch listener rethrows it for a non-auth
    path, and the page sees a rejection: nothing is queued, and no 202
    response is returned. *)
Theorem failed_write_with_body_is_not_queued :
  let request := mkRequest "https://masjeed.example/api/donations" "/api/donations" "POST"
                   {[ "content-type" := "application/json" ]} (Some "{}") "cors" in
  let down : Net := λ _, Throw (NetworkError "Failed to fetch") in
  let s := mkSW None [] [] false in
  isWriteOperation request = true
  ∧ isAuthEndpoint request = false
  ∧ ∃ answer, onFetch down 1000 "k3j9x2m1q" request = RespondWith answer
              ∧ answer s
                = (Throw (TypeError "Request body is already used"),
                   mkSW None [] [request] true).
Proof.
  intros request down s. split; [by vm_compute|]. split; [by vm_compute|].
  eexists. split; [reflexivity|].
  unfold try_catch.
  rewrite (write_failure_with_body down 1000 "k3j9x2m1q" request s);
    [reflexivity | by vm_compute | by vm_compute | reflexivity
    | by intros response [=] | by intros [=] | reflexivity].
Qed.

End ServiceWorkerFacts.

(** ** Connectivity *)

Module AuthStoreFacts.
Import IndexedDB AuthStore OfflineQueue.

(** processQueue does nothing while offline, except for a console message. *)
Lemma processQueue_offline net now w :
  isOnline w = false →
  processQueue net now w
  = (Return tt,
     mkWorld (idb w) (isOnline w) (retryTimeouts w) (timers w) (nextTimer w)
             (dispatched w) (fetched w) (console w ++ [CannotProcessWhileOffline])).
Proof.
  intros Hoff. unfold processQueue, bind, gets, log, modify.
  rewrite Hoff. simpl. by rewrite Hoff.
Qed.

(** syncOfflineData does nothing while a sync is in progress, or offline. *)
Lemma syncOfflineData_guarded net now p :
  AuthStore.isOnline (offline p) = false ∨ syncInProgress (offline p) = true →
  syncOfflineData net now p = (Return tt, p).
Proof.
  intros Hguard. unfold syncOfflineData, bind, gets.
  by destruct Hguard as [-> | ->]; rewrite ?orb_true_r.
Qed.

(** More fuel does not change what the event loop arrives at. *)
Lemma eventLoop_more {S} (n m : nat) (pending : list (EventLoop.Job S)) (s s' : S) :
  EventLoop.eventLoop n pending s = Some s' →
  (n ≤ m)%nat →
  EventLoop.eventLoop m pending s = Some s'.
Proof.
  revert m pending s. induction n as [|n IH]; intros m pending s Hrun Hle.
  - destruct pending as [|[resume] rest]; [|done].
    by destruct m.
  - destruct pending as [|[resume] rest].
    + by destruct m.
    + destruct m as [|m]; [lia|]. simpl in *.
      destruct (resume s) as [js s1]. apply IH; [done|lia].
Qed.

(** *** A function that runs alone *)

Section Alone.
Context {S : Type}.
Implicit Types (k : EventLoop.Async S) (s : S).

Lemma runs_finished s : EventLoop.runs EventLoop.finished s s.
Proof. by exists 0%nat. Qed.

Lemma runs_exec {A} (m : Task S A) k s s' :
  EventLoop.runs k (m s).2 s' → EventLoop.runs (EventLoop.exec m k) s s'.
Proof. done. Qed.

Lemma runs_read {A} (f : S → A) (k : A → EventLoop.Async S) s s' :
  EventLoop.runs (k (f s)) s s' → EventLoop.runs (EventLoop.read f k) s s'.
Proof. done. Qed.

Lemma runs_await {A} (op : Task S A) (k : completion A → EventLoop.Async S) s s' :
  EventLoop.runs (k (op s).1) (op s).2 s' → EventLoop.runs (EventLoop.await op k) s s'.
Proof.
  intros [n Hn]. exists (Datatypes.S n).
  unfold EventLoop.dispatch, EventLoop.await in *. simpl.
  destruct (op s) as [r s2]. simpl in *.
  by destruct (k r s2) as [js s1].
Qed.

End Alone.

Local Abbreviation alone := (λ (A : Type) (m : Task World A), m).

Lemma scheduleRetry_returns itemId delay w : (scheduleRetry itemId delay w).1 = Return tt.
Proof.
  unfold scheduleRetry, bind, gets, clearTimeout, setTimeout, modify, log, ret.
  by destruct (retryTimeouts w !! itemId).
Qed.

Lemma removeFromQueue_alone itemId (k : completion unit → EventLoop.Async World) w w' :
  EventLoop.runs (k (removeFromQueue itemId w).1) (removeFromQueue itemId w).2 w' →
  EventLoop.runs (Interleaved.removeFromQueue alone itemId k) w w'.
Proof.
  intros Hk. unfold Interleaved.removeFromQueue. apply runs_await.
  unfold removeFromQueue, bind in Hk.
  destruct (db (delete offlineQueue itemId) w) as [[[]|e] w1]; simpl in *; [|done].
  apply runs_exec. unfold bind, gets in *. simpl in *.
  destruct (retryTimeouts w1 !! itemId); simpl in *; done.
Qed.

Lemma handleRetry_alone now item (k : completion unit → EventLoop.Async World) w w' :
  EventLoop.runs (k (handleRetry now item w).1) (handleRetry now item w).2 w' →
  EventLoop.runs (Interleaved.handleRetry alone now item k) w w'.
Proof.
  intros Hk. unfold Interleaved.handleRetry, handleRetry in *.
  destruct (effectiveMaxRetries item <=? QueuedRequest.retryCount item).
  - apply runs_exec. apply removeFromQueue_alone.
    unfold bind, log, modify in Hk. simpl in *.
    destruct (removeFromQueue _ _) as [[[]|e] w1]; simpl in *; done.
  - apply runs_await. unfold bind in Hk.
    destruct (db _ w) as [[[]|e] w1]; simpl in *; [|done].
    apply runs_exec.
    by rewrite scheduleRetry_returns in Hk.
Qed.

Lemma processQueueItem_alone net now item (k : completion unit → EventLoop.Async World) w w' :
  EventLoop.runs (k (processQueueItem net now item w).1) (processQueueItem net now item w).2 w' →
  EventLoop.runs (Interleaved.processQueueItem alone net now item k) w w'.
Proof.
  intros Hk. unfold Interleaved.processQueueItem.
  apply runs_exec, runs_await.
  unfold processQueueItem, try_catch, bind, executeRequest, fetch in Hk.
  unfold Interleaved.answers, Interleaved.sends, modify. simpl in *.
  destruct (net (requestInit item)) as [response|error]; simpl in *.
  - destruct (ok response); simpl in *.
    + apply runs_exec, removeFromQueue_alone. unfold log, modify in *. simpl in *.
      destruct (removeFromQueue _ _) as [[[]|e] w1]; simpl in *.
      * by apply runs_exec.
      * by apply runs_exec, handleRetry_alone.
    + by apply runs_exec, handleRetry_alone.
  - by apply runs_exec, handleRetry_alone.
Qed.

Lemma forOf_alone net now items (k : completion unit → EventLoop.Async World) w w' :
  EventLoop.runs (k (for_of items (processQueueItem net now) w).1)
                 (for_of items (processQueueItem net now) w).2 w' →
  EventLoop.runs
    (EventLoop.forOf items (Interleaved.processQueueItem alone net now) k) w w'.
Proof.
  revert w. induction items as [|item items IH]; intros w Hk; [done|].
  simpl in *. apply processQueueItem_alone. unfold bind in Hk.
  destruct (processQueueItem net now item w) as [[[]|e] w1]; simpl in *; [|done].
  by apply IH.
Qed.

(** Called alone, the processQueue of [Interleaved] arrives where the
    processQueue of [OfflineQueue] does. *)
Lemma processQueue_alone net now w :
  EventLoop.runs (Interleaved.processQueue alone net now EventLoop.finished) w
                 (processQueue net now w).2.
Proof.
  unfold Interleaved.processQueue, processQueue, bind, gets. apply runs_read. simpl.
  destruct (isOnline w); simpl; [|apply runs_exec, runs_finished].
  apply runs_await. unfold try_catch, bind.
  destruct (db (getAll offlineQueue now) w) as [[queueItems|e] w1]; simpl;
    [|apply runs_exec, runs_finished].
  apply runs_exec, forOf_alone. change ((log (Processing (length queueItems)) w1).2)
    with (mkWorld (idb w1) (isOnline w1) (retryTimeouts w1) (timers w1) (nextTimer w1)
            (dispatched w1) (fetched w1) (console w1 ++ [Processing (length queueItems)])).
  destruct (for_of _ _ _) as [[[]|e] w2]; simpl.
  - apply runs_finished.
  - apply runs_exec, runs_finished.
Qed.

(** C5 (defect in the code).  One donation is queued while offline and the
    network stays down.  A single [online] event runs the listener of the
    queue manager, which calls processQueue unguarded, and the listener of
    App, which reaches processQueue through syncOfflineData.  Both calls
    wait for the list of the queue before either has sent anything: two
    drains start, each reads the request with a retry count of 0, each
    sends it, and each stores it back with a retry count of 1; the second
    retry timer replaces the first.  With [syncInProgress] set,
    syncOfflineData is skipped but the listener of the manager still
    starts a drain. *)
Theorem online_event_drains_twice :
  let stringify := λ _ : json, "{}" in
  let down : Network := λ _, Throw (NetworkError "Failed to fetch") in
  let w := run stringify down 1000
             (AddToQueue "/api/donations" "POST" (Some (JObj [])) None
                (Some QueuedRequest.donations)
                None "k3j9x2m1q")
             (newManager false None) in
  let idle := mkPage w (mkOffline false 1 None false) in
  let syncing := mkPage w (mkOffline true 1 None true) in
  drainsStarted idle = 0%nat
  ∧ (QueuedRequest.retryCount <$> queueOf w !! "1000-k3j9x2m1q") = Some 0
  ∧ (∃ p, Interleaved.windowOnline 20 down 2000 idle = Some p
          ∧ drainsStarted p = 2%nat
          ∧ fetched (manager p)
            = [mkHttpRequest "/api/donations" "POST"
                 {[ "Content-Type" := "application/json" ]} (Some "{}");
               mkHttpRequest "/api/donations" "POST"
                 {[ "Content-Type" := "application/json" ]} (Some "{}")]
          ∧ (QueuedRequest.retryCount <$> queueOf (manager p) !! "1000-k3j9x2m1q") = Some 1
          ∧ Interleaved.pendingRetries (manager p) = [("1000-k3j9x2m1q", 1000)]
          ∧ offline p = mkOffline true 1 (Some 2000) false)
  ∧ syncInProgress (offline syncing) = true
  ∧ (∃ p, Interleaved.windowOnline 20 down 2000 syncing = Some p
          ∧ drainsStarted p = 1%nat
          ∧ length (fetched (manager p)) = 1%nat
          ∧ (QueuedRequest.retryCount <$> queueOf (manager p) !! "1000-k3j9x2m1q") = Some 1).
Proof.
  cbv zeta. split; [by vm_compute|]. split; [by vm_compute|].
  split; [|split; [by vm_compute|]].
  - eexists. split; [vm_compute; reflexivity|]. by vm_compute.
  - eexists. split; [vm_compute; reflexivity|]. by vm_compute.
Qed.

End AuthStoreFacts.

(** ** More on the durable store *)

Module StorageFacts.
Import IndexedDB OfflineStorage IndexedDBFacts.

Lemma objectStore_other {A B} (T : StoreName A) (T' : StoreName B) s db :
  storeLabel T' ≠ storeLabel T →
  objectStore T' (setObjectStore T s db) = objectStore T' db.
Proof. by destruct T, T'. Qed.

Lemma get_found {A} (T : StoreName A) id now idb os :
  objectStore T (init idb) = Some os →
  get T id now idb
  = match os !! id with
    | Some r => if expired now (expiresAtOf T r)
                then (Return None, Some (setObjectStore T (base.delete id os) (init idb)))
                else (Return (Some r), Some (init idb))
    | None => (Return None, Some (init idb))
    end.
Proof.
  intros Hos. unfold get, bind at 1. rewrite (transaction_found _ _ _ Hos).
  destruct (os !! id) as [r|]; [|done].
  destruct (expired now (expiresAtOf T r)); [|done].
  unfold bind, detached. by rewrite (delete_found T id (Some (init idb)) os Hos).
Qed.

Lemma clear_found {A} (T : StoreName A) idb os :
  objectStore T (init idb) = Some os →
  clear T idb = (Return tt, Some (setObjectStore T ∅ (init idb))).
Proof.
  intros Hos. unfold clear, bind. by rewrite (transaction_found _ _ _ Hos).
Qed.

(** X1.  delete removes the record: a get after it finds nothing, the other
    records stay, and deleting an id that is absent succeeds and changes
    nothing. *)
Theorem delete_then_get {A} (T : StoreName A) (id : string) (now : Z) (idb : IDB)
    (os : gmap string A) :
  objectStore T (init idb) = Some os →
  ∃ db', delete T id idb = (Return tt, Some db')
         ∧ get T id now (Some db') = (Return None, Some db')
         ∧ objectStore T db' = Some (base.delete id os)
         ∧ (os !! id = None → db' = init idb).
Proof.
  intros Hos. eexists. split; [by apply delete_found|].
  split; [|split; [by apply objectStore_set|]].
  - rewrite (get_found T id now (Some _) _ (objectStore_set T _ _)).
    by rewrite lookup_delete_eq.
  - intros Habsent. rewrite delete_id by done. by apply setObjectStore_same.
Qed.

Lemma delete_then_get_witness :
  ∃ db', delete events "current" None = (Return tt, Some db')
         ∧ get events "current" 1000 (Some db') = (Return None, Some db')
         ∧ objectStore events db' = Some (base.delete "current" ∅)
         ∧ ((∅ : gmap string StoredData.t) !! "current" = None → db' = init None).
Proof. apply (delete_then_get events "current" 1000 None ∅). reflexivity. Defined.

(** X2.  clear empties its collection and no other: afterwards getAll is
    empty and every get finds nothing there, while the other collections of
    the database are as before. *)
Theorem clear_empties_one_collection {A} (T : StoreName A) (now : Z) (idb : IDB)
    (os : gmap string A) :
  objectStore T (init idb) = Some os →
  ∃ db', clear T idb = (Return tt, Some db')
         ∧ getAll T now (Some db') = (Return [], Some db')
         ∧ (∀ id, get T id now (Some db') = (Return None, Some db'))
         ∧ ∀ B (T' : StoreName B), storeLabel T' ≠ storeLabel T →
             objectStore T' db' = objectStore T' (init idb).
Proof.
  intros Hos. eexists. split; [exact (clear_found T idb os Hos)|].
  split; [|split].
  - rewrite (getAll_found T now (Some _) ∅ (objectStore_set T _ _)).
    rewrite inKeyOrder_empty. simpl. by rewrite setObjectStore_twice.
  - intros id. rewrite (get_found T id now (Some _) ∅ (objectStore_set T _ _)).
    by rewrite lookup_empty.
  - intros B T' Hne. by apply objectStore_other.
Qed.

Lemma clear_empties_one_collection_witness :
  let r := StoredData.mk "current" JNull 0 None in
  let idb := Some (setObjectStore prayerTimes {["current" := r]}
                     (setObjectStore events {["current" := r]} (init None))) in
  ∃ db', clear events idb = (Return tt, Some db')
         ∧ getAll events 1000 (Some db') = (Return [], Some db')
         ∧ objectStore prayerTimes db' = Some {["current" := r]}.
Proof.
  intros r idb.
  destruct (clear_empties_one_collection events 1000 idb {["current" := r]})
    as (db' & Hclear & Hall & _ & Hother); [reflexivity|].
  exists db'. split; [exact Hclear|]. split; [exact Hall|].
  rewrite (Hother _ prayerTimes); [reflexivity|by vm_compute].
Defined.

(** X3.  On a collection that the database does not have, store, get,
    getAll, delete and clear all reject with NotFoundError; none of them
    creates the collection or changes the database. *)
Theorem missing_collection_rejects {A} (T : StoreName A) (data : A)
    (ttlMinutes : option Z) (id : string) (now : Z) (idb : IDB) :
  objectStore T (init idb) = None →
  store T data ttlMinutes now idb = (Throw NotFoundError, Some (init idb))
  ∧ get T id now idb = (Throw NotFoundError, Some (init idb))
  ∧ getAll T now idb = (Throw NotFoundError, Some (init idb))
  ∧ delete T id idb = (Throw NotFoundError, Some (init idb))
  ∧ clear T idb = (Throw NotFoundError, Some (init idb)).
Proof.
  intros Hmissing.
  unfold store, get, getAll, delete, clear, bind.
  by rewrite (transaction_missing _ _ Hmissing).
Qed.

Lemma missing_collection_rejects_witness :
  get userData "currentUser" 1000 None = (Throw NotFoundError, Some (init None))
  ∧ getAll userData 1000 None = (Throw NotFoundError, Some (init None)).
Proof.
  destruct (missing_collection_rejects userData (StoredData.mk "currentUser" JNull 0 None)
              None "currentUser" 1000 None) as (_ & Hget & Hall & _); [reflexivity|].
  by split.
Defined.

(** X4.  getAll returns the unexpired records and leaves exactly those in
    the collection: each record of the result is still stored, and each
    record that is stored afterwards was stored before, is unexpired and is
    in the result. *)
Theorem getAll_keeps_the_unexpired {A} (T : StoreName A) (now : Z) (idb : IDB)
    (os : gmap string A) :
  objectStore T (init idb) = Some os →
  keyed T os →
  ∃ l os', getAll T now idb = (Return l, Some (setObjectStore T os' (init idb)))
           ∧ (∀ k r, os' !! k = Some r
                     ↔ os !! k = Some r ∧ expired now (expiresAtOf T r) = false)
           ∧ (∀ r, r ∈ l ↔ ∃ k, os' !! k = Some r).
Proof.
  intros Hos Hkeyed. do 2 eexists. split; [by apply getAll_found|].
  assert (∀ k r, foldl (λ m item, base.delete (keyOf T item) m) os
                   (filter (λ item, expired now (expiresAtOf T item) = true)
                           (inKeyOrder os)) !! k = Some r
                 ↔ os !! k = Some r ∧ expired now (expiresAtOf T r) = false) as Hchar.
  { intros k r. rewrite lookup_purged. case_bool_decide as Hin.
    - split; [done|]. intros [Hk Hvalid]. exfalso.
      apply list_elem_of_fmap in Hin as (r' & -> & Hr').
      apply list_elem_of_filter in Hr' as [Hexp Hr'].
      apply elem_of_inKeyOrder in Hr' as [k' Hr''].
      rewrite (Hkeyed _ _ Hr'') in Hk. congruence.
    - split; [|by intros [? _]]. intros Hk. split; [done|].
      destruct (expired now (expiresAtOf T r)) eqn:Hexp; [|done]. exfalso. apply Hin.
      rewrite <-(Hkeyed _ _ Hk). apply list_elem_of_fmap_2.
      apply list_elem_of_filter. split; [done|].
      apply elem_of_inKeyOrder. by exists k. }
  split; [exact Hchar|]. intros r. split.
  - intros Hr. apply list_elem_of_filter in Hr as [Hvalid Hr].
    apply elem_of_inKeyOrder in Hr as [k Hr']. exists k. by apply Hchar.
  - intros [k Hk]. apply Hchar in Hk as [Hk Hvalid].
    apply list_elem_of_filter. split; [done|].
    apply elem_of_inKeyOrder. by exists k.
Qed.

Lemma getAll_keeps_the_unexpired_witness :
  let old := StoredData.mk "a" JNull 0 (Some 500) in
  let new := StoredData.mk "b" JNull 0 (Some 5000) in
  let os : gmap string StoredData.t := {["a" := old; "b" := new]} in
  let idb := Some (setObjectStore events os (init None)) in
  ∃ l os', getAll events 1000 idb = (Return l, Some (setObjectStore events os' (init idb)))
           ∧ os' !! "a" = None ∧ os' !! "b" = Some new ∧ new ∈ l.
Proof.
  intros old new os idb.
  destruct (getAll_keeps_the_unexpired events 1000 idb os) as (l & os' & Hrun & Hchar & Hl).
  - reflexivity.
  - intros k r Hk. simpl.
    apply lookup_insert_Some in Hk as [[<- <-]|[_ Hk]]; [done|].
    apply lookup_singleton_Some in Hk as [<- <-]. done.
  - exists l, os'. split; [exact Hrun|].
    assert (os' !! "b" = Some new) as Hb by (apply Hchar; by vm_compute).
    split; [|split; [exact Hb|apply Hl; by exists "b"]].
    destruct (os' !! "a") as [r|] eqn:Ha; [|done].
    apply Hchar in Ha as [Ha Hvalid]. vm_compute in Ha. injection Ha as <-.
    by vm_compute in Hvalid.
Defined.


(** X5.  Puts compose like updates of a map: a second put under the same
    id replaces the first altogether, and puts under different ids can be
    done in either order. *)
Theorem puts_compose {A} (T : StoreName A) (a b : A) (ttla ttlb : option Z)
    (nowa nowb : Z) (idb : IDB) :
  contains T (init idb) = true →
  (keyOf T a = keyOf T b →
   (store T a ttla nowa ;;; store T b ttlb nowb) idb = store T b ttlb nowb idb)
  ∧ (keyOf T a ≠ keyOf T b →
     (store T a ttla nowa ;;; store T b ttlb nowb) idb
     = (store T b ttlb nowb ;;; store T a ttla nowa) idb).
Proof.
  intros Hc. unfold contains in Hc. apply bool_decide_eq_true_1 in Hc as [os Hos].
  unfold bind.
  rewrite (store_found T a ttla nowa idb os Hos), (store_found T b ttlb nowb idb os Hos).
  rewrite (store_found T b ttlb nowb (Some _) _ (objectStore_set T _ _)).
  rewrite (store_found T a ttla nowa (Some _) _ (objectStore_set T _ _)).
  rewrite !init_open, !setObjectStore_twice. split.
  - intros ->. by rewrite insert_insert_eq.
  - intros Hne. by rewrite insert_insert_ne.
Qed.

Lemma puts_compose_witness :
  let a := StoredData.mk "current" (JStr "old") 0 None in
  let b := StoredData.mk "current" (JStr "new") 0 None in
  (store events a (Some 60) 1000 ;;; store events b (Some 60) 2000) None
  = store events b (Some 60) 2000 None.
Proof.
  intros a b.
  destruct (puts_compose events a b (Some 60) (Some 60) 1000 2000 None) as [Hsame _];
    [reflexivity|].
  by apply Hsame.
Defined.

(** X6.  The expiry boundary.  A record put at time [now >= 0] with a TTL
    of [t > 0] minutes, where [now + t * 60000] is at most 2^53 (so that
    the code computes it exactly), is stored as it was put, property by
    property, with [timestamp = now] and [expiresAt = now + t * 60000].
    It can be read up to and including that instant; a get after it finds
    nothing and removes the record, so that every later get finds nothing
    either. *)
Theorem ttl_expiry_boundary {A} (T : StoreName A) (record : A) (t now now' : Z)
    (idb : IDB) :
  contains T (init idb) = true →
  0 < t →
  0 ≤ now →
  now + t * 60 * 1000 ≤ 2 ^ 53 →
  ∃ db', store T record (Some t) now idb = (Return tt, Some db')
    ∧ (now' ≤ now + t * 60 * 1000 →
       ∃ r, get T (keyOf T record) now' (Some db') = (Return (Some r), Some db')
            ∧ sameOwnFields T r record
            ∧ timestampOf T r = now
            ∧ expiresAtOf T r = Some (now + t * 60 * 1000))
    ∧ (now + t * 60 * 1000 < now' →
       ∃ db'', get T (keyOf T record) now' (Some db') = (Return None, Some db'')
               ∧ ∀ later, get T (keyOf T record) later (Some db'')
                          = (Return None, Some db'')).
Proof.
  intros Hc Ht Hnow _. unfold contains in Hc.
  apply bool_decide_eq_true_1 in Hc as [os Hos].
  eexists. split; [by apply store_found|].
  assert (truthyNum (Some t) = true) as Htruthy
    by (apply negb_true_iff, Z.eqb_neq; lia).
  rewrite Htruthy. simpl default.
  assert (truthyNum (Some (now + t * 60 * 1000)) = true) as Hset
    by (apply negb_true_iff, Z.eqb_neq; lia).
  split.
  - intros Hle. eexists.
    rewrite (get_found T _ now' (Some _) _ (objectStore_set T _ _)).
    rewrite lookup_insert_eq, expiresAtOf_withExpiry. unfold expired. rewrite Hset.
    rewrite (proj2 (Z.ltb_ge _ _) Hle). simpl.
    split; [done|].
    split; [apply sameOwnFields_withExpiry|].
    split; [apply sameOwnFields_withExpiry|by rewrite expiresAtOf_withExpiry].
  - intros Hgt. eexists.
    rewrite (get_found T _ now' (Some _) _ (objectStore_set T _ _)).
    rewrite lookup_insert_eq, expiresAtOf_withExpiry. unfold expired. rewrite Hset.
    rewrite (proj2 (Z.ltb_lt _ _) Hgt). simpl.
    split; [done|]. intros later.
    rewrite (get_found T _ later (Some _) _ (objectStore_set T _ _)).
    by rewrite lookup_delete_eq.
Qed.

Lemma ttl_expiry_boundary_witness :
  let record := StoredData.mk "current" (JStr "iftar") 0 None in
  ∃ db', store events record (Some 60) 1000 None = (Return tt, Some db')
    ∧ (∃ r, get events "current" 3601000 (Some db') = (Return (Some r), Some db')
            ∧ StoredData.data r = JStr "iftar"
            ∧ StoredData.timestamp r = 1000
            ∧ StoredData.expiresAt r = Some 3601000)
    ∧ ∃ db'', get events "current" 3601001 (Some db') = (Return None, Some db'').
Proof.
  intros record.
  destruct (ttl_expiry_boundary events record 60 1000 3601000 None)
    as (db' & Hstore & Hin & _); [reflexivity|lia|lia|by vm_compute|].
  destruct (ttl_expiry_boundary events record 60 1000 3601001 None)
    as (db2 & Hstore2 & _ & Hout); [reflexivity|lia|lia|by vm_compute|].
  rewrite Hstore in Hstore2. injection Hstore2 as <-.
  exists db'. split; [exact Hstore|]. split.
  - destruct Hin as (r & Hget & [_ Hdata] & Hts & He); [lia|].
    exists r. by repeat split.
  - destruct Hout as (db'' & Hget & _); [lia|]. by exists db''.
Defined.

(** X7.  A record put without a TTL, or with a TTL of 0 minutes, never
    expires: a get at any later or earlier time returns it. *)
Theorem no_ttl_never_expires {A} (T : StoreName A) (record : A)
    (ttlMinutes : option Z) (now now' : Z) (idb : IDB) :
  contains T (init idb) = true →
  ttlMinutes = None ∨ ttlMinutes = Some 0 →
  ∃ db' r, store T record ttlMinutes now idb = (Return tt, Some db')
           ∧ get T (keyOf T record) now' (Some db') = (Return (Some r), Some db')
           ∧ sameRecord T r record
           ∧ expiresAtOf T r = None.
Proof.
  intros Hc Httl. unfold contains in Hc.
  apply bool_decide_eq_true_1 in Hc as [os Hos].
  do 2 eexists. split; [by apply store_found|].
  rewrite (get_found T _ now' (Some _) _ (objectStore_set T _ _)).
  rewrite lookup_insert_eq, expiresAtOf_withExpiry.
  assert (truthyNum ttlMinutes = false) as -> by (by destruct Httl as [-> | ->]).
  simpl. split; [done|].
  split; [unfold sameRecord; by rewrite withExpiry_twice
         |by rewrite expiresAtOf_withExpiry].
Qed.

Lemma no_ttl_never_expires_witness :
  let record := StoredData.mk "current" (JStr "iftar") 0 (Some 5) in
  ∃ db' r, store events record (Some 0) 1000 None = (Return tt, Some db')
           ∧ get events "current" 999999999 (Some db') = (Return (Some r), Some db')
           ∧ sameRecord events r record
           ∧ StoredData.expiresAt r = None.
Proof.
  intros record.
  apply (no_ttl_never_expires events record (Some 0) 1000 999999999 None);
    [reflexivity|by right].
Defined.


Ltac snapshot_lifetime Hall Hnow :=
  match goal with
  | |- context [store ?T ?record (Some ?t) ?now ?idb] =>
      let os := fresh "os" in
      let Hos := fresh "Hos" in
      destruct (bool_decide_eq_true_1 _ (Hall _ T eq_refl)) as [os Hos];
      unfold bind; rewrite (store_found T record (Some t) now idb os Hos);
      cbn [snd];
      rewrite (get_found T "current" _ (Some _) _ (objectStore_set T _ _));
      cbn [keyOf StoredData.id withExpiry stampData];
      rewrite lookup_insert_eq;
      unfold expired;
      cbn [expiresAtOf StoredData.expiresAt stampData truthyNum default id];
      repeat match goal with
             | |- context [?a =? 0] =>
                 replace (a =? 0) with false by (symmetry; apply Z.eqb_neq; lia);
                 cbn [negb andb expiresAtOf StoredData.expiresAt stampData truthyNum]
             end;
      match goal with
      | |- context [?e <? ?n] =>
          destruct (Z.ltb_spec e n);
          match goal with
          | |- context [?a <=? ?b] => destruct (Z.leb_spec a b)
          end;
          try lia; reflexivity
      end
  end.

(** X8.  The snapshot helpers of [offlineStorage].  In a database that has
    the collections init creates, what a store helper wrote at time
    [now >= 0] is what the matching getter returns, with [now] as its time
    stamp, for as long as the TTL of the helper lasts: 24 hours for prayer
    times, 1 hour for events and for donations, 30 minutes for
    announcements, 2 hours for the community directory.  After that the
    getter returns null. *)
Theorem snapshots_live_for_their_ttl (data : json) (now now' : Z) (idb : IDB) :
  (∀ A (T : StoreName A), createdByInit T = true → contains T (init idb) = true) →
  0 ≤ now →
  (getPrayerTimes now' (storePrayerTimes data now idb).2).1
  = Return (if now' <=? now + 86400000 then Some (mkSnapshot data now) else None)
  ∧ (getEvents now' (storeEvents data now idb).2).1
    = Return (if now' <=? now + 3600000 then Some (mkSnapshot data now) else None)
  ∧ (getAnnouncements now' (storeAnnouncements data now idb).2).1
    = Return (if now' <=? now + 1800000 then Some (mkSnapshot data now) else None)
  ∧ (getCommunity now' (storeCommunity data now idb).2).1
    = Return (if now' <=? now + 7200000 then Some (mkSnapshot data now) else None)
  ∧ (getDonations now' (storeDonations data now idb).2).1
    = Return (if now' <=? now + 3600000 then Some (mkSnapshot data now) else None).
Proof.
  intros Hall Hnow.
  unfold getPrayerTimes, storePrayerTimes, getEvents, storeEvents, getAnnouncements,
    storeAnnouncements, getCommunity, storeCommunity, getDonations, storeDonations.
  repeat split; snapshot_lifetime Hall Hnow.
Qed.

Lemma snapshots_live_for_their_ttl_witness :
  (getPrayerTimes 2000 (storePrayerTimes JNull 1000 None).2).1
  = Return (if 2000 <=? 1000 + 86400000 then Some (mkSnapshot JNull 1000) else None)
  ∧ (getAnnouncements 1801001 (storeAnnouncements JNull 1000 None).2).1
    = Return (if 1801001 <=? 1000 + 1800000 then Some (mkSnapshot JNull 1000) else None).
Proof.
  split.
  - apply (snapshots_live_for_their_ttl JNull 1000 2000 None); [|lia].
    intros A T. by destruct T.
  - apply (snapshots_live_for_their_ttl JNull 1000 1801001 None); [|lia].
    intros A T. by destruct T.
Defined.

End StorageFacts.

(** ** More on the queue manager *)

Module QueueManagerFacts.
Import IndexedDB OfflineQueue QueueHelpers IndexedDBFacts StorageFacts OfflineQueueFacts.
(* OfflineStorage is used qualified: its incrementRetryCount is the method of
   IndexedDBManager, not the step of handleRetry. *)

(** *** The exact effect of the private methods *)

Lemma removeFromQueue_eq k w os :
  hasQueue w os →
  removeFromQueue k w
  = (Return tt,
     mkWorld (Some (setObjectStore offlineQueue (base.delete k os) (init (idb w))))
       (isOnline w) (base.delete k (retryTimeouts w))
       (match retryTimeouts w !! k with
        | Some h => base.delete h (timers w)
        | None => timers w
        end)
       (nextTimer w) (dispatched w) (fetched w) (console w)).
Proof.
  intros Hos. unfold removeFromQueue, bind, db.
  rewrite (delete_found offlineQueue k (idb w) os Hos). simpl.
  destruct (retryTimeouts w !! k) eqn:Hk; simpl; [done|].
  by rewrite (delete_id (retryTimeouts w)).
Qed.

Lemma scheduleRetry_eq k delay w :
  scheduleRetry k delay w
  = (Return tt,
     mkWorld (idb w) (isOnline w) (<[k := nextTimer w]> (retryTimeouts w))
       (<[nextTimer w := (RetryCallback k, delay)]>
          (match retryTimeouts w !! k with
           | Some h => base.delete h (timers w)
           | None => timers w
           end))
       (Pos.succ (nextTimer w)) (dispatched w) (fetched w)
       (console w ++ [ScheduledRetry k delay])).
Proof.
  unfold scheduleRetry, bind, gets. simpl.
  by destruct (retryTimeouts w !! k).
Qed.

Lemma handleRetry_again now item w os :
  hasQueue w os →
  QueuedRequest.retryCount item < effectiveMaxRetries item →
  handleRetry now item w
  = (Return tt,
     mkWorld (Some (setObjectStore offlineQueue
                      (<[QueuedRequest.id item := retriedItem now item]> os)
                      (init (idb w))))
       (isOnline w) (<[QueuedRequest.id item := nextTimer w]> (retryTimeouts w))
       (<[nextTimer w := (RetryCallback (QueuedRequest.id item),
                          calculateRetryDelay (QueuedRequest.retryCount item + 1))]>
          (match retryTimeouts w !! QueuedRequest.id item with
           | Some h => base.delete h (timers w)
           | None => timers w
           end))
       (Pos.succ (nextTimer w)) (dispatched w) (fetched w)
       (console w ++ [ScheduledRetry (QueuedRequest.id item)
                        (calculateRetryDelay (QueuedRequest.retryCount item + 1))])).
Proof.
  intros Hos Hleft. unfold handleRetry.
  destruct (Z.leb_spec (effectiveMaxRetries item) (QueuedRequest.retryCount item)); [lia|].
  unfold bind at 1, db.
  rewrite (store_found offlineQueue _ None now (idb w) os Hos). simpl.
  by rewrite scheduleRetry_eq.
Qed.

Lemma handleRetry_exhausted now item w os :
  hasQueue w os →
  effectiveMaxRetries item ≤ QueuedRequest.retryCount item →
  handleRetry now item w
  = (Return tt,
     mkWorld (Some (setObjectStore offlineQueue (base.delete (QueuedRequest.id item) os)
                      (init (idb w))))
       (isOnline w) (base.delete (QueuedRequest.id item) (retryTimeouts w))
       (match retryTimeouts w !! QueuedRequest.id item with
        | Some h => base.delete h (timers w)
        | None => timers w
        end)
       (nextTimer w) (dispatched w ++ [failureOf item]) (fetched w)
       (console w ++ [MaxRetriesReached (QueuedRequest.id item)])).
Proof.
  intros Hos Hmax. unfold handleRetry.
  destruct (Z.leb_spec (effectiveMaxRetries item) (QueuedRequest.retryCount item)); [|lia].
  unfold bind at 1, log at 1, modify. unfold bind at 1.
  erewrite removeFromQueue_eq; [|exact Hos]. done.
Qed.

Lemma processQueueItem_failed net now item w e :
  failure net (requestInit item) = Some e →
  processQueueItem net now item w
  = handleRetry now item
      (mkWorld (idb w) (isOnline w) (retryTimeouts w) (timers w) (nextTimer w)
         (dispatched w) (fetched w ++ [requestInit item])
         (console w ++ [FailedToProcess (QueuedRequest.id item) e])).
Proof.
  unfold failure, processQueueItem, try_catch, executeRequest.
  unfold bind at 1, fetch at 1. intros Hfail.
  destruct (net (requestInit item)) as [response|e'].
  - destruct (ok response); [done|]. by injection Hfail as <-.
  - by injection Hfail as <-.
Qed.

Lemma processQueueItem_ok net now item w os :
  hasQueue w os →
  failure net (requestInit item) = None →
  processQueueItem net now item w
  = (Return tt,
     mkWorld (Some (setObjectStore offlineQueue (base.delete (QueuedRequest.id item) os)
                      (init (idb w))))
       (isOnline w) (base.delete (QueuedRequest.id item) (retryTimeouts w))
       (match retryTimeouts w !! QueuedRequest.id item with
        | Some h => base.delete h (timers w)
        | None => timers w
        end)
       (nextTimer w) (dispatched w ++ [successOf item]) (fetched w ++ [requestInit item])
       (console w ++ [SuccessfullyProcessed (QueuedRequest.id item)])).
Proof.
  unfold failure, processQueueItem, try_catch, executeRequest.
  unfold bind at 1, fetch at 1. intros Hos Hfail.
  destruct (net (requestInit item)) as [response|e']; [|done].
  destruct (ok response); [|done].
  unfold bind at 1, log at 1, modify. unfold bind at 1.
  erewrite removeFromQueue_eq; [|exact Hos]. done.
Qed.

Lemma retryCallback_found net now k w os item :
  hasQueue w os → clean os → os !! k = Some item →
  retryCallback net now k w
  = (Return tt,
     set_retryTimeouts (base.delete k)
       (processQueueItem net now item (set_idb (λ _, Some (init (idb w))) w)).2).
Proof.
  intros Hos Hclean Hk. unfold retryCallback, try_finally, try_catch.
  unfold bind at 1, db. rewrite (get_clean w os now k Hos Hclean), Hk.
  assert (hasQueue (set_idb (λ _, Some (init (idb w))) w) os) as Hos'.
  { exact Hos. }
  destruct (processQueueItem_spec net now item _ os Hos') as (w' & Heq & _).
  cbv beta iota zeta. by rewrite Heq.
Qed.

Lemma retryCallback_absent net now k w os :
  hasQueue w os → clean os → os !! k = None →
  retryCallback net now k w
  = (Return tt,
     mkWorld (Some (init (idb w))) (isOnline w) (base.delete k (retryTimeouts w))
       (timers w) (nextTimer w) (dispatched w) (fetched w) (console w)).
Proof.
  intros Hos Hclean Hk. unfold retryCallback, try_finally, try_catch.
  unfold bind at 1, db. by rewrite (get_clean w os now k Hos Hclean), Hk.
Qed.

Lemma lookup_cleared `{Countable K} {V} (l : list K) (m : gmap K V) (h : K) :
  foldl (λ m h, base.delete h m) m l !! h
  = if bool_decide (h ∈ l) then None else m !! h.
Proof.
  revert m. induction l as [|x l IH]; intros m; simpl; [done|].
  rewrite IH. destruct (decide (h = x)) as [->|Hne].
  - rewrite lookup_delete_eq, (bool_decide_eq_true_2 (x ∈ x :: l)) by left.
    by case_bool_decide.
  - rewrite lookup_delete_ne by done.
    rewrite (bool_decide_ext (h ∈ x :: l) (h ∈ l)); [done|].
    rewrite elem_of_cons. split; [intros [?|?]; [congruence|assumption]|by right].
Qed.

Lemma clearTimeouts_eq handles w :
  for_of handles clearTimeout w
  = (Return tt, set_timers (λ t, foldl (λ m h, base.delete h m) t handles) w).
Proof.
  revert w. induction handles as [|h l IH]; intros w; simpl.
  - by destruct w.
  - unfold bind, clearTimeout, modify. rewrite IH. by destruct w.
Qed.

Lemma requestInit_retriedItem now item :
  requestInit (retriedItem now item) = requestInit item.
Proof. done. Qed.

Lemma effectiveMaxRetries_retriedItem now item :
  effectiveMaxRetries (retriedItem now item) = effectiveMaxRetries item.
Proof. done. Qed.

Lemma clean_insert os k item :
  clean os → QueuedRequest.id item = k → QueuedRequest.expiresAt item = None →
  clean (<[k := item]> os).
Proof.
  intros Hclean Hid He k' q. rewrite lookup_insert_Some.
  intros [[<- <-]|[_ Hk]]; [done|by apply Hclean].
Qed.

Lemma clean_singleton k item :
  QueuedRequest.id item = k → QueuedRequest.expiresAt item = None →
  clean {[k := item]}.
Proof.
  intros Hid He k' q. rewrite lookup_singleton_Some. by intros [<- <-].
Qed.

(** X9.  A replay attempt that fails while retries are left keeps the item
    in the queue with its retry count raised by one, sends the request
    once, dispatches no event, and sets one timer for the next attempt:
    its delay is the backoff delay of the new retry count, it is tracked
    under the id of the item, and the timer that was tracked for the item
    before is cancelled. *)
Theorem failed_attempt_schedules_backoff (net : Network) (now : Z)
    (item : QueuedRequest.t) (w : World) (os : gmap string QueuedRequest.t)
    (e : Exception) :
  hasQueue w os →
  failure net (requestInit item) = Some e →
  QueuedRequest.retryCount item < effectiveMaxRetries item →
  ∃ w', processQueueItem net now item w = (Return tt, w')
        ∧ hasQueue w' (<[QueuedRequest.id item := retriedItem now item]> os)
        ∧ QueuedRequest.retryCount (retriedItem now item)
          = QueuedRequest.retryCount item + 1
        ∧ timers w' !! nextTimer w
          = Some (RetryCallback (QueuedRequest.id item),
                  calculateRetryDelay (QueuedRequest.retryCount item + 1))
        ∧ retryTimeouts w' !! QueuedRequest.id item = Some (nextTimer w)
        ∧ (∀ h, retryTimeouts w !! QueuedRequest.id item = Some h →
                h ≠ nextTimer w → timers w' !! h = None)
        ∧ dispatched w' = dispatched w
        ∧ fetched w' = fetched w ++ [requestInit item].
Proof.
  intros Hos Hfail Hleft.
  rewrite (processQueueItem_failed net now item w e Hfail).
  erewrite handleRetry_again; [|exact Hos|exact Hleft].
  eexists. split; [done|]. cbn [idb timers retryTimeouts dispatched fetched nextTimer].
  split; [by eapply hasQueue_after|]. split; [done|].
  rewrite !lookup_insert_eq. do 2 (split; [done|]).
  split; [|done]. intros h Hh Hne. rewrite Hh.
  rewrite lookup_insert_ne by done. by rewrite lookup_delete_eq.
Qed.

Lemma failed_attempt_schedules_backoff_witness :
  let down : Network := λ _, Throw (NetworkError "Failed to fetch") in
  let item := QueuedRequest.mk "1000-k3j9x2m1q" "/api/donations" "POST" (Some "{}")
                ∅ 1000 1 (Some 3) QueuedRequest.donations None in
  let w := newManager false None in
  ∃ w', processQueueItem down 2000 item w = (Return tt, w')
        ∧ timers w' !! nextTimer w = Some (RetryCallback "1000-k3j9x2m1q", 2000)
        ∧ retryTimeouts w' !! "1000-k3j9x2m1q" = Some (nextTimer w)
        ∧ fetched w' = [requestInit item].
Proof.
  intros down item w.
  destruct (failed_attempt_schedules_backoff down 2000 item w ∅
              (NetworkError "Failed to fetch"))
    as (w' & Heq & _ & _ & Ht & Hr & _ & _ & Hf); [reflexivity|reflexivity|by vm_compute|].
  exists w'. by repeat split.
Defined.

(** X10.  When the attempt that fails is the one of a retry timer, the
    timer of the next attempt is pending but no longer tracked: the
    callback forgets the id of the item after the new timer has been
    tracked under it.  Removing the item afterwards takes it out of the
    queue and leaves that timer pending. *)
Theorem failed_scheduled_retry_is_untracked (net : Network) (now : Z) (k : string)
    (item : QueuedRequest.t) (w : World) (os : gmap string QueuedRequest.t)
    (e : Exception) :
  hasQueue w os → clean os →
  os !! k = Some item →
  failure net (requestInit item) = Some e →
  QueuedRequest.retryCount item < effectiveMaxRetries item →
  ∃ w', retryCallback net now k w = (Return tt, w')
        ∧ hasQueue w' (<[k := retriedItem now item]> os)
        ∧ timers w' !! nextTimer w
          = Some (RetryCallback k, calculateRetryDelay (QueuedRequest.retryCount item + 1))
        ∧ retryTimeouts w' !! k = None
        ∧ ∃ w'', removeQueueItem k w' = (Return tt, w'')
                 ∧ hasQueue w'' (base.delete k os)
                 ∧ timers w'' !! nextTimer w
                   = Some (RetryCallback k,
                           calculateRetryDelay (QueuedRequest.retryCount item + 1)).
Proof.
  intros Hos Hclean Hk Hfail Hleft.
  destruct (Hclean k item Hk) as [_ Hid].
  rewrite (retryCallback_found net now k w os item Hos Hclean Hk).
  rewrite (processQueueItem_failed net now item _ e Hfail).
  erewrite handleRetry_again; [|exact Hos|exact Hleft].
  rewrite Hid. eexists. split; [done|]. simpl.
  split; [by unfold hasQueue|].
  rewrite lookup_insert_eq, lookup_delete_eq. do 2 (split; [done|]).
  unfold removeQueueItem. erewrite removeFromQueue_eq; [|by unfold hasQueue].
  eexists. split; [done|]. simpl. rewrite lookup_delete_eq, lookup_insert_eq.
  split; [|done]. unfold hasQueue. simpl. by rewrite delete_insert_eq.
Qed.

Lemma failed_scheduled_retry_is_untracked_witness :
  let down : Network := λ _, Throw (NetworkError "Failed to fetch") in
  let item := QueuedRequest.mk "1000-k3j9x2m1q" "/api/donations" "POST" (Some "{}")
                ∅ 1000 0 (Some 3) QueuedRequest.donations None in
  let w := mkWorld (Some (setObjectStore offlineQueue {["1000-k3j9x2m1q" := item]}
                            (init None)))
             true {["1000-k3j9x2m1q" := 1%positive]}
             {[1%positive := (RetryCallback "1000-k3j9x2m1q", 0)]} 2%positive [] [] [] in
  ∃ w', retryCallback down 2000 "1000-k3j9x2m1q" w = (Return tt, w')
        ∧ timers w' !! 2%positive = Some (RetryCallback "1000-k3j9x2m1q", 1000)
        ∧ retryTimeouts w' !! "1000-k3j9x2m1q" = None.
Proof.
  intros down item w.
  destruct (failed_scheduled_retry_is_untracked down 2000 "1000-k3j9x2m1q" item w
              {["1000-k3j9x2m1q" := item]} (NetworkError "Failed to fetch"))
    as (w' & Heq & _ & Ht & Hr & _);
    [reflexivity|by apply clean_singleton|reflexivity|reflexivity|by vm_compute|].
  exists w'. by repeat split.
Defined.

(** X11.  removeQueueItem takes the item out of the queue, cancels the
    timer that is tracked for it and forgets it; the other items, the
    other timers and what is tracked for other items stay; nothing is sent
    and no event is dispatched.  It succeeds also when the item is not in
    the queue. *)
Theorem removeQueueItem_cancels_tracked_timer (k : string) (w : World)
    (os : gmap string QueuedRequest.t) :
  hasQueue w os →
  ∃ w', removeQueueItem k w = (Return tt, w')
        ∧ hasQueue w' (base.delete k os)
        ∧ retryTimeouts w' = base.delete k (retryTimeouts w)
        ∧ (∀ h, retryTimeouts w !! k = Some h → timers w' = base.delete h (timers w))
        ∧ (retryTimeouts w !! k = None → timers w' = timers w)
        ∧ dispatched w' = dispatched w
        ∧ fetched w' = fetched w.
Proof.
  intros Hos. unfold removeQueueItem. rewrite (removeFromQueue_eq k w os Hos).
  eexists. split; [done|]. simpl. split; [by unfold hasQueue|]. split; [done|].
  split; [by intros h ->|]. split; [by intros ->|done].
Qed.

Lemma removeQueueItem_cancels_tracked_timer_witness :
  let item := QueuedRequest.mk "1000-k3j9x2m1q" "/api/donations" "POST" (Some "{}")
                ∅ 1000 0 (Some 3) QueuedRequest.donations None in
  let w := mkWorld (Some (setObjectStore offlineQueue {["1000-k3j9x2m1q" := item]}
                            (init None)))
             true {["1000-k3j9x2m1q" := 1%positive]}
             {[1%positive := (RetryCallback "1000-k3j9x2m1q", 0)]} 2%positive [] [] [] in
  ∃ w', removeQueueItem "1000-k3j9x2m1q" w = (Return tt, w')
        ∧ hasQueue w' (base.delete "1000-k3j9x2m1q" {["1000-k3j9x2m1q" := item]})
        ∧ timers w' = base.delete 1%positive (timers w).
Proof.
  intros item w.
  destruct (removeQueueItem_cancels_tracked_timer "1000-k3j9x2m1q" w
              {["1000-k3j9x2m1q" := item]})
    as (w' & Heq & Hq & _ & Ht & _); [reflexivity|].
  exists w'. split; [exact Heq|]. split; [exact Hq|]. by apply Ht.
Defined.

(** X12.  clearQueue empties the queue, cancels every tracked timer and
    forgets them all; a timer that is not tracked stays pending; nothing
    is sent and no event is dispatched. *)
Theorem clearQueue_cancels_tracked_timers (w : World) (os : gmap string QueuedRequest.t) :
  hasQueue w os →
  ∃ w', clearQueue w = (Return tt, w')
        ∧ hasQueue w' ∅
        ∧ retryTimeouts w' = ∅
        ∧ (∀ k h, retryTimeouts w !! k = Some h → timers w' !! h = None)
        ∧ (∀ h, (∀ k, retryTimeouts w !! k ≠ Some h) → timers w' !! h = timers w !! h)
        ∧ dispatched w' = dispatched w
        ∧ fetched w' = fetched w.
Proof.
  intros Hos. unfold clearQueue, bind at 1, gets. unfold bind at 1.
  rewrite clearTimeouts_eq. unfold bind at 1, modify at 1. unfold bind at 1, db.
  cbn [idb set_retryTimeouts set_timers].
  rewrite (clear_found offlineQueue (idb w) os Hos).
  eexists. split; [done|]. simpl. split; [by unfold hasQueue|]. split; [done|].
  split; [|split; [|done]].
  - intros k h Hk. rewrite lookup_cleared, bool_decide_eq_true_2; [done|].
    apply (list_elem_of_fmap_2 snd _ (k, h)). by apply elem_of_map_to_list.
  - intros h Hh. rewrite lookup_cleared, bool_decide_eq_false_2; [done|].
    intros ([k h'] & -> & Hin)%list_elem_of_fmap.
    apply elem_of_map_to_list in Hin. by apply (Hh k).
Qed.

Lemma clearQueue_cancels_tracked_timers_witness :
  let item := QueuedRequest.mk "1000-k3j9x2m1q" "/api/donations" "POST" (Some "{}")
                ∅ 1000 0 (Some 3) QueuedRequest.donations None in
  let w := mkWorld (Some (setObjectStore offlineQueue {["1000-k3j9x2m1q" := item]}
                            (init None)))
             true {["1000-k3j9x2m1q" := 1%positive]}
             {[1%positive := (RetryCallback "1000-k3j9x2m1q", 0);
               2%positive := (DrainCallback, 1000)]} 3%positive [] [] [] in
  ∃ w', clearQueue w = (Return tt, w')
        ∧ hasQueue w' ∅
        ∧ timers w' !! 1%positive = None
        ∧ timers w' !! 2%positive = Some (DrainCallback, 1000).
Proof.
  intros item w.
  destruct (clearQueue_cancels_tracked_timers w {["1000-k3j9x2m1q" := item]})
    as (w' & Heq & Hq & _ & Hcancelled & Hkept & _); [reflexivity|].
  exists w'. split; [exact Heq|]. split; [exact Hq|]. split.
  - by apply (Hcancelled "1000-k3j9x2m1q").
  - rewrite Hkept; [reflexivity|]. intros k. subst w. cbn [retryTimeouts].
    rewrite lookup_singleton_Some. by intros [_ ?].
Defined.

(** *** An item that keeps failing *)

Lemma retriedItems_retryCount nows item :
  QueuedRequest.retryCount (retriedItems nows item)
  = QueuedRequest.retryCount item + Z.of_nat (length nows).
Proof.
  revert item. induction nows as [|now rest IH]; intros item.
  - simpl. lia.
  - cbn [retriedItems foldl length]. fold (retriedItems rest (retriedItem now item)).
    rewrite IH. simpl. lia.
Qed.

Lemma retriedItems_request nows item :
  requestInit (retriedItems nows item) = requestInit item
  ∧ effectiveMaxRetries (retriedItems nows item) = effectiveMaxRetries item
  ∧ QueuedRequest.id (retriedItems nows item) = QueuedRequest.id item
  ∧ (QueuedRequest.expiresAt item = None →
     QueuedRequest.expiresAt (retriedItems nows item) = None)
  ∧ failureOf (retriedItems nows item)
    = offlineQueueFailure (QueuedRequest.id item) (QueuedRequest.type item)
        (QueuedRequest.url item) (QueuedRequest.method item)
        (QueuedRequest.retryCount item + Z.of_nat (length nows)).
Proof.
  revert item. induction nows as [|now rest IH]; intros item.
  - simpl. unfold failureOf. by rewrite Z.add_0_r.
  - cbn [retriedItems foldl length]. fold (retriedItems rest (retriedItem now item)).
    destruct (IH (retriedItem now item)) as (-> & -> & -> & He & ->).
    do 3 (split; [done|]). split; [intros _; by apply He|].
    change (QueuedRequest.retryCount (retriedItem now item))
      with (QueuedRequest.retryCount item + 1).
    cbn [retriedItem stampQueued incrementRetryCount QueuedRequest.id QueuedRequest.type
         QueuedRequest.url QueuedRequest.method].
    f_equal. lia.
Qed.

Lemma retryTimes_progress net k nows :
  ∀ item os w e,
    hasQueue w os → clean os →
    os !! k = Some item →
    failure net (requestInit item) = Some e →
    QueuedRequest.retryCount item + Z.of_nat (length nows) ≤ effectiveMaxRetries item →
    ∃ w', retryTimes net k nows w = (Return tt, w')
          ∧ hasQueue w' (<[k := retriedItems nows item]> os)
          ∧ dispatched w' = dispatched w
          ∧ fetched w' = fetched w ++ replicate (length nows) (requestInit item).
Proof.
  induction nows as [|now rest IH]; intros item os w e Hos Hclean Hk Hfail Hleft.
  - exists w. simpl. rewrite insert_id by done. by rewrite app_nil_r.
  - cbn [length] in Hleft. destruct (Hclean k item Hk) as [He Hid].
    unfold retryTimes. cbn [for_of]. unfold bind.
    rewrite (retryCallback_found net now k w os item Hos Hclean Hk).
    rewrite (processQueueItem_failed net now item _ e Hfail).
    erewrite handleRetry_again; [|exact Hos|lia].
    rewrite Hid.
    match goal with
    | |- context [for_of rest _ ?w1] =>
        destruct (IH (retriedItem now item) (<[k := retriedItem now item]> os) w1 e)
          as (w' & Heq & Hq & Hd & Hf)
    end.
    + by unfold hasQueue.
    + by apply clean_insert.
    + by rewrite lookup_insert_eq.
    + done.
    + rewrite effectiveMaxRetries_retriedItem.
      change (QueuedRequest.retryCount (retriedItem now item))
        with (QueuedRequest.retryCount item + 1). lia.
    + unfold retryTimes in Heq. rewrite Heq. exists w'. split; [done|].
      rewrite insert_insert_eq in Hq. split; [exact Hq|].
      rewrite Hd, Hf. simpl. by rewrite <-app_assoc.
Qed.

(** X13.  An item whose attempts all fail is sent once per attempt, stays
    in the queue with its retry count raised by one per failure while the
    count is below its maximum, and is given up at the attempt that finds
    the count at the maximum: that attempt removes the item and dispatches
    the one failure event, which reports the maximum as retry count.  From
    a count of [c] and a maximum of [m] that is the attempt number
    [m - c + 1]. *)
Theorem retries_until_exhausted (net : Network) (k : string) (nows : list Z) (now : Z)
    (item : QueuedRequest.t) (w : World) (os : gmap string QueuedRequest.t)
    (e : Exception) :
  hasQueue w os → clean os →
  os !! k = Some item →
  failure net (requestInit item) = Some e →
  QueuedRequest.retryCount item + Z.of_nat (length nows) = effectiveMaxRetries item →
  ∃ w1 w2 item',
    retryTimes net k nows w = (Return tt, w1)
    ∧ hasQueue w1 (<[k := item']> os)
    ∧ QueuedRequest.retryCount item' = effectiveMaxRetries item
    ∧ dispatched w1 = dispatched w
    ∧ retryCallback net now k w1 = (Return tt, w2)
    ∧ hasQueue w2 (base.delete k os)
    ∧ dispatched w2
      = dispatched w ++ [offlineQueueFailure k (QueuedRequest.type item)
                           (QueuedRequest.url item) (QueuedRequest.method item)
                           (effectiveMaxRetries item)]
    ∧ fetched w2 = fetched w ++ replicate (S (length nows)) (requestInit item).
Proof.
  intros Hos Hclean Hk Hfail Hmax.
  destruct (retryTimes_progress net k nows item os w e Hos Hclean Hk Hfail)
    as (w1 & Heq & Hq1 & Hd1 & Hf1); [lia|].
  destruct (Hclean k item Hk) as [He Hid].
  destruct (retriedItems_request nows item) as (Hrq & Hm & Hid' & He' & Hev).
  assert (clean (<[k := retriedItems nows item]> os)) as Hclean1.
  { apply clean_insert; [done|by rewrite Hid'|by apply He']. }
  assert (<[k := retriedItems nows item]> os !! k = Some (retriedItems nows item)) as Hk1
    by apply lookup_insert_eq.
  exists w1. eexists. exists (retriedItems nows item).
  split; [exact Heq|]. split; [exact Hq1|].
  split; [rewrite retriedItems_retryCount; lia|]. split; [exact Hd1|].
  rewrite (retryCallback_found net now k w1 _ _ Hq1 Hclean1 Hk1).
  rewrite (processQueueItem_failed net now _ _ e); [|by rewrite Hrq].
  erewrite handleRetry_exhausted; [|exact Hq1|rewrite Hm, retriedItems_retryCount; lia].
  split; [done|]. simpl. rewrite Hid', Hid. split.
  { unfold hasQueue. simpl. by rewrite delete_insert_eq. }
  rewrite Hev, Hd1, Hf1, Hrq, Hmax, <-app_assoc. split; [by rewrite Hid|].
  f_equal. change [requestInit item] with (replicate 1 (requestInit item)).
  rewrite <-replicate_add. by rewrite Nat.add_1_r.
Qed.

Lemma retries_until_exhausted_witness :
  let down : Network := λ _, Throw (NetworkError "Failed to fetch") in
  let item := QueuedRequest.mk "1000-k3j9x2m1q" "/api/donations" "POST" (Some "{}")
                ∅ 1000 0 (Some 3) QueuedRequest.donations None in
  let w := mkWorld (Some (setObjectStore offlineQueue {["1000-k3j9x2m1q" := item]}
                            (init None)))
             true ∅ ∅ 1%positive [] [] [] in
  ∃ w1 w2,
    retryTimes down "1000-k3j9x2m1q" [2000; 3000; 5000] w = (Return tt, w1)
    ∧ retryCallback down 9000 "1000-k3j9x2m1q" w1 = (Return tt, w2)
    ∧ hasQueue w2 (base.delete "1000-k3j9x2m1q" {["1000-k3j9x2m1q" := item]})
    ∧ dispatched w2
      = [offlineQueueFailure "1000-k3j9x2m1q" QueuedRequest.donations
           "/api/donations" "POST" 3]
    ∧ length (fetched w2) = 4%nat.
Proof.
  intros down item w.
  destruct (retries_until_exhausted down "1000-k3j9x2m1q" [2000; 3000; 5000] 9000 item w
              {["1000-k3j9x2m1q" := item]} (NetworkError "Failed to fetch"))
    as (w1 & w2 & item' & H1 & _ & _ & _ & H2 & Hq & Hd & Hf);
    [reflexivity|by apply clean_singleton|reflexivity|reflexivity|reflexivity|].
  exists w1, w2. split; [exact H1|]. split; [exact H2|]. split; [exact Hq|].
  split; [exact Hd|]. by rewrite Hf.
Defined.

(** *** A drain on a network that accepts everything *)

Lemma accepted net rq :
  failure net rq = None → ∃ response, net rq = Return response ∧ ok response = true.
Proof.
  unfold failure. destruct (net rq) as [response|]; [|done].
  destruct (ok response) eqn:Hok; [|done]. by exists response.
Qed.

Lemma drained_accepts net now l os :
  accepts net →
  drained net now l os
  = (foldl (λ m q, base.delete (QueuedRequest.id q) m) os l, successOf <$> l).
Proof.
  intros Hacc. revert os. induction l as [|item rest IH]; intros os; [done|].
  cbn [drained foldl fmap list_fmap]. unfold attempted.
  destruct (accepted net (requestInit item) (Hacc _)) as (response & -> & ->).
  by rewrite IH.
Qed.

Lemma delete_all_values os :
  clean os →
  foldl (λ m q, base.delete (QueuedRequest.id q) m) os (inKeyOrder os) = ∅.
Proof.
  intros Hclean. apply map_eq. intros k.
  rewrite (lookup_purged QueuedRequest.id), lookup_empty.
  case_bool_decide as Hin; [done|].
  destruct (os !! k) as [q|] eqn:Hk; [|done].
  destruct Hin. destruct (Hclean k q Hk) as [_ <-].
  apply list_elem_of_fmap_2, elem_of_inKeyOrder. by exists (QueuedRequest.id q).
Qed.

Lemma inKeyOrder_ascendingById os : clean os → ascendingById (inKeyOrder os).
Proof.
  intros Hclean. apply (inKeyOrder_ascending offlineQueue).
  intros k x Hk. by apply Hclean in Hk as [_ ?].
Qed.

(** X14.  A drain while online on a network that answers every request
    with a 2xx status sends each queued request once, in the order in
    which getAll lists the queue, which is the ascending order of the ids,
    dispatches one success event per item in that order, and leaves the
    queue empty. *)
Theorem drain_delivers_everything (net : Network) (now : Z) (w : World)
    (os : gmap string QueuedRequest.t) :
  hasQueue w os → clean os →
  isOnline w = true →
  accepts net →
  ∃ w' items, processQueue net now w = (Return tt, w')
        ∧ hasQueue w' ∅
        ∧ dispatched w' = dispatched w ++ (successOf <$> items)
        ∧ fetched w' = fetched w ++ (requestInit <$> items)
        ∧ items ≡ₚ (map_to_list os).*2
        ∧ ascendingById items.
Proof.
  intros Hos Hclean Hon Hacc.
  destruct (processQueue_spec net now w os Hos Hclean) as (w' & Heq & Hw').
  rewrite Hon, (drained_accepts net now _ os Hacc) in Hw'. cbn [fst snd] in Hw'.
  rewrite (delete_all_values os Hclean) in Hw'. exists w', (inKeyOrder os).
  split; [exact Heq|]. destruct Hw' as (Hq & Hd & Hf). do 3 (split; [done|]).
  split; [apply inKeyOrder_perm|by apply inKeyOrder_ascendingById].
Qed.

Lemma drain_delivers_everything_witness :
  let up : Network := λ _, Return (mkResponse 201 "Created" ∅ (BodyText "")) in
  let first := QueuedRequest.mk "1000-aaaaaaaaa" "/api/donations" "POST" (Some "{}")
                 ∅ 1000 0 (Some 3) QueuedRequest.donations None in
  let second := QueuedRequest.mk "999-zzzzzzzzz" "/api/announcements" "POST" (Some "{}")
                  ∅ 999 0 (Some 3) QueuedRequest.announcements None in
  let os : gmap string QueuedRequest.t :=
    {["999-zzzzzzzzz" := second; "1000-aaaaaaaaa" := first]} in
  let w := mkWorld (Some (setObjectStore offlineQueue os (init None)))
             true ∅ ∅ 1%positive [] [] [] in
  ∃ w' items, processQueue up 2000 w = (Return tt, w')
        ∧ hasQueue w' ∅
        ∧ dispatched w' = successOf <$> items
        ∧ fetched w' = requestInit <$> items
        ∧ ascendingById items.
Proof.
  intros up first second os w.
  destruct (drain_delivers_everything up 2000 w os)
    as (w' & items & Heq & Hq & Hd & Hf & _ & Hsorted);
    [reflexivity| |reflexivity|by intros rq|].
  { apply clean_insert; [by apply clean_singleton|done|done]. }
  exists w', items. by repeat split.
Defined.

(** The item with id 1000-aaaaaaaaa is replayed before the one with id
    999-zzzzzzzzz, although it was queued later: the ids are ordered as
    strings.  This is not the order in which [map_to_list] lists them. *)
Lemma drain_order_example :
  let up : Network := λ _, Return (mkResponse 201 "Created" ∅ (BodyText "")) in
  let first := QueuedRequest.mk "1000-aaaaaaaaa" "/api/donations" "POST" (Some "{}")
                 ∅ 1000 0 (Some 3) QueuedRequest.donations None in
  let second := QueuedRequest.mk "999-zzzzzzzzz" "/api/announcements" "POST" (Some "{}")
                  ∅ 999 0 (Some 3) QueuedRequest.announcements None in
  let os : gmap string QueuedRequest.t :=
    {["999-zzzzzzzzz" := second; "1000-aaaaaaaaa" := first]} in
  let w := mkWorld (Some (setObjectStore offlineQueue os (init None)))
             true ∅ ∅ 1%positive [] [] [] in
  fetched (processQueue up 2000 w).2 = [requestInit first; requestInit second]
  ∧ (map_to_list os).*2 = [second; first].
Proof. by vm_compute. Qed.

(** *** Timers that fire, online and offline *)

(** X15.  A retry timer that fires does not look at the network status.
    When its item is still queued the request is sent, also while the
    manager is offline, whereas processQueue and retryItem send nothing
    while offline.  When the item has left the queue the callback sends
    nothing, dispatches nothing and leaves the queue as it is. *)
Theorem retry_timer_ignores_network_status (net : Network) (now : Z) (h : positive)
    (k : string) (delay : Z) (w : World) (os : gmap string QueuedRequest.t) :
  hasQueue w os → clean os →
  timers w !! h = Some (RetryCallback k, delay) →
  ∃ w', timerFires net now h w = (Return tt, w')
        ∧ match os !! k with
          | Some item => fetched w' = fetched w ++ [requestInit item]
          | None => hasQueue w' os ∧ fetched w' = fetched w
                    ∧ dispatched w' = dispatched w
                    ∧ timers w' = base.delete h (timers w)
          end
        ∧ (isOnline w = false →
           fetched (processQueue net now w).2 = fetched w
           ∧ fetched (retryItem net now k w).2 = fetched w).
Proof.
  intros Hos Hclean Hh.
  unfold timerFires, bind at 1, gets. rewrite Hh. unfold bind at 1, clearTimeout, modify.
  assert (hasQueue (set_timers (base.delete h) w) os) as Hos' by exact Hos.
  destruct (os !! k) as [item|] eqn:Hk.
  - rewrite (retryCallback_found net now k _ os item Hos' Hclean Hk).
    match goal with
    | |- context [processQueueItem net now item ?w0] =>
        destruct (processQueueItem_spec net now item w0 os) as (w1 & Heq & _ & _ & Hf);
          [exact Hos|]
    end.
    eexists. split; [done|]. rewrite Heq. split; [exact Hf|].
    intros Hoff. unfold processQueue, retryItem, bind, gets, db.
    rewrite (get_clean w os now k Hos Hclean), Hk. simpl. by rewrite Hoff.
  - rewrite (retryCallback_absent net now k _ os Hos' Hclean Hk).
    eexists. split; [done|]. split; [done|].
    intros Hoff. unfold processQueue, retryItem, bind, gets, db.
    rewrite (get_clean w os now k Hos Hclean), Hk. simpl. by rewrite Hoff.
Qed.

Lemma retry_timer_ignores_network_status_witness :
  let up : Network := λ _, Return (mkResponse 201 "Created" ∅ (BodyText "")) in
  let item := QueuedRequest.mk "1000-k3j9x2m1q" "/api/donations" "POST" (Some "{}")
                ∅ 1000 0 (Some 3) QueuedRequest.donations None in
  let w := mkWorld (Some (setObjectStore offlineQueue {["1000-k3j9x2m1q" := item]}
                            (init None)))
             false {["1000-k3j9x2m1q" := 1%positive]}
             {[1%positive := (RetryCallback "1000-k3j9x2m1q", 0)]} 2%positive [] [] [] in
  ∃ w', timerFires up 2000 1%positive w = (Return tt, w')
        ∧ fetched w' = [requestInit item]
        ∧ fetched (processQueue up 2000 w).2 = [].
Proof.
  intros up item w.
  destruct (retry_timer_ignores_network_status up 2000 1%positive "1000-k3j9x2m1q" 0 w
              {["1000-k3j9x2m1q" := item]})
    as (w' & Heq & Hf & Hoff); [reflexivity|by apply clean_singleton|reflexivity|].
  exists w'. split; [exact Heq|]. split; [exact Hf|]. by apply Hoff.
Defined.

(** *** Queueing a request *)

Lemma addToQueue_eq stringify url method body headers type retryConfig now random w os :
  hasQueue w os →
  addToQueue stringify url method body headers type retryConfig now random w
  = let item := queuedItem stringify url method body headers type retryConfig now random in
    let w1 := mkWorld (Some (setObjectStore offlineQueue (<[newId now random := item]> os)
                               (init (idb w))))
                (isOnline w) (retryTimeouts w) (timers w) (nextTimer w)
                (dispatched w) (fetched w) (console w ++ [AddedRequest (newId now random)]) in
    (Return (newId now random),
     if isOnline w then (scheduleRetry (newId now random) 0 w1).2 else w1).
Proof.
  intros Hos. unfold addToQueue, bind at 1, db.
  rewrite (store_found offlineQueue _ None now (idb w) os Hos).
  unfold bind, log, modify, gets. simpl.
  destruct (isOnline w); [|done]. rewrite !scheduleRetry_eq. simpl. f_equal.
Qed.

(** X16.  A request queued while the manager is offline is stored under
    the id that addToQueue returns, with retry count 0; no timer is set
    and nothing is sent.  At the next online event, on a network that
    accepts every request, it is sent with the url and the method it was
    queued with, its success event is dispatched and the queue is left
    empty. *)
Theorem queued_offline_is_delivered_online (stringify : json → string) (net : Network)
    (url method : string) (body : option json) (headers : option (gmap string string))
    (type : option QueuedRequest.RequestType) (retryConfig : option PartialRetryConfig)
    (now now' : Z) (random : string) (w : World) (os : gmap string QueuedRequest.t) :
  hasQueue w os → clean os →
  isOnline w = false →
  accepts net →
  ∃ w1 w2 item,
    addToQueue stringify url method body headers type retryConfig now random w
    = (Return (newId now random), w1)
    ∧ hasQueue w1 (<[newId now random := item]> os)
    ∧ QueuedRequest.retryCount item = 0
    ∧ timers w1 = timers w
    ∧ fetched w1 = fetched w
    ∧ onOnline net now' w1 = (Return tt, w2)
    ∧ hasQueue w2 ∅
    ∧ requestInit item ∈ fetched w2
    ∧ req_url (requestInit item) = url
    ∧ req_method (requestInit item) = method
    ∧ offlineQueueSuccess (newId now random) (default QueuedRequest.general type) url method
      ∈ dispatched w2.
Proof.
  intros Hos Hclean Hoff Hacc.
  rewrite (addToQueue_eq _ _ _ _ _ _ _ _ _ _ os Hos), Hoff. cbv zeta.
  set (item := queuedItem stringify url method body headers type retryConfig now random).
  match goal with
  | |- context [(Return (newId now random), ?w0)] => set (w1 := w0)
  end.
  assert (hasQueue w1 (<[newId now random := item]> os)) as Hq1 by by unfold hasQueue.
  assert (clean (<[newId now random := item]> os)) as Hclean1 by by apply clean_insert.
  destruct (onOnline_spec net now' w1 _ Hq1 Hclean1) as (w2 & Heq & Hq2 & Hd2 & Hf2).
  rewrite (drained_accepts net now' _ _ Hacc) in Hq2, Hd2. cbn [fst snd] in Hq2, Hd2.
  rewrite (delete_all_values _ Hclean1) in Hq2.
  assert (item ∈ (inKeyOrder (<[newId now random := item]> os))) as Hin.
  { apply elem_of_inKeyOrder. exists (newId now random). apply lookup_insert_eq. }
  exists w1, w2, item. do 7 (split; [done|]).
  split; [|split; [done|split; [done|]]].
  - rewrite Hf2. apply elem_of_app. right. by apply list_elem_of_fmap_2.
  - rewrite Hd2. apply elem_of_app. right.
    by apply (list_elem_of_fmap_2 successOf _ item).
Qed.

Lemma queued_offline_is_delivered_online_witness :
  let up : Network := λ _, Return (mkResponse 201 "Created" ∅ (BodyText "")) in
  ∃ w1 w2,
    addToQueue (λ _, "{}") "/api/donations" "POST" (Some (JObj [])) None
      (Some QueuedRequest.donations) None 1000 "k3j9x2m1q" (newManager false None)
    = (Return "1000-k3j9x2m1q", w1)
    ∧ onOnline up 2000 w1 = (Return tt, w2)
    ∧ hasQueue w2 ∅
    ∧ offlineQueueSuccess "1000-k3j9x2m1q" QueuedRequest.donations "/api/donations" "POST"
      ∈ dispatched w2.
Proof.
  intros up.
  destruct (queued_offline_is_delivered_online (λ _, "{}") up "/api/donations" "POST"
              (Some (JObj [])) None (Some QueuedRequest.donations) None 1000 2000
              "k3j9x2m1q" (newManager false None) ∅)
    as (w1 & w2 & item & H1 & _ & _ & _ & _ & H2 & Hq & _ & _ & _ & Hd);
    [reflexivity|done|reflexivity|by intros rq|].
  by exists w1, w2.
Defined.

(** X17.  A request queued while the manager is online is not sent by
    addToQueue itself: a timer with delay 0 is set for it and tracked
    under its id.  When that timer fires on a network that accepts the
    request, the request is sent once, its success event is dispatched and
    the queue is as it was before the request was queued. *)
Theorem queued_online_is_attempted_at_once (stringify : json → string) (net : Network)
    (url method : string) (body : option json) (headers : option (gmap string string))
    (type : option QueuedRequest.RequestType) (retryConfig : option PartialRetryConfig)
    (now now' : Z) (random : string) (w : World) (os : gmap string QueuedRequest.t) :
  hasQueue w os → clean os →
  os !! newId now random = None →
  isOnline w = true →
  accepts net →
  ∃ w1 w2 item,
    addToQueue stringify url method body headers type retryConfig now random w
    = (Return (newId now random), w1)
    ∧ hasQueue w1 (<[newId now random := item]> os)
    ∧ fetched w1 = fetched w
    ∧ timers w1 !! nextTimer w = Some (RetryCallback (newId now random), 0)
    ∧ retryTimeouts w1 !! newId now random = Some (nextTimer w)
    ∧ timerFires net now' (nextTimer w) w1 = (Return tt, w2)
    ∧ hasQueue w2 os
    ∧ fetched w2 = fetched w ++ [requestInit item]
    ∧ dispatched w2
      = dispatched w ++ [offlineQueueSuccess (newId now random)
                           (default QueuedRequest.general type) url method].
Proof.
  intros Hos Hclean Hfresh Hon Hacc.
  rewrite (addToQueue_eq _ _ _ _ _ _ _ _ _ _ os Hos), Hon. cbv zeta.
  rewrite scheduleRetry_eq. cbn [snd idb isOnline retryTimeouts timers nextTimer
                                 dispatched fetched console].
  set (item := queuedItem stringify url method body headers type retryConfig now random).
  match goal with
  | |- context [(Return (newId now random), ?w0)] => set (w1 := w0)
  end.
  assert (hasQueue w1 (<[newId now random := item]> os)) as Hq1 by by unfold hasQueue.
  assert (clean (<[newId now random := item]> os)) as Hclean1 by by apply clean_insert.
  exists w1. eexists. exists item. do 3 (split; [done|]).
  split; [by apply lookup_insert_eq|]. split; [by apply lookup_insert_eq|].
  unfold timerFires, bind at 1, gets.
  replace (timers w1 !! nextTimer w) with (Some (RetryCallback (newId now random), 0))
    by (symmetry; apply lookup_insert_eq).
  unfold bind at 1, clearTimeout, modify.
  erewrite retryCallback_found; [|exact Hq1|exact Hclean1|by apply lookup_insert_eq].
  erewrite processQueueItem_ok; [|exact Hq1|by apply Hacc].
  split; [done|]. simpl. split; [|done].
  unfold hasQueue. simpl. rewrite delete_insert_eq. by rewrite delete_id.
Qed.

Lemma queued_online_is_attempted_at_once_witness :
  let up : Network := λ _, Return (mkResponse 201 "Created" ∅ (BodyText "")) in
  ∃ w1 w2,
    addToQueue (λ _, "{}") "/api/donations" "POST" (Some (JObj [])) None
      (Some QueuedRequest.donations) None 1000 "k3j9x2m1q" (newManager true None)
    = (Return "1000-k3j9x2m1q", w1)
    ∧ timerFires up 2000 2%positive w1 = (Return tt, w2)
    ∧ hasQueue w2 ∅
    ∧ dispatched w2
      = [offlineQueueSuccess "1000-k3j9x2m1q" QueuedRequest.donations
           "/api/donations" "POST"].
Proof.
  intros up.
  destruct (queued_online_is_attempted_at_once (λ _, "{}") up "/api/donations" "POST"
              (Some (JObj [])) None (Some QueuedRequest.donations) None 1000 2000
              "k3j9x2m1q" (newManager true None) ∅)
    as (w1 & w2 & item & H1 & _ & _ & _ & _ & H2 & Hq & _ & Hd);
    [reflexivity|done|reflexivity|reflexivity|by intros rq|].
  by exists w1, w2.
Defined.

(** X18.  The exported helpers queue authorised POST requests: what
    queueDonation, queueEventRegistration and queueAnnouncement put into
    the queue is replayed as a POST to /api/donations,
    /api/events/<id>/register and /api/announcements, with the headers
    Authorization: Bearer <token> and Content-Type: application/json.
    The body is the serialised data (for a registration the serialised
    empty object), left out when the data is falsy or serialises to the
    empty string; the items are of type donations, registrations and
    announcements. *)
Theorem helpers_queue_authorised_posts (stringify : json → string) (data : json)
    (eventId token : string) (now : Z) (random : string) (w : World)
    (os : gmap string QueuedRequest.t) :
  hasQueue w os →
  let authorised : gmap string string :=
    {[ "Authorization" := "Bearer " +:+ token; "Content-Type" := "application/json" ]} in
  let serialised (d : json) : option string :=
    if truthy d && negb (String.eqb (stringify d) "") then Some (stringify d) else None in
  (∃ w' item, queueDonation stringify data token now random w
              = (Return (newId now random), w')
      ∧ hasQueue w' (<[newId now random := item]> os)
      ∧ QueuedRequest.type item = QueuedRequest.donations
      ∧ requestInit item
        = mkHttpRequest "/api/donations" "POST" authorised (serialised data))
  ∧ (∃ w' item, queueEventRegistration stringify eventId token now random w
                = (Return (newId now random), w')
      ∧ hasQueue w' (<[newId now random := item]> os)
      ∧ QueuedRequest.type item = QueuedRequest.registrations
      ∧ requestInit item
        = mkHttpRequest ("/api/events/" +:+ eventId +:+ "/register") "POST" authorised
            (serialised (JObj [])))
  ∧ (∃ w' item, queueAnnouncement stringify data token now random w
                = (Return (newId now random), w')
      ∧ hasQueue w' (<[newId now random := item]> os)
      ∧ QueuedRequest.type item = QueuedRequest.announcements
      ∧ requestInit item
        = mkHttpRequest "/api/announcements" "POST" authorised (serialised data)).
Proof.
  intros Hos authorised serialised.
  assert (bearer token ∪ {[ "Content-Type" := "application/json" ]} = authorised) as Hh.
  { unfold bearer, authorised. apply map_eq. intros name.
    rewrite lookup_union, !lookup_insert, !lookup_singleton.
    repeat case_decide; subst; try done. }
  assert (∀ url body type,
            ∃ w', addToQueue stringify url "POST" (Some body) (Some (bearer token))
                    (Some type) None now random w
                  = (Return (newId now random), w')
                  ∧ hasQueue w' (<[newId now random :=
                                     queuedItem stringify url "POST" (Some body)
                                       (Some (bearer token)) (Some type) None now random]>
                                   os)) as Hqueued.
  { intros url body type. rewrite (addToQueue_eq _ _ _ _ _ _ _ _ _ _ os Hos). cbv zeta.
    eexists. split; [done|].
    destruct (isOnline w); [rewrite scheduleRetry_eq|]; by unfold hasQueue. }
  unfold queueDonation, queueEventRegistration, queueAnnouncement.
  repeat split;
    match goal with
    | |- context [addToQueue stringify ?url "POST" (Some ?body) _ (Some ?type)] =>
        destruct (Hqueued url body type) as (w' & -> & Hq);
        exists w'; eexists; split; [done|]; split; [exact Hq|]; split; [done|];
        unfold requestInit, queuedItem; simpl; rewrite Hh; f_equal;
        unfold serialised; simpl; destruct (truthy body) eqn:Ht; simpl in *; try done;
        by destruct (String.eqb (stringify body) "")
    end.
Qed.

Lemma helpers_queue_authorised_posts_witness :
  ∃ w' item,
    queueEventRegistration (λ _, "{}") "42" "t" 1000 "k3j9x2m1q" (newManager false None)
    = (Return "1000-k3j9x2m1q", w')
    ∧ hasQueue w' {["1000-k3j9x2m1q" := item]}
    ∧ requestInit item
      = mkHttpRequest "/api/events/42/register" "POST"
          {[ "Authorization" := "Bearer t"; "Content-Type" := "application/json" ]}
          (Some "{}").
Proof.
  destruct (helpers_queue_authorised_posts (λ _, "{}") JNull "42" "t" 1000 "k3j9x2m1q"
              (newManager false None) ∅)
    as (_ & (w' & item & Heq & Hq & _ & Hr) & _); [reflexivity|].
  exists w', item. split; [exact Heq|]. split; [exact Hq|]. exact Hr.
Defined.

(** *** The status of the queue *)

Lemma byType_counts (l : list QueuedRequest.t) (acc : gmap string nat)
    (t : QueuedRequest.RequestType) :
  let byType :=
    foldl (λ acc item,
             let k := typeName (QueuedRequest.type item) in
             <[k := (default 0%nat (acc !! k) + 1)%nat]> acc)
          acc l in
  default 0%nat (byType !! typeName t)
  = (default 0%nat (acc !! typeName t) + countType t l)%nat
  ∧ (acc !! typeName t = None → countType t l = 0%nat → byType !! typeName t = None).
Proof.
  revert acc. induction l as [|item rest IH]; intros acc; cbn zeta.
  - unfold countType. simpl. split; [lia|done].
  - cbn [foldl]. cbn zeta in IH.
    destruct (IH (<[typeName (QueuedRequest.type item) :=
                     (default 0%nat (acc !! typeName (QueuedRequest.type item)) + 1)%nat]>
                    acc)) as [IH1 IH2].
    rewrite IH1. unfold countType. cbn [List.filter].
    destruct (String.eqb_spec (typeName (QueuedRequest.type item)) (typeName t)) as [Heq|Hne].
    + rewrite Heq, lookup_insert_eq. cbn [length from_option id]. split; [lia|done].
    + rewrite lookup_insert_ne by done. split; [done|].
      intros Hacc Hcount. apply IH2; [by rewrite lookup_insert_ne|exact Hcount].
Qed.

Lemma countType_total (l : list QueuedRequest.t) :
  (countType QueuedRequest.donations l + countType QueuedRequest.registrations l
   + countType QueuedRequest.announcements l + countType QueuedRequest.general l)%nat
  = length l.
Proof.
  induction l as [|item rest IH]; [done|].
  unfold countType in *. cbn [List.filter length].
  destruct (QueuedRequest.type item); simpl in *; lia.
Qed.

(** X19.  getQueueStatus reads the queue and changes nothing: the queue,
    the timers, the requests sent and the events dispatched are as before.
    The status lists the queued items, each once, in the ascending order
    of their ids; [total] is their number, each type that occurs among
    them has its number of items in [byType], a type that does not occur
    has no entry there, and the four counts add up to [total]. *)
Theorem queue_status_counts (now : Z) (w : World) (os : gmap string QueuedRequest.t) :
  hasQueue w os → clean os →
  ∃ w' st, getQueueStatus now w = (Return st, w')
    ∧ hasQueue w' os ∧ timers w' = timers w ∧ retryTimeouts w' = retryTimeouts w
    ∧ dispatched w' = dispatched w ∧ fetched w' = fetched w
    ∧ items st ≡ₚ (map_to_list os).*2
    ∧ ascendingById (items st)
    ∧ total st = size os
    ∧ (∀ t, byType st !! typeName t
            = if decide (countType t (items st) = 0%nat) then None
              else Some (countType t (items st)))
    ∧ (countType QueuedRequest.donations (items st)
       + countType QueuedRequest.registrations (items st)
       + countType QueuedRequest.announcements (items st)
       + countType QueuedRequest.general (items st))%nat = total st.
Proof.
  intros Hos Hclean. unfold getQueueStatus, bind, db.
  rewrite (getAll_clean w os now Hos Hclean). cbv beta iota zeta.
  eexists. eexists. split; [reflexivity|]. cbn [items total byType].
  split; [exact Hos|]. do 4 (split; [done|]).
  split; [apply inKeyOrder_perm|]. split; [by apply inKeyOrder_ascendingById|].
  split; [by rewrite length_inKeyOrder|].
  split; [|by rewrite countType_total].
  intros t.
  destruct (byType_counts (inKeyOrder os) ∅ t) as [Hcount Hnone]. cbn zeta in *.
  rewrite lookup_empty in Hcount. cbn [from_option id] in Hcount.
  case_decide as Hzero; [by apply Hnone|].
  destruct (foldl _ _ _ !! typeName t) as [n|] eqn:Hn; simpl in Hcount; [by subst|].
  lia.
Qed.

Lemma queue_status_counts_witness :
  let first := QueuedRequest.mk "1000-aaaaaaaaa" "/api/donations" "POST" (Some "{}")
                 ∅ 1000 0 (Some 3) QueuedRequest.donations None in
  let second := QueuedRequest.mk "999-zzzzzzzzz" "/api/announcements" "POST" (Some "{}")
                  ∅ 999 0 (Some 3) QueuedRequest.announcements None in
  let os : gmap string QueuedRequest.t :=
    {["999-zzzzzzzzz" := second; "1000-aaaaaaaaa" := first]} in
  let w := mkWorld (Some (setObjectStore offlineQueue os (init None)))
             true ∅ ∅ 1%positive [] [] [] in
  ∃ w' st, getQueueStatus 2000 w = (Return st, w')
    ∧ ascendingById (items st)
    ∧ total st = 2%nat.
Proof.
  intros first second os w.
  destruct (queue_status_counts 2000 w os)
    as (w' & st & Heq & _ & _ & _ & _ & _ & _ & Hsorted & Htotal & _); [reflexivity| |].
  { apply clean_insert; [by apply clean_singleton|done|done]. }
  exists w', st. split; [exact Heq|]. split; [exact Hsorted|exact Htotal].
Defined.

Lemma queue_status_example :
  let first := QueuedRequest.mk "1000-aaaaaaaaa" "/api/donations" "POST" (Some "{}")
                 ∅ 1000 0 (Some 3) QueuedRequest.donations None in
  let second := QueuedRequest.mk "999-zzzzzzzzz" "/api/announcements" "POST" (Some "{}")
                  ∅ 999 0 (Some 3) QueuedRequest.announcements None in
  let os : gmap string QueuedRequest.t :=
    {["999-zzzzzzzzz" := second; "1000-aaaaaaaaa" := first]} in
  let w := mkWorld (Some (setObjectStore offlineQueue os (init None)))
             true ∅ ∅ 1%positive [] [] [] in
  (getQueueStatus 2000 w).1
  = Return (mkQueueStatus 2 {["donations" := 1%nat; "announcements" := 1%nat]}
              [first; second]).
Proof. by vm_compute. Qed.

(** *** The backoff delay *)

(** X20.  From the first retry on the delay never decreases from one
    retry to the next, is at least the base delay of one second and at
    most the maximal delay of thirty seconds, which it reaches at the
    sixth retry and keeps from there on. *)
Theorem retry_delay_is_monotone_and_bounded (n m : Z) :
  1 ≤ n → n ≤ m →
  1000 ≤ calculateRetryDelay n
  ∧ calculateRetryDelay n ≤ calculateRetryDelay m
  ∧ calculateRetryDelay m ≤ 30000
  ∧ (n < 6 → calculateRetryDelay n < 30000)
  ∧ (6 ≤ n → calculateRetryDelay n = 30000).
Proof.
  intros Hn Hm. unfold calculateRetryDelay. simpl.
  assert (0 < 2 ^ (n - 1)) by (apply Z.pow_pos_nonneg; lia).
  assert (2 ^ (n - 1) ≤ 2 ^ (m - 1)) by (apply Z.pow_le_mono_r; lia).
  split; [lia|]. split; [lia|]. split; [lia|]. split.
  - intros Hlt. assert (2 ^ (n - 1) ≤ 2 ^ 4) by (apply Z.pow_le_mono_r; lia).
    change (2 ^ 4) with 16 in *. lia.
  - intros Hge. assert (2 ^ 5 ≤ 2 ^ (n - 1)) by (apply Z.pow_le_mono_r; lia).
    change (2 ^ 5) with 32 in *. lia.
Qed.

Lemma retry_delay_is_monotone_and_bounded_witness :
  1000 ≤ calculateRetryDelay 2
  ∧ calculateRetryDelay 2 ≤ calculateRetryDelay 7
  ∧ calculateRetryDelay 7 ≤ 30000.
Proof.
  destruct (retry_delay_is_monotone_and_bounded 2 7) as (H1 & H2 & H3 & _); [lia|lia|].
  by repeat split.
Defined.

(** *** The queue methods of IndexedDBManager *)

(** X21.  IndexedDBManager.incrementRetryCount raises the retry count of
    the queued item by one, whatever its maximum, and renews its time
    stamp; everything else of the item and every other item stay, and for
    an id that is not queued it does nothing.  getOfflineQueue then lists
    the stored items, each once, in the ascending order of their ids,
    and after removeFromOfflineQueue the id is no longer found. *)
Theorem increment_then_list_then_remove (id : string) (now now' : Z) (idb : IDB)
    (os : gmap string QueuedRequest.t) :
  objectStore offlineQueue (init idb) = Some os →
  clean os →
  ∃ idb' os',
    OfflineStorage.incrementRetryCount id now idb = (Return tt, idb')
    ∧ objectStore offlineQueue (init idb') = Some os'
    ∧ os' !! id = retriedItem now <$> os !! id
    ∧ (∀ item, os !! id = Some item →
         QueuedRequest.retryCount (retriedItem now item) = QueuedRequest.retryCount item + 1
         ∧ QueuedRequest.timestamp (retriedItem now item) = now
         ∧ requestInit (retriedItem now item) = requestInit item
         ∧ QueuedRequest.maxRetries (retriedItem now item) = QueuedRequest.maxRetries item)
    ∧ (∀ k, k ≠ id → os' !! k = os !! k)
    ∧ (∃ l, (OfflineStorage.getOfflineQueue now' idb').1 = Return l
            ∧ l ≡ₚ (map_to_list os').*2 ∧ ascendingById l)
    ∧ ∃ idb'', OfflineStorage.removeFromOfflineQueue id idb' = (Return tt, idb'')
               ∧ get offlineQueue id now' idb'' = (Return None, idb'').
Proof.
  intros Hos Hclean.
  assert (∀ os1 db, clean os1 →
            ∃ l, (OfflineStorage.getOfflineQueue now'
                    (Some (setObjectStore offlineQueue os1 db))).1 = Return l
                 ∧ l ≡ₚ (map_to_list os1).*2 ∧ ascendingById l) as Hlist.
  { intros os1 db Hclean1. unfold OfflineStorage.getOfflineQueue.
    rewrite (getAll_found offlineQueue now' (Some _) os1 (objectStore_set _ _ _)).
    destruct (filter_unexpired now' _ (clean_values os1 Hclean1)) as [_ ->].
    exists (inKeyOrder os1). split; [done|].
    split; [apply inKeyOrder_perm|by apply inKeyOrder_ascendingById]. }
  assert (∀ os1 db,
            ∃ idb'', OfflineStorage.removeFromOfflineQueue id
                       (Some (setObjectStore offlineQueue os1 db)) = (Return tt, idb'')
                     ∧ get offlineQueue id now' idb'' = (Return None, idb'')) as Hremove.
  { intros os1 db. unfold OfflineStorage.removeFromOfflineQueue.
    rewrite (delete_found offlineQueue id (Some _) os1 (objectStore_set _ _ _)).
    eexists. split; [done|].
    rewrite (get_found offlineQueue id now' (Some _) _ (objectStore_set _ _ _)).
    by rewrite lookup_delete_eq. }
  unfold OfflineStorage.incrementRetryCount, bind.
  rewrite (get_found offlineQueue id now idb os Hos).
  destruct (os !! id) as [item|] eqn:Hid.
  - destruct (Hclean id item Hid) as [He Hkey]. cbn [expiresAtOf]. rewrite He. cbn [expired truthyNum andb].
    rewrite (store_found offlineQueue _ None now (Some (init idb)) os); [|exact Hos].
    cbn [keyOf OfflineQueue.incrementRetryCount QueuedRequest.id]. rewrite Hkey.
    eexists. exists (<[id := retriedItem now item]> os).
    split; [done|]. split; [by rewrite !init_open, objectStore_set|].
    split; [by rewrite lookup_insert_eq|]. split; [by intros ? [= <-]|].
    split; [by intros k Hk; rewrite lookup_insert_ne|].
    split; [by apply Hlist, clean_insert|apply Hremove].
  - rewrite <-(setObjectStore_same offlineQueue os (init idb) Hos).
    eexists. exists os. split; [done|]. split; [by rewrite init_open, objectStore_set|].
    split; [by rewrite Hid|]. split; [done|]. split; [done|].
    split; [by apply Hlist|apply Hremove].
Qed.

Lemma increment_then_list_then_remove_witness :
  let first := QueuedRequest.mk "1000-aaaaaaaaa" "/api/donations" "POST" (Some "{}")
                 ∅ 1000 3 (Some 3) QueuedRequest.donations None in
  let second := QueuedRequest.mk "999-zzzzzzzzz" "/api/announcements" "POST" (Some "{}")
                  ∅ 999 0 (Some 3) QueuedRequest.announcements None in
  let os : gmap string QueuedRequest.t :=
    {["999-zzzzzzzzz" := second; "1000-aaaaaaaaa" := first]} in
  let idb := Some (setObjectStore offlineQueue os (init None)) in
  ∃ idb' os',
    OfflineStorage.incrementRetryCount "1000-aaaaaaaaa" 2000 idb = (Return tt, idb')
    ∧ objectStore offlineQueue (init idb') = Some os'
    ∧ (QueuedRequest.retryCount <$> os' !! "1000-aaaaaaaaa") = Some 4
    ∧ ∃ l, (OfflineStorage.getOfflineQueue 3000 idb').1 = Return l ∧ ascendingById l.
Proof.
  intros first second os idb.
  destruct (increment_then_list_then_remove "1000-aaaaaaaaa" 2000 3000 idb os)
    as (idb' & os' & Heq & Hos & Hid & _ & _ & (l & Hl & _ & Hsorted) & _); [reflexivity| |].
  { apply clean_insert; [by apply clean_singleton|done|done]. }
  exists idb', os'. split; [exact Heq|]. split; [exact Hos|].
  split; [by rewrite Hid|]. by exists l.
Defined.

Lemma getOfflineQueue_example :
  let first := QueuedRequest.mk "1000-aaaaaaaaa" "/api/donations" "POST" (Some "{}")
                 ∅ 1000 3 (Some 3) QueuedRequest.donations None in
  let second := QueuedRequest.mk "999-zzzzzzzzz" "/api/announcements" "POST" (Some "{}")
                  ∅ 999 0 (Some 3) QueuedRequest.announcements None in
  let os : gmap string QueuedRequest.t :=
    {["999-zzzzzzzzz" := second; "1000-aaaaaaaaa" := first]} in
  (OfflineStorage.getOfflineQueue 3000 (Some (setObjectStore offlineQueue os (init None)))).1
  = Return [first; second].
Proof. by vm_compute. Qed.

End QueueManagerFacts.

(** ** More on the service worker *)

Module ServiceWorkerRouteFacts.
Import IndexedDB ServiceWorker ServiceWorkerRoutes IndexedDBFacts StorageFacts
  ServiceWorkerFacts.

(** *** Reads of the API *)

Lemma caches_match_attempt request s rqs b :
  caches_match request (mkSW (idb s) (caches s) rqs b)
  = ((caches_match request s).1, mkSW (idb s) (caches s) rqs b).
Proof. done. Qed.

Lemma getApiDataFromIndexedDB_eq pathname now s :
  getApiDataFromIndexedDB pathname now s
  = (Return (d ← snapshotFor pathname (idb s);
             if expired now (StoredData.expiresAt d) then None else Some d),
     mkSW (Some (open onupgradeneeded (idb s))) (caches s) (attempts s) (bodyUsed s)).
Proof.
  unfold getApiDataFromIndexedDB, snapshotFor, bind, openIndexedDB.
  destruct (storeNameFor pathname) as [T|]; [|done]. simpl.
  destruct (objectStore T (open onupgradeneeded (idb s))) as [os|]; [|done]. simpl.
  destruct (os !! "current") as [d|]; [|done]. simpl.
  by destruct (expired now (StoredData.expiresAt d)).
Qed.

Lemma read_failure net now random request s :
  isAuthEndpoint request = false →
  isWriteOperation request = false →
  bodyUsed s = false →
  fails net request →
  (caches_match request s).1 = Return None →
  handleApiRequest net now random request s
  = (Return (match snapshotFor (pathname request) (idb s) with
             | Some d =>
                 if expired now (StoredData.expiresAt d)
                 then getOfflineResponse (pathname request)
                 else jsonResponse 200 (<["X-From-IndexedDB" := "true"]> jsonHeaders)
                        (StoredData.data d)
             | None => getOfflineResponse (pathname request)
             end),
     mkSW (Some (open onupgradeneeded (idb s))) (caches s) (attempts s ++ [request])
          (hasBody request)).
Proof.
  intros Hauth Hwrite Hfresh Hfail Hmiss.
  unfold handleApiRequest. rewrite Hauth, Hwrite.
  unfold try_catch, bind at 1. rewrite (fetch_fresh _ _ _ Hfresh).
  set (s1 := mkSW (idb s) (caches s) (attempts s ++ [request]) (hasBody request)).
  assert ((let* cachedResponse := caches_match request in
           match cachedResponse with
           | Some cached => setHeaderOfCached "X-From-Cache" "true" cached
           | None =>
               let* indexedDBData := getApiDataFromIndexedDB (pathname request) now in
               match indexedDBData with
               | Some d =>
                   ret (jsonResponse 200 (<["X-From-IndexedDB" := "true"]> jsonHeaders)
                          (StoredData.data d))
               | None => ret (getOfflineResponse (pathname request))
               end
           end) s1
          = (Return (match snapshotFor (pathname request) (idb s) with
                     | Some d =>
                         if expired now (StoredData.expiresAt d)
                         then getOfflineResponse (pathname request)
                         else jsonResponse 200
                                (<["X-From-IndexedDB" := "true"]> jsonHeaders)
                                (StoredData.data d)
                     | None => getOfflineResponse (pathname request)
                     end),
             mkSW (Some (open onupgradeneeded (idb s))) (caches s)
                  (attempts s ++ [request]) (hasBody request))) as Hfallback.
  { unfold bind at 1. unfold s1. rewrite caches_match_attempt, Hmiss.
    unfold bind. rewrite getApiDataFromIndexedDB_eq. cbn [idb caches attempts bodyUsed].
    destruct (snapshotFor (pathname request) (idb s)) as [d|]; [|done]. simpl.
    by destruct (expired now (StoredData.expiresAt d)). }
  destruct (net request) as [response|e] eqn:Hnet; [|exact Hfallback].
  rewrite (Hfail response Hnet). exact Hfallback.
Qed.

Lemma getOfflineResponse_spec pathname :
  status (getOfflineResponse pathname) = 503
  ∧ resp_headers (getOfflineResponse pathname) = jsonHeaders
  ∧ bodyProp "success" (getOfflineResponse pathname) = Some (JBool false)
  ∧ bodyProp "offline" (getOfflineResponse pathname)
    = if startsWith pathname "/api/auth/" then None else Some (JBool true).
Proof.
  unfold getOfflineResponse.
  destruct (startsWith pathname "/api/auth/"); [done|].
  destruct (includes pathname "/prayers"); [done|].
  destruct (includes pathname "/events"); [done|].
  by destruct (includes pathname "/announcements").
Qed.

(** X22.  A read of the API (not an auth endpoint, not a write) whose
    network attempt fails, and for which no cache has an entry, never
    rejects and makes that one attempt only.  It is answered from the
    record with id 'current' of the collection that belongs to the path
    (prayerTimes, events or announcements), with status 200, the stored
    data as body and the header X-From-IndexedDB, as long as the record
    has not expired; an expired record is not served and is not deleted.
    Otherwise the answer is the offline response of the path: status 503
    with [success: false] and [offline: true]. *)
Theorem failed_read_is_answered_from_the_database (net : Net) (now : Z) (random : string)
    (request : Request) (s : SW) :
  isAuthEndpoint request = false →
  isWriteOperation request = false →
  bodyUsed s = false →
  fails net request →
  (caches_match request s).1 = Return None →
  ∃ answer s', handleApiRequest net now random request s = (Return answer, s')
    ∧ attempts s' = attempts s ++ [request]
    ∧ caches s' = caches s
    ∧ idb s' = Some (open onupgradeneeded (idb s))
    ∧ (∀ d, snapshotFor (pathname request) (idb s) = Some d →
            expired now (StoredData.expiresAt d) = false →
            answer = fromIndexedDB (StoredData.data d)
            ∧ status answer = 200
            ∧ resp_headers answer !! "X-From-IndexedDB" = Some "true")
    ∧ ((∀ d, snapshotFor (pathname request) (idb s) = Some d →
             expired now (StoredData.expiresAt d) = true) →
       answer = getOfflineResponse (pathname request)
       ∧ status answer = 503
       ∧ bodyProp "success" answer = Some (JBool false)
       ∧ bodyProp "offline" answer = Some (JBool true)).
Proof.
  intros Hauth Hwrite Hfresh Hfail Hmiss.
  rewrite (read_failure net now random request s Hauth Hwrite Hfresh Hfail Hmiss).
  eexists. eexists. split; [reflexivity|]. do 3 (split; [done|]). split.
  - by intros d -> ->.
  - intros Hnone.
    assert (match snapshotFor (pathname request) (idb s) with
            | Some d =>
                if expired now (StoredData.expiresAt d)
                then getOfflineResponse (pathname request)
                else jsonResponse 200 (<["X-From-IndexedDB" := "true"]> jsonHeaders)
                       (StoredData.data d)
            | None => getOfflineResponse (pathname request)
            end = getOfflineResponse (pathname request)) as ->.
    { destruct (snapshotFor (pathname request) (idb s)) as [d|]; [|done].
      by rewrite (Hnone d eq_refl). }
    destruct (getOfflineResponse_spec (pathname request)) as (? & _ & ? & Hoff).
    unfold isAuthEndpoint in Hauth. rewrite Hauth in Hoff. done.
Qed.

Lemma failed_read_is_answered_from_the_database_witness :
  let request := mkRequest "https://masjeed.example/api/prayers/today" "/api/prayers/today"
                   "GET" ∅ None "cors" in
  let down : Net := λ _, Throw (NetworkError "Failed to fetch") in
  let record := StoredData.mk "current" (JStr "fajr 04:31") 1000 (Some 3601000) in
  let s := mkSW (Some (setObjectStore prayerTimes {["current" := record]}
                         (open onupgradeneeded None))) [] [] false in
  ∃ answer s', handleApiRequest down 2000 "k3j9x2m1q" request s = (Return answer, s')
    ∧ attempts s' = [request]
    ∧ answer = fromIndexedDB (JStr "fajr 04:31").
Proof.
  intros request down record s.
  destruct (failed_read_is_answered_from_the_database down 2000 "k3j9x2m1q" request s)
    as (answer & s' & Heq & Ha & _ & _ & Hserved & _);
    [reflexivity|reflexivity|reflexivity|by intros r|reflexivity|].
  exists answer, s'. split; [exact Heq|]. split; [exact Ha|].
  by apply (Hserved record).
Defined.

(** *** The caches *)







(** *** The page and the worker on one database *)

Ltac served_snapshot Hall Hnow Hauth Hwrite Hfail Hmiss :=
  match goal with
  | |- storeNameFor _ = Some ?T → _ =>
      let HT := fresh "HT" in
      let os := fresh "os" in
      let Hos := fresh "Hos" in
      intros HT;
      destruct (bool_decide_eq_true_1 _ (Hall _ T eq_refl)) as [os Hos];
      match goal with
      | |- context [(store T ?record ?ttl ?now ?idb0).2] =>
          rewrite (store_found T record ttl now idb0 os Hos)
      end;
      cbn [snd];
      match goal with
      | |- context [handleApiRequest ?net ?t ?random ?request ?s] =>
          rewrite (read_failure net t random request s Hauth Hwrite eq_refl Hfail Hmiss)
      end;
      cbn [fst idb]; unfold snapshotFor; rewrite HT;
      cbn [snd open mbind option_bind]; rewrite objectStore_set;
      cbn [mbind option_bind keyOf StoredData.id withExpiry stampData];
      rewrite lookup_insert_eq;
      cbn [truthyNum default from_option id StoredData.expiresAt StoredData.data];
      unfold expired;
      repeat match goal with
             | |- context [?a =? 0] =>
                 replace (a =? 0) with false by (symmetry; apply Z.eqb_neq; lia);
                 cbn [negb andb stampData StoredData.expiresAt StoredData.data truthyNum]
             end;
      match goal with
      | |- context [?e <? ?n] =>
          destruct (Z.ltb_spec e n);
          match goal with
          | |- context [?a <=? ?b] => destruct (Z.leb_spec a b)
          end;
          try lia; reflexivity
      end
  end.

(** X24.  The page and the worker read the same records.  What the page
    has stored with storePrayerTimes, storeEvents or storeAnnouncements at
    time [now >= 0] is what the worker answers to a failed read of the
    matching API path for which no cache has an entry: status 200, the
    stored data as body, for as long as the TTL of the page helper lasts
    (24 hours, 1 hour, 30 minutes); after that the worker answers with the
    offline response of the path. *)
Theorem page_snapshots_are_served_by_the_worker (net : Net) (now now' : Z)
    (random : string) (request : Request) (data : json) (idb0 : IDB) (cs : CacheStorage) :
  (∀ A (T : StoreName A), createdByInit T = true → contains T (init idb0) = true) →
  0 ≤ now →
  isAuthEndpoint request = false →
  isWriteOperation request = false →
  fails net request →
  uncached request cs →
  let answer (stored : IDB) :=
    (handleApiRequest net now' random request (mkSW stored cs [] false)).1 in
  let served (ttl : Z) :=
    Return (if now' <=? now + ttl then fromIndexedDB data
            else getOfflineResponse (pathname request)) in
  (storeNameFor (pathname request) = Some prayerTimes →
   answer (OfflineStorage.storePrayerTimes data now idb0).2 = served 86400000)
  ∧ (storeNameFor (pathname request) = Some events →
     answer (OfflineStorage.storeEvents data now idb0).2 = served 3600000)
  ∧ (storeNameFor (pathname request) = Some announcements →
     answer (OfflineStorage.storeAnnouncements data now idb0).2 = served 1800000).
Proof.
  intros Hall Hnow Hauth Hwrite Hfail Hmiss answer served. unfold answer, served.
  unfold OfflineStorage.storePrayerTimes, OfflineStorage.storeEvents,
    OfflineStorage.storeAnnouncements.
  repeat split; served_snapshot Hall Hnow Hauth Hwrite Hfail Hmiss.
Qed.

Lemma page_snapshots_are_served_by_the_worker_witness :
  let request := mkRequest "https://masjeed.example/api/prayers/today" "/api/prayers/today"
                   "GET" ∅ None "cors" in
  let down : Net := λ _, Throw (NetworkError "Failed to fetch") in
  (handleApiRequest down 2000 "k3j9x2m1q" request
     (mkSW (OfflineStorage.storePrayerTimes (JStr "fajr 04:31") 1000 None).2 [] [] false)).1
  = Return (fromIndexedDB (JStr "fajr 04:31")).
Proof.
  intros request down.
  assert (∀ A (T : StoreName A), createdByInit T = true → contains T (init None) = true)
    as Hall by (intros A T; by destruct T).
  pose proof (page_snapshots_are_served_by_the_worker down 1000 2000 "k3j9x2m1q" request
                (JStr "fajr 04:31") None [] Hall) as H.
  cbv zeta in H.
  destruct H as (H & _); [lia|reflexivity|reflexivity|by intros r|reflexivity|].
  exact (H eq_refl).
Defined.

(** X25.  When the worker is the first to open the database, it creates
    the collections offlineQueue, prayerTimes, events and announcements
    only.  The page then finds the database at its version and creates
    nothing: its helpers for donations and for the community directory
    reject with NotFoundError, those for prayer times, events and
    announcements work.  A database that the page has created has every
    collection the worker uses. *)
Theorem worker_created_database_lacks_page_collections (data : json) (now : Z)
    (cs : CacheStorage) (rqs : list Request) (used : bool) :
  ∃ db, openIndexedDB (mkSW None cs rqs used) = (Return db, mkSW (Some db) cs rqs used)
    ∧ init (Some db) = db
    ∧ OfflineStorage.storeDonations data now (Some db) = (Throw NotFoundError, Some db)
    ∧ OfflineStorage.getDonations now (Some db) = (Throw NotFoundError, Some db)
    ∧ OfflineStorage.storeCommunity data now (Some db) = (Throw NotFoundError, Some db)
    ∧ OfflineStorage.getCommunity now (Some db) = (Throw NotFoundError, Some db)
    ∧ (OfflineStorage.storePrayerTimes data now (Some db)).1 = Return tt
    ∧ (OfflineStorage.storeEvents data now (Some db)).1 = Return tt
    ∧ (OfflineStorage.storeAnnouncements data now (Some db)).1 = Return tt
    ∧ (OfflineQueue.getQueueStatus now
         (OfflineQueue.mkWorld (Some db) true ∅ ∅ 1%positive [] [] [])).1
      = Return (OfflineQueue.mkQueueStatus 0 ∅ [])
    ∧ open onupgradeneeded (Some (init None)) = init None
    ∧ contains offlineQueue (init None) = true
    ∧ contains prayerTimes (init None) = true
    ∧ contains events (init None) = true
    ∧ contains announcements (init None) = true.
Proof.
  eexists. split; [reflexivity|]. by repeat split.
Qed.

(** *** Writes that fail *)

(** X26.  A DELETE to the API (not an auth endpoint) whose network attempt
    fails, by a rejection or by a status that is not 2xx, is answered with
    status 202 and [queued: true], and is put into the offlineQueue
    collection with retry count 0, no body, the headers of the request
    and the type that belongs to the path.  The queue manager of the page
    replays that record as a DELETE to the same url, with the same headers
    plus Content-Type: application/json, and gives it three retries. *)
Theorem failed_delete_is_queued (net : Net) (now : Z) (random : string)
    (request : Request) (s : SW) (os : gmap string QueuedRequest.t) :
  isAuthEndpoint request = false →
  method request = "DELETE" →
  bodyUsed s = false →
  fails net request →
  objectStore offlineQueue (open onupgradeneeded (idb s)) = Some os →
  os !! OfflineQueue.newId now random = None →
  ∃ s' item, handleApiRequest net now random request s = (Return queuedResponse, s')
    ∧ status queuedResponse = 202
    ∧ bodyProp "queued" queuedResponse = Some (JBool true)
    ∧ attempts s' = attempts s ++ [request]
    ∧ objectStore offlineQueue (open onupgradeneeded (idb s'))
      = Some (<[OfflineQueue.newId now random := item]> os)
    ∧ QueuedRequest.id item = OfflineQueue.newId now random
    ∧ QueuedRequest.retryCount item = 0
    ∧ QueuedRequest.expiresAt item = None
    ∧ QueuedRequest.type item = getRequestType (pathname request)
    ∧ OfflineQueue.effectiveMaxRetries item = 3
    ∧ OfflineQueue.requestInit item
      = mkHttpRequest (url request) "DELETE"
          (headers request ∪ {[ "Content-Type" := "application/json" ]}) None.
Proof.
  intros Hauth Hmethod Hfresh Hfail Hos Hid.
  assert (isWriteOperation request = true) as Hwrite.
  { unfold isWriteOperation. by rewrite Hmethod. }
  rewrite (write_failure_without_body net now random request s os Hauth Hwrite Hfresh
             Hfail Hos Hid (or_introl Hmethod)).
  rewrite Hmethod. eexists. eexists. split; [reflexivity|].
  do 3 (split; [done|]). split; [by cbn [idb open]; rewrite objectStore_set|].
  by repeat split.
Qed.

Lemma failed_delete_is_queued_witness :
  let request := mkRequest "https://masjeed.example/api/events/42/register"
                   "/api/events/42/register" "DELETE"
                   {[ "authorization" := "Bearer t" ]} None "cors" in
  let refused : Net := λ _, Return (mkResponse 409 "Conflict" ∅ (BodyText "")) in
  ∃ s' item, handleApiRequest refused 1000 "k3j9x2m1q" request (mkSW None [] [] false)
             = (Return queuedResponse, s')
    ∧ objectStore offlineQueue (open onupgradeneeded (idb s'))
      = Some {["1000-k3j9x2m1q" := item]}
    ∧ QueuedRequest.type item = QueuedRequest.registrations.
Proof.
  intros request refused.
  destruct (failed_delete_is_queued refused 1000 "k3j9x2m1q" request
              (mkSW None [] [] false) ∅)
    as (s' & item & Heq & _ & _ & _ & Hq & _ & _ & _ & Ht & _);
    [reflexivity|reflexivity|reflexivity| |reflexivity|reflexivity|].
  { intros r Hr. injection Hr as <-. reflexivity. }
  exists s', item. split; [exact Heq|]. split; [exact Hq|]. exact Ht.
Defined.

(** *** The routes beside the API *)

Lemma caches_match_eq request s :
  caches_match request s = (Return (cachedFor request (caches s)), s).
Proof. done. Qed.


Lemma fetch_without_body net request s :
  body request = None →
  fetch net request s
  = (net request, mkSW (idb s) (caches s) (attempts s ++ [request]) (bodyUsed s)).
Proof.
  intros Hbody. unfold fetch, hasBody. rewrite Hbody.
  by rewrite andb_false_r, orb_false_r.
Qed.









(** X28.  A navigation is served network first.  One network attempt is
    made; a 2xx response is the answer.  When the attempt is rejected or
    the status is not 2xx, the answer is the cached entry for the request,
    or else the cached offline page, or else a 503 with the text
    'Offline'.  The handler never rejects and never writes to a cache. *)
Theorem navigation_is_served_network_first (net : Net) (offlineUrl : string)
    (request : Request) (s : SW) :
  body request = None →
  ∃ answer, handleNavigation net offlineUrl request s
            = (Return answer,
               mkSW (idb s) (caches s) (attempts s ++ [request]) (bodyUsed s))
    ∧ (∀ response, net request = Return response → ok response = true →
         answer = response)
    ∧ (fails net request →
         answer = match cachedFor request (caches s) with
                  | Some page => page
                  | None =>
                      match cachedFor (offlinePageRequest offlineUrl) (caches s) with
                      | Some offlinePage => offlinePage
                      | None => textResponse 503 "Offline"
                      end
                  end).
Proof.
  intros Hbody. unfold handleNavigation, try_catch, bind at 1.
  rewrite (fetch_without_body net request s Hbody).
  assert (∀ s1, caches s1 = caches s →
            (let* cachedResponse := caches_match request in
             match cachedResponse with
             | Some cached => ret cached
             | None =>
                 let* offlinePage := caches_match (offlinePageRequest offlineUrl) in
                 ret (default (textResponse 503 "Offline") offlinePage)
             end) s1
            = (Return match cachedFor request (caches s) with
                      | Some page => page
                      | None =>
                          match cachedFor (offlinePageRequest offlineUrl) (caches s) with
                          | Some offlinePage => offlinePage
                          | None => textResponse 503 "Offline"
                          end
                      end, s1)) as Hfallback.
  { intros s1 Hc. unfold bind at 1. rewrite caches_match_eq, Hc.
    destruct (cachedFor request (caches s)); [done|].
    unfold bind. rewrite caches_match_eq, Hc.
    by destruct (cachedFor (offlinePageRequest offlineUrl) (caches s)). }
  destruct (net request) as [response|e] eqn:Hnet.
  - destruct (ok response) eqn:Hok.
    + eexists. split; [reflexivity|]. split; [by intros ? [= <-]|].
      intros Hfail. rewrite (Hfail response Hnet) in Hok. done.
    + unfold throw. rewrite Hfallback by done. eexists. split; [reflexivity|].
      split; [intros ? [= <-] ?; congruence|done].
  - rewrite Hfallback by done. eexists. split; [reflexivity|]. by split.
Qed.

Lemma navigation_is_served_network_first_witness :
  let request := mkRequest "https://masjeed.example/events" "/events"
                   "GET" ∅ None "navigate" in
  let down : Net := λ _, Throw (NetworkError "Failed to fetch") in
  let page := mkResponse 200 "OK" ∅ (BodyText "<h1>Offline</h1>") in
  let s := mkSW None [("masjeed-static-v1",
                       {["https://masjeed.example/offline.html" := page]})] [] false in
  ∃ answer, handleNavigation down "https://masjeed.example/offline.html" request s
            = (Return answer, mkSW None (caches s) [request] false)
    ∧ answer = page.
Proof.
  intros request down page s.
  destruct (navigation_is_served_network_first down "https://masjeed.example/offline.html"
              request s) as (answer & Heq & _ & Hfail); [reflexivity|].
  exists answer. split; [exact Heq|]. by apply Hfail.
Defined.



End ServiceWorkerRouteFacts.

(** ** More on the store of the page *)

Module AuthStoreActionFacts.
Import IndexedDB AuthStore AuthStoreActions OfflineQueue IndexedDBFacts OfflineQueueFacts.

Lemma updateQueuedRequests_spec now p os :
  hasQueue (manager p) os → clean os →
  ∃ p', updateQueuedRequests now p = (Return tt, p')
        ∧ hasQueue (manager p') os
        ∧ offline p'
          = mkOffline (AuthStore.isOnline (offline p)) (size os)
              (lastSyncTime (offline p)) (syncInProgress (offline p)).
Proof.
  intros Hos Hclean. unfold updateQueuedRequests, try_catch, bind, queue.
  destruct (getQueueStatus_spec now (manager p) os Hos Hclean)
    as (w' & st & -> & _ & Htotal & Hq & _).
  eexists. split; [reflexivity|]. simpl. by rewrite Htotal.
Qed.

Lemma clean_empty : clean ∅.
Proof. intros k q. by rewrite lookup_empty. Qed.

(** X30.  The actions of the store keep its count of queued requests in
    step with the queue.  syncOfflineData, when the store is online and no
    sync is in progress, drains the queue through the manager, then sets
    [queuedRequests] to the number of requests left in the queue,
    [syncInProgress] to false and [lastSyncTime] to the time of the sync;
    when the manager itself is offline nothing is drained and the sync
    completes all the same.  clearOfflineQueue empties the queue and sets
    [queuedRequests] to 0. *)
Theorem store_counts_follow_the_queue (net : Network) (now : Z) (p : Page)
    (os : gmap string QueuedRequest.t) :
  hasQueue (manager p) os → clean os →
  (AuthStore.isOnline (offline p) = true → syncInProgress (offline p) = false →
   ∃ p' os', syncOfflineData net now p = (Return tt, p')
     ∧ hasQueue (manager p') os'
     ∧ os' = (if OfflineQueue.isOnline (manager p)
              then (drained net now (inKeyOrder os) os).1 else os)
     ∧ offline p' = mkOffline true (size os') (Some now) false)
  ∧ ∃ p', clearOfflineQueue now p = (Return tt, p')
      ∧ hasQueue (manager p') ∅
      ∧ offline p'
        = mkOffline (AuthStore.isOnline (offline p)) 0 (lastSyncTime (offline p))
            (syncInProgress (offline p)).
Proof.
  intros Hos Hclean. split.
  - intros Hon Hidle. unfold syncOfflineData, bind at 1, gets. rewrite Hon, Hidle.
    cbn [negb orb]. unfold try_catch, bind at 1, set_offline, modify.
    unfold bind at 1, queue. cbn [manager offline].
    destruct (processQueue_spec net now (manager p) os Hos Hclean) as (w' & -> & Hw').
    set (os' := if OfflineQueue.isOnline (manager p)
                then (drained net now (inKeyOrder os) os).1 else os).
    assert (hasQueue w' os' ∧ clean os') as [Hq' Hclean'].
    { unfold os'. destruct (OfflineQueue.isOnline (manager p)).
      - split; [by destruct Hw'|by apply drained_clean].
      - split; [by destruct Hw'|done]. }
    unfold bind at 1.
    match goal with
    | |- context [updateQueuedRequests now ?p1] =>
        destruct (updateQueuedRequests_spec now p1 os' Hq' Hclean')
          as (p2 & -> & Hq2 & Ho2)
    end.
    eexists. exists os'. split; [reflexivity|]. cbn [manager offline] in *.
    split; [exact Hq2|]. split; [done|]. rewrite Ho2. simpl. by rewrite Hon.
  - unfold clearOfflineQueue, try_catch, bind at 1, queue.
    destruct (clearQueue_spec (manager p) os Hos) as (w' & -> & Hq' & _).
    match goal with
    | |- context [updateQueuedRequests now ?p1] =>
        destruct (updateQueuedRequests_spec now p1 ∅ Hq' clean_empty)
          as (p2 & -> & Hq2 & Ho2)
    end.
    exists p2. split; [reflexivity|]. split; [exact Hq2|]. by rewrite Ho2.
Qed.

Lemma store_counts_follow_the_queue_witness :
  let up : Network := λ _, Return (mkResponse 201 "Created" ∅ (BodyText "")) in
  let item := QueuedRequest.mk "1000-k3j9x2m1q" "/api/donations" "POST" (Some "{}")
                ∅ 1000 0 (Some 3) QueuedRequest.donations None in
  let w := mkWorld (Some (setObjectStore offlineQueue {["1000-k3j9x2m1q" := item]}
                            (init None)))
             true ∅ ∅ 1%positive [] [] [] in
  let p := mkPage w (mkOffline true 1 None false) in
  ∃ p', syncOfflineData up 2000 p = (Return tt, p')
        ∧ hasQueue (manager p') ∅
        ∧ offline p' = mkOffline true 0 (Some 2000) false.
Proof.
  intros up item w p.
  destruct (store_counts_follow_the_queue up 2000 p {["1000-k3j9x2m1q" := item]})
    as [Hsync _]; [reflexivity| |].
  { intros k q. rewrite lookup_singleton_Some. by intros [<- <-]. }
  destruct Hsync as (p' & os' & Heq & Hq & -> & Ho); [reflexivity|reflexivity|].
  exists p'. split; [exact Heq|]. split; [exact Hq|]. exact Ho.
Defined.

End AuthStoreActionFacts.
